(* ===== verification/_CoqProject ===== *)
-Q . S2P
Prelude.v
GoStrings.v
DockerTypes.v
Util.v
Container.v
Frame.v
Ticker.v
TickerSteps.v
TickerTests.v
Launch.v
Goroutines.v
