(* ===== verification/Prelude.v ===== *)
(** * tugbot: a verification development

    tugbot is a small container-lifecycle agent written in Go.  On a timer it
    lists the exited containers of a Docker host, keeps those that are labelled
    as tests and were not produced by tugbot itself, and starts each of them
    again from its image with a configuration from which the image's own
    defaults have been subtracted.

    ** The program's parts and the files that model them

    - [Prelude] (this file).  What the components share: the outcomes of a Go
      function that may panic ([result], [panic]), the monad [prog S] of
      programs that mutate a store [S] and may panic (a panic keeps the store
      as it was when it happened, as Go does), Go's [for ... range] loops as
      [forEach], the notations of [go_scope], the hint database [go], the
      rules that run a bind ([bind_step], [bind_cases]), and three ways to speak
      of a program without running it: [preserves R m] (the store after [m] is
      [R]-related to the store before, also after a panic; [read_only] is
      [preserves eq]), [returns_only P m] and [respects E m] (from stores
      that [E] relates, [m] returns the same outcome and leaves stores that
      [E] relates), each with its rule for [bind], and the tactics
      [solve_preserves] and [solve_respects].  A property of what a pointer
      leads to is decided by looking at the pointer ([from_option_dec]).
    - [GoStrings].  The functions of Go's [strings] package and the slice
      expressions that [src/container/container.go] calls: [HasPrefix],
      [Index], [LastIndex], [Contains], [TrimPrefix], [Split], [slice]
      ([s[lo:hi]], which panics out of range) and [Sprintf]'s two formats.
      Go strings are byte sequences; they are Rocq [string]s, indices are [Z]
      (Go's [int]; [-1] for "not found").
    - [DockerTypes].  The structs of [github.com/samalba/dockerclient] that the
      code reads and writes, restricted to the fields it touches:
      [ContainerConfig], [HostConfig], [ContainerInfo], [ImageInfo], [State].
      [*ContainerConfig] and [*HostConfig] are mutated through pointers, so
      they live in a [heap] of two finite maps from locations; a nil pointer
      is [None].  A Go [map[string]string] is a [gmap string string], a
      [map[string]struct{}] a [gset string]; a nil map reads as the empty map.
      The one write to a map, [config.ExposedPorts[p] = struct{}{}], is to
      the map that [structMapSubtract] returned on the line before, which is
      taken to be allocated (a write to a nil map would panic).
      A slice is a [list]; the nil slice and the empty slice are identified
      (the code never compares a slice with nil).
    - [Util].  [sliceEqual], [sliceSubtract], [stringMapSubtract] and
      [structMapSubtract] of [container/util.go], with their loops, and the
      equivalence of each with its specification on lists, maps and sets.
    - [Container].  [src/container/container.go]: the label constants,
      [Container], [NewContainer] and every method: [ID], [Name], [ImageID],
      [ImageName], [Links], [IsTugbot], [StopSignal], [runtimeConfig],
      [hostConfig], [IsTugbotCandidate].  Each method is a [prog heap]: it
      reads the heap through the container's pointers, panics where Go
      dereferences nil or slices out of range, and [runtimeConfig] and
      [hostConfig] write the heap statement by statement as the code does.
      The pure specifications next to them ([imageNameOf], [linkName],
      [isCandidate], [runtimeConfig_spec], [rewriteLinks]) say what each
      method computes from the objects it reads; [wf_container] says that a
      container's pointers lead to objects, [complete] that none of them is
      nil either.  Both are decidable ([Decision] instances), as are
      [Frame.separate], [Ticker.classifies] and the conditions of [Launch]
      on a list of containers, so that they are checked on concrete
      containers by computation.
    - [Frame].  What a method reaches of the heap: [agree c] relates two
      heaps that hold the same objects behind the three pointers of [c],
      [writes_only] two heaps that differ at most behind the pointers a
      writer writes through, [separate c c'] says that what [c] may write is
      nothing that [c'] reads.
    - [Ticker].  The polling driver [RunTickerTestContainers] of
      [actions/ticker.go], which is not among the sources and is modelled from
      the specification: a program over a [world] (the heap of objects, the
      client's state, the client calls made so far, the number of suspension
      points passed) built from [tick], [startCandidates], [startIfCandidate]
      and [cancelled].  The client is the type class [Client]
      ([ListContainers], [StartContainerFrom]); [ClientKeepsObjects] is the
      law that a client leaves the metadata objects alone, and the driver's
      theorems are proved against it; a scripted client is its first
      instance.
    - [TickerSteps].  The same driver as a transition system: a
      configuration is a [phase] (listing, processing the rest of a list,
      waiting at the select, done, crashed) and a world, [step] has one rule
      for each thing the loop can do next, and [machine] is the two-state
      machine of the specification (Running, Stopped) with what it sees of
      the loop ([action]): work between two suspension points, and the
      suspension points with the cancellation as it is visible there; its
      one transition to Stopped is a suspension point at which the
      cancellation is visible.
    - [TickerTests].  [src/actions/ticker_test.go]: the mock client
      ([MockClient], after testify's [Mock]: expected calls with [On], [Run],
      [Once], [Called], [AssertExpectations]) as an instance of [Client], and
      the three tests as the modules [FailedToGetListContainers],
      [OneContainer] and [Iteration2]: their containers, expected calls and
      callbacks, and the local variables the callbacks write ([TestVars]),
      the wait group [wg1] and the mutex [locker] among them.
    - [Launch].  The client that re-creates a container.  [runtimeConfig]
      and [hostConfig] are not exported, so their callers are in the package
      itself, in a client that is not among the sources; [launch_client] is
      the least client that does what the specification says of
      [StartContainerFrom]: [derive] calls the two methods on the container
      and reads the objects they return, [launch] submits them with the
      container's name.  The calls to the Docker API are the list
      [submitted].  [launch_client] lists the same objects at every tick,
      those its own passes wrote; [inspect_client] is the same client with
      a fresh copy of the runtime's objects at every listing, which is how
      the specification describes the snapshot.
    - [Goroutines].  The three tests of [src/actions/ticker_test.go] as the
      two goroutines they are: the goroutine that [go func() { ... }()]
      starts runs the driver and then calls [wg2.Done()], the goroutine of
      the test goes through [wg1.Wait()], [cancel()], [wg2.Wait()] and the
      assertions ([pc]).  A state [sys] holds the statement the test is at,
      the context, the configuration of the driver and the counter of [wg2];
      [sys_step] has one rule for each statement of the test and two for
      the driver's goroutine (a step of [TickerSteps.step] under the context
      as it is, and the return); [fire] is the same as a function, [exec]
      runs a schedule, a list of turns.  [Test] gathers what differs between
      the tests: objects, client and final assertions.

    ** How the components interact

    The driver calls the classifier ([IsTugbot], then [IsTugbotCandidate]) on
    each listed container and hands the candidates to the client.  The
    classifier reads the container's configuration through pointers into the
    heap; [runtimeConfig] and [hostConfig] write through the same pointers,
    so two containers that share an object (as [c1] and [c2] of the tests do)
    see each other's writes, and so does the classifier at the next look:
    a client runs on the objects and its own state together
    ([prog (heap * C)]), the mock and the scripted client leave the objects
    alone ([ClientKeepsObjects]), the client of [Launch] does not.
    [runtimeConfig] calls the helpers of [Util] and [ImageName]; every
    method calls [GoStrings].  In a test the driver and the test function
    run in two goroutines that meet at two wait groups and at the context:
    a callback of the mock, run by the driver, releases [wg1]; the test then
    cancels the context, which the driver sees at its next suspension
    point; the driver's goroutine releases [wg2] when the driver has
    returned.  [Goroutines] takes the steps of the driver from
    [TickerSteps] and the callbacks from [TickerTests].

    ** What the theorems show

    - [GoStrings]: bounds of [Index] and [LastIndex], that the slices the code
      takes at those indices never panic when the separator occurs, and the
      decompositions of a string at the first and last occurrence; what
      [Split] returns: the parts joined with the separator are the string
      ([Split_joined]), and for a one-byte separator they are the only
      parts without that byte of which this holds ([Split_spec]).
    - [Util]: each loop computes its specification (list equality, list
      difference, map difference), and the difference is insensitive to the
      order of the subtracted defaults.
    - [Container]: the functional behaviour of every method on every branch,
      panics included; refinement of the in-place [runtimeConfig] and
      [hostConfig] to pure specifications ([runtimeConfig_spec],
      [rewriteLinks]) together with the frame (nothing else in the heap
      changes), also when the image's configuration aliases the container's;
      idempotence of both (a second call on the mutated objects changes
      nothing); that the accessors and the classifier are read-only, for
      every heap and also after a panic; which panics can happen on a well-formed container (a nil dereference,
      and for [hostConfig] a slice out of range; never an index out of range
      or a missing object), and that [runtimeConfig] returns exactly on the
      complete containers ([runtimeConfig_Ok_iff]); that the two writers
      commute, and that the order
      in which Go ranges over the port bindings does not matter; that a
      container sharing the configuration object sees the writes of
      [runtimeConfig] and may stop being a candidate
      ([runtimeConfig_shared_config]); the round trip between printing a link
      and the slice expressions that parse it ([link_roundtrip]), and what
      the parse gives when the alias has no ["/"].
    - [Frame]: every method of a container respects [agree] for that
      container (its outcome and the objects it leaves depend on the
      container's own objects only), the writers write only through the
      container's pointers to its configuration and host configuration and
      return these pointers, and so a call of a writer on one container
      changes nothing for a separate one ([writers_frame]).
    - [Ticker]: that the driver starts only containers that [IsTugbot]
      rejected and [IsTugbotCandidate] accepted, which containers a pass
      starts and in which order, that errors of the client never stop the
      loop and the cancellation does ([driver_stops_iff_cancelled]), and that
      nothing is started once it is visible.
    - [TickerSteps]: the loop and the transition system have the same runs
      ([driver_refines_steps]); the transition system is deterministic, never
      stuck before a final phase, and refines the machine of the
      specification action by action ([step_refines_machine]): nothing but
      a suspension point at which the cancellation is visible stops the
      driver, and such a point does; with a cancellation scheduled every
      run is finite ([step_terminates]).
      Along any run, with any client, every container that is started was
      let through by the classifier on the objects of that moment
      ([driver_starts_classified]); once the cancellation is visible a run
      has at most three more steps and starts nothing ([cancel_latency]).
    - [Launch]: what the driver and the client do with a candidate, down to
      the objects and the submission ([startIfCandidate_launches]); that a
      candidate without image metadata ends the loop with a panic, where the
      specification asks for an error that the loop survives
      ([driver_crashes_without_image]); that a launched container is a
      candidate again exactly when its image does not declare the test
      label ([launched_again_iff]); that one pass over containers that are
      separate starts the listed candidates in order and submits for each
      what the derivation gives on the objects as they were before the pass
      ([pass_launches]); that the objects the first tick leaves are a fixed
      point of the derivation when no listed container reads what another
      writes, so that every later tick changes no object and submits again,
      for each container that is still a candidate, what the first tick
      submitted ([run_launches]); the only other condition is that the
      classifier answers and the derivation ends well for the containers it
      lets through, which then are complete ([derive_Ok_complete]); that
      this client breaks the law [ClientKeepsObjects]; and that with the
      client that inspects afresh every tick starts and submits what the
      first did, whatever the passes wrote ([run_relaunches]): a container
      whose image declares the test label is launched once by the first
      client and at every tick by the second
      ([ex_launched_once_or_always]).
    - [TickerTests]: the mock leaves the metadata objects alone, so the
      driver's theorems apply to the tests; each test for every number of
      ticks: the calls made, the values the assertions compare, and the tick
      from which the callback of the third test panics.
    - [Goroutines]: [fire] computes [sys_step], and [TickerSteps.advance]
      computes [TickerSteps.step]; whatever the test and the schedule, the
      driver's part of a run is a run of [TickerSteps.step] under the one
      cancellation point that [cancel()] fixed, and ends where the loop of
      [Ticker] ends for that [cancelAfter]
      ([goroutines_refine_driver]): this is what the parameter [cancelAfter]
      stands for.  The first two tests are instances of the class
      [Releasing] (the driver keeps an invariant, releases [wg1] after a
      bounded number of steps and for good); for such a test no schedule
      makes an assertion fail or the driver panic
      ([tests_pass_on_every_schedule]), and every fair schedule ends the
      test ([tests_end_on_fair_schedules]), by the rank [rank] that the step
      of the goroutine [owed] decreases and no step increases; a schedule
      that gives every turn to one goroutine never ends it
      ([unfair_hangs]), and neither does any schedule when a call of the
      driver waits for ever ([blocked_hangs]; [held_mutex_hangs] is the
      first test with its mutex left locked).  The third
      test releases [wg1] at every start of [c2]: it has finitely many runs,
      all explored, and passes or panics according to the schedule
      ([Iteration2_race]).

    ** Bounds and fuel

    [Split] recurses on fuel [String.length s]: each round consumes at least
    one byte, so the fuel is never exhausted and more fuel gives the same list
    ([GoStrings.Split_go_fuel]).  Loops over slices and maps recurse on the
    list of elements and need no fuel.  [RunTickerTestContainers] takes the
    number of ticks the timer delivers: the loop of the code has no end of its
    own, and a run of [ticks] ticks is the prefix of it that those ticks
    drive; the theorems hold for every number of ticks.  The cancellation is
    [cancelAfter : option nat], the suspension point from which it is visible;
    when the cancellation and a tick are both ready, the model takes the
    cancellation.  [TickerSteps.resume] runs the loop from any phase with the
    same fuel; termination of [step] needs no fuel: with the cancellation
    visible from point [n], [TickerSteps.measure] (four times the points left
    before [n], plus the rank of the phase) decreases at every step: a step
    passes a suspension point or moves to a later phase of the same pass.
    A schedule of [Goroutines] is a list of turns, or a function from turn
    numbers for the unending ones; a goroutine that cannot move at its turn
    is passed over, so every schedule gives a run.  Fair termination needs
    no fuel: [Goroutines.rank] counts the steps of the driver before [wg1]
    is released ([todo], at most two in the first two tests), the
    statements of the test, and [TickerSteps.measure] after [cancel()],
    which is at most three at that moment.  The third test is explored to
    depth fifteen; the exploration at depth sixteen is empty
    ([Goroutines.frontier]), so no run is longer, and [Goroutines.exhaust]
    turns what holds of the explored states into a statement about every
    schedule.

    ** What is not modelled

    The Docker client's wire protocol, logging and the real timer are
    outside the model; time is the number of ticks and of suspension points,
    and a tick may come at any turn of the driver, whatever the interval.
    The mutex of the first two tests is a flag among the variables of the
    test; a [Lock] on a held mutex, which would wait for ever since only
    callbacks take the mutex, is the outcome [Blocked], and
    [Goroutines.tests_pass_on_every_schedule] shows that it does not occur.
    The two goroutines interleave at the steps of [TickerSteps.step]:
    a client call with its callback is one step, and the cancellation is
    seen at suspension points only, as the specification requires; the
    choice Go's [select] makes when a tick and the cancellation are both
    ready is not modelled (the cancellation wins).  The real Docker client is
    not among the sources: [Launch] models the calls it makes to
    [runtimeConfig] and [hostConfig] and what it submits, not the inspection
    of containers and images that builds the objects, nor what the runtime
    does with a submission (it is taken to accept every one, and the
    container it creates, with its created-from label, is not listed); the
    interface [Ticker.Client] is all that the sources fix of a client.  The
    heap of the model can hold a pointer that leads nowhere, which Go
    cannot: [Container.wf_container] excludes it, and that every method
    keeps it ([methods_preserve_wf]) is a fact of the model, not of the
    code.  The structs
    of [github.com/samalba/dockerclient] have more fields than the sources
    read; the fields that no statement of the sources touches are left out,
    since every method leaves them as they are.
    [State.StateString] is a library method: a [State] is modelled by the
    string it returns.  The backing array of a slice is not an object of
    its own: [Links] is a list inside its [HostConfig], so two host
    configurations never share the array that [hostConfig] writes into; no
    statement of the sources copies a [HostConfig] or its slice, and objects
    decoded from the Docker API do not share arrays.  UTF-8 decoding in
    [strings.Split] with an empty separator is not modelled (the code splits
    on [":"] only).  Integers are [Z]: the code computes lengths and indices
    of strings only, which do not overflow. *)

From Stdlib Require Export ZArith Lia.
From stdpp Require Export base tactics option list.

#[export] Set Warnings "-clear-no-such-hyp".

Declare Scope go_scope.
Delimit Scope go_scope with go.

(** ** Outcomes of a Go call *)

(** The panics the modelled code can raise: the run-time panics, and
    [Explicit] for a call to [panic()] by a library.  [DanglingPointer] has no
    counterpart in Go (the collector keeps every reachable object); it marks a
    location with no object, and well-formed heaps never produce it.
    [Blocked] is no panic either: it is the outcome of a call that never
    returns, as [Lock] on a mutex that is held and never released; the
    caller stays where it is. *)
Inductive panic : Type :=
| NilDereference
| SliceBoundsOutOfRange
| IndexOutOfRange
| DanglingPointer
| Explicit
| Blocked.

#[export] Instance panic_eq_dec : EqDecision panic.
Proof. solve_decision. Defined.

Inductive result (A : Type) : Type :=
| Ok (a : A)
| Panic (p : panic).
Arguments Ok {A} a.
Arguments Panic {A} p.

#[export] Instance result_eq_dec `{EqDecision A} : EqDecision (result A).
Proof. solve_decision. Defined.

(** A property of what a pointer leads to, when it is not nil, is decided
    by looking at the pointer. *)
#[export] Instance from_option_dec {A} (P : A -> Prop) (Q : Prop)
    `{!forall a, Decision (P a)} `{!Decision Q} (p : option A) :
  Decision (from_option P Q p).
Proof. destruct p; apply _. Defined.

Lemma from_option_forall {A} (P : A -> Prop) (p : option A) :
  (forall a, p = Some a -> P a) <-> from_option P True p.
Proof. destruct p; cbn; split; auto; [by intros ? ? [= <-] | done]. Qed.

Definition is_Ok {A} (r : result A) : bool :=
  match r with Ok _ => true | Panic _ => false end.

Definition result_map {A B} (f : A -> B) (r : result A) : result B :=
  match r with Ok a => Ok (f a) | Panic p => Panic p end.

(** [a[i]] on a slice: out of range it panics. *)
Definition index {A} (a : list A) (i : nat) : result A :=
  match a !! i with
  | Some x => Ok x
  | None => Panic IndexOutOfRange
  end.

(** ** Programs over a store *)

(** A program over a store [S] returns an outcome and the store it leaves.
    After a panic the store is the one at the panicking statement. *)
Definition prog (S A : Type) : Type := S -> result A * S.

Section Prog.
Context {S : Type}.

Definition ret {A} (a : A) : prog S A := fun s => (Ok a, s).

Definition bind {A B} (m : prog S A) (k : A -> prog S B) : prog S B :=
  fun s => match m s with
           | (Ok a, s') => k a s'
           | (Panic p, s') => (Panic p, s')
           end.

Definition raise {A} (p : panic) : prog S A := fun s => (Panic p, s).

Definition get : prog S S := fun s => (Ok s, s).

Definition put (s : S) : prog S unit := fun _ => (Ok tt, s).

Definition modify (f : S -> S) : prog S unit := fun s => (Ok tt, f s).

(** A computation that does not touch the store. *)
Definition lift {A} (r : result A) : prog S A := fun s => (r, s).

(** [if c { body }] with no else branch. *)
Definition when (c : bool) (body : prog S unit) : prog S unit :=
  if c then body else ret tt.

(** [for _, x := range xs { body x }] over a snapshot [xs]. *)
Fixpoint forEach {A} (xs : list A) (body : A -> prog S unit) : prog S unit :=
  match xs with
  | [] => ret tt
  | x :: xs' => bind (body x) (fun _ => forEach xs' body)
  end.

End Prog.

Notation "x <- m ;; k" := (bind m (fun x => k))
  (at level 100, m at next level, right associativity,
   format "'[v' x  <-  m  ;;  '/' k ']'") : go_scope.
Notation "m ;; k" := (bind m (fun _ => k))
  (at level 100, right associativity) : go_scope.

(** ** Tactics and hints *)

Create HintDb go discriminated.
Create Rewrite HintDb go.

(** The database [go] holds the rules that run the operations of the model
    on a store (as rewriting rules) and the rules of [preserves] (as
    resolution hints); the components add theirs. *)

(** ** Laws *)

Section ProgLaws.
Context {S : Type}.
Implicit Types s : S.
Local Open Scope go_scope.

Lemma bind_ret_l {A B} (a : A) (k : A -> prog S B) s :
  (x <- ret a ;; k x) s = k a s.
Proof. reflexivity. Qed.

Lemma bind_ret_r {A} (m : prog S A) s : (x <- m ;; ret x) s = m s.
Proof. unfold bind. destruct (m s) as [[a|p] s']; reflexivity. Qed.

Lemma bind_assoc {A B C} (m : prog S A) (k : A -> prog S B) (k' : B -> prog S C) s :
  (y <- (x <- m ;; k x) ;; k' y) s = (x <- m ;; y <- k x ;; k' y) s.
Proof. unfold bind. destruct (m s) as [[a|p] s']; reflexivity. Qed.

Lemma bind_raise {A B} p (k : A -> prog S B) s :
  (x <- raise p ;; k x) s = (Panic p, s).
Proof. reflexivity. Qed.

(** Running a bind whose first part is known. *)
Lemma bind_run_ok {A B} (m : prog S A) (k : A -> prog S B) s a s' :
  m s = (Ok a, s') -> (x <- m ;; k x) s = k a s'.
Proof. unfold bind. intros ->. reflexivity. Qed.

Lemma bind_run_panic {A B} (m : prog S A) (k : A -> prog S B) s p s' :
  m s = (Panic p, s') -> (x <- m ;; k x) s = (Panic p, s').
Proof. unfold bind. intros ->. reflexivity. Qed.

(** The same, as a rule to apply: run the first part, go on with the rest. *)
Lemma bind_step {A B} (m : prog S A) (k : A -> prog S B) s a s' r :
  m s = (Ok a, s') -> k a s' = r -> (x <- m ;; k x) s = r.
Proof. intros Hm <-. by apply bind_run_ok. Qed.

Lemma bind_step_panic {A B} (m : prog S A) (k : A -> prog S B) s p s' :
  m s = (Panic p, s') -> (x <- m ;; k x) s = (Panic p, s').
Proof. apply bind_run_panic. Qed.

Lemma ret_run {A} (a : A) s : ret a s = (Ok a, s).
Proof. reflexivity. Qed.

Lemma lift_run {A} (r : result A) s : @lift S A r s = (r, s).
Proof. reflexivity. Qed.

(** A bind that ends well went through a good first part. *)
Lemma bind_ok_inv {A B} (m : prog S A) (k : A -> prog S B) s b s'' :
  (x <- m ;; k x) s = (Ok b, s'') ->
  exists a s', m s = (Ok a, s') /\ k a s' = (Ok b, s'').
Proof.
  unfold bind. destruct (m s) as [[a|p] s']; [eauto | discriminate].
Qed.

(** A bind either stops at the panic of its first part or goes on with the
    rest. *)
Lemma bind_cases {A B} (m : prog S A) (k : A -> prog S B) s :
  (exists p s', m s = (Panic p, s') /\ (x <- m ;; k x) s = (Panic p, s'))
  \/ (exists a s', m s = (Ok a, s') /\ (x <- m ;; k x) s = k a s').
Proof. unfold bind. destruct (m s) as [[a|p] s']; eauto. Qed.

Lemma forEach_app {A} (xs ys : list A) (body : A -> prog S unit) s :
  forEach (xs ++ ys) body s = (forEach xs body ;; forEach ys body) s.
Proof.
  revert s. induction xs as [|x xs IH]; intros s; [reflexivity|].
  cbn [app forEach]. unfold bind in *. destruct (body x s) as [[[]|p] s']; [|reflexivity].
  apply IH.
Qed.

(** A loop whose body only modifies the store is a fold. *)
Lemma forEach_modify {A} (xs : list A) (f : A -> S -> S) s :
  forEach xs (fun x => modify (f x)) s = (Ok tt, foldl (fun s x => f x s) s xs).
Proof. revert s. induction xs as [|x xs IH]; intros s; [reflexivity|]. apply IH. Qed.

End ProgLaws.

#[export] Hint Rewrite @bind_ret_l @bind_raise : go.

(** ** Relating the store after a program to the store before

    [preserves R m]: whatever [m] returns, and also when it panics, the store
    it leaves is related by [R] to the store it started from.  With [R]
    equality this says that [m] is read-only. *)

Definition preserves {S A} (R : relation S) (m : prog S A) : Prop :=
  forall s, R s (m s).2.

Abbreviation read_only := (preserves eq).

Section Preserves.
Context {S : Type} (R : relation S) `{!PreOrder R}.
Local Open Scope go_scope.

Lemma preserves_ret {A} (a : A) : preserves R (ret a).
Proof. intros s. reflexivity. Qed.

Lemma preserves_raise {A} p : preserves R (@raise S A p).
Proof. intros s. reflexivity. Qed.

Lemma preserves_lift {A} (r : result A) : preserves R (lift r).
Proof. intros s. reflexivity. Qed.

Lemma preserves_bind {A B} (m : prog S A) (k : A -> prog S B) :
  preserves R m -> (forall a, preserves R (k a)) -> preserves R (x <- m ;; k x).
Proof.
  intros Hm Hk s. unfold bind. specialize (Hm s).
  destruct (m s) as [[a|p] s']; [|done]. etrans; [exact Hm | apply Hk].
Qed.

Lemma preserves_when (c : bool) body : preserves R body -> preserves R (when c body).
Proof. destruct c; [done | intros _; apply preserves_ret]. Qed.

Lemma preserves_forEach {A} (xs : list A) body :
  (forall x, preserves R (body x)) -> preserves R (forEach xs body).
Proof.
  intros Hb. induction xs as [|x xs IH]; [apply preserves_ret|].
  by apply preserves_bind.
Qed.

End Preserves.

#[export] Hint Resolve preserves_ret preserves_raise preserves_lift preserves_bind
  preserves_when preserves_forEach : go.

(** ** What a program can return

    [returns_only P m]: a value that [m] returns, from whatever store,
    satisfies [P].  It says nothing of the runs that panic. *)

Definition returns_only {S A} (P : A -> Prop) (m : prog S A) : Prop :=
  forall s a, (m s).1 = Ok a -> P a.

Section ReturnsOnly.
Context {S : Type}.
Local Open Scope go_scope.

Lemma returns_only_ret {A} (P : A -> Prop) (a : A) : P a -> returns_only (S:=S) P (ret a).
Proof. intros Ha s a' [= <-]. exact Ha. Qed.

Lemma returns_only_bind {A B} (P : B -> Prop) (m : prog S A) (k : A -> prog S B) :
  (forall a, returns_only P (k a)) -> returns_only P (x <- m ;; k x).
Proof.
  intros Hk s b. unfold bind. destruct (m s) as [[a|p] s']; [apply Hk | done].
Qed.

End ReturnsOnly.

(** ** What a program depends on

    [respects E m]: from two stores that [E] relates, [m] returns the same
    outcome and leaves stores that [E] relates.  With [E] "the same objects
    in these places", this says that [m] reads and writes these places only.
    It is [Proper (E ==> eq * E) m], with its rule for [bind]. *)

Definition respects {S A} (E : relation S) (m : prog S A) : Prop :=
  forall s s', E s s' -> (m s).1 = (m s').1 /\ E (m s).2 (m s').2.

Section Respects.
Context {S : Type} (E : relation S).
Local Open Scope go_scope.

Lemma respects_ret {A} (a : A) : respects E (ret a).
Proof. by intros s s' Hs. Qed.

Lemma respects_raise {A} p : respects E (@raise S A p).
Proof. by intros s s' Hs. Qed.

Lemma respects_lift {A} (r : result A) : respects E (lift r).
Proof. by intros s s' Hs. Qed.

Lemma respects_bind {A B} (m : prog S A) (k : A -> prog S B) :
  respects E m -> (forall a, respects E (k a)) -> respects E (x <- m ;; k x).
Proof.
  intros Hm Hk s s' Hs. unfold bind. destruct (Hm s s' Hs) as [Hr Hs'].
  destruct (m s) as [[a|p] s1], (m s') as [[a'|p'] s1']; cbn in Hr; simplify_eq;
    [by apply Hk | done].
Qed.

(** The same, when the rest depends on what the first part can return. *)
Lemma respects_bind_returns {A B} (P : A -> Prop) (m : prog S A) (k : A -> prog S B) :
  respects E m -> returns_only P m -> (forall a, P a -> respects E (k a)) ->
  respects E (x <- m ;; k x).
Proof.
  intros Hm HP Hk s s' Hs. unfold bind. destruct (Hm s s' Hs) as [Hr Hs'].
  specialize (HP s). destruct (m s) as [[a|p] s1], (m s') as [[a'|p'] s1'];
    cbn in Hr; simplify_eq; [|done]. apply Hk; [by apply HP | done].
Qed.

Lemma respects_when (c : bool) body : respects E body -> respects E (when c body).
Proof. destruct c; [done | intros _; apply respects_ret]. Qed.

Lemma respects_forEach {A} (xs : list A) body :
  (forall x, respects E (body x)) -> respects E (forEach xs body).
Proof.
  intros Hb. induction xs as [|x xs IH]; [apply respects_ret|].
  by apply respects_bind.
Qed.

(** The outcome of a program that respects [E] is the same from related
    stores. *)
Lemma respects_fst {A} (m : prog S A) s s' : respects E m -> E s s' -> (m s).1 = (m s').1.
Proof. intros Hm Hs. by apply Hm. Qed.

End Respects.

Lemma respects_Proper {S A} (E : relation S) (m : prog S A) :
  respects E m <-> Proper (E ==> prod_relation eq E) m.
Proof. split; intros Hm s s' Hs; by apply Hm. Qed.

#[export] Hint Resolve respects_ret respects_raise respects_lift : go.

(** Decompose a program into its statements and close each with the hints
    of [go]. *)
Ltac solve_preserves :=
  repeat first
    [ progress intros
    | apply preserves_bind
    | apply preserves_forEach
    | apply preserves_when
    | solve [eauto with go typeclass_instances]
    | case_match ].

Ltac solve_respects :=
  repeat first
    [ progress intros
    | apply respects_bind
    | apply respects_forEach
    | apply respects_when
    | solve [eauto with go typeclass_instances]
    | case_match ].
