(* ===== verification/GoStrings.v ===== *)
(** * GoStrings: the string operations of Go that the container code calls

    Go strings are immutable byte sequences; a Rocq [string] is a sequence of
    8-bit [ascii] characters, so one models the other byte for byte.  Indices
    and lengths are Go [int]s, here [Z]; "not found" is [-1].  The functions
    follow the documented behaviour of Go's [strings] package, not its
    optimised implementation.  A slice expression [s[lo:hi]] panics unless
    [0 <= lo <= hi <= len(s)].  [Split] is given as the loop that cuts at
    the first instance of the separator, and then characterised by what it
    returns ([Split_spec]). *)

From S2P Require Import Prelude.
From stdpp Require Import strings.
From Stdlib Require Import Ascii.

Local Open Scope Z_scope.

(** ** Lengths, prefixes and suffixes *)

(** [len(s)]. *)
Definition len (s : string) : Z := Z.of_nat (String.length s).

(** The first [n] bytes of [s] (all of [s] when it is shorter). *)
Fixpoint stake (n : nat) (s : string) : string :=
  match n, s with
  | S n', String c s' => String c (stake n' s')
  | _, _ => ""
  end.

(** [s] without its first [n] bytes. *)
Fixpoint sdrop (n : nat) (s : string) : string :=
  match n, s with
  | S n', String _ s' => sdrop n' s'
  | _, _ => s
  end.

(** Whether byte [c] occurs in [s]. *)
Fixpoint mem (c : ascii) (s : string) : bool :=
  match s with
  | "" => false
  | String d s' => if decide (c = d) then true else mem c s'
  end.

(** [s[lo:hi]]. *)
Definition slice (s : string) (lo hi : Z) : result string :=
  if (0 <=? lo) && (lo <=? hi) && (hi <=? len s)
  then Ok (stake (Z.to_nat (hi - lo)) (sdrop (Z.to_nat lo) s))
  else Panic SliceBoundsOutOfRange.

(** [s[lo:]] is [s[lo:len(s)]]. *)
Definition sliceFrom (s : string) (lo : Z) : result string := slice s lo (len s).

(** [strings.HasPrefix(s, prefix)]. *)
Fixpoint HasPrefix (s prefix : string) : bool :=
  match prefix, s with
  | "", _ => true
  | String c p', String d s' => if decide (c = d) then HasPrefix s' p' else false
  | String _ _, "" => false
  end.

(** [strings.TrimPrefix(s, prefix)]: [s] without the leading [prefix], or
    [s] itself when it does not start with it. *)
Definition TrimPrefix (s prefix : string) : string :=
  if HasPrefix s prefix then sdrop (String.length prefix) s else s.

(** ** Searching *)

(** [strings.Index(s, substr)]: the index of the first instance of [substr]
    in [s], or [-1]. *)
Fixpoint Index (s substr : string) : Z :=
  if HasPrefix s substr then 0
  else match s with
       | "" => -1
       | String _ s' => let i := Index s' substr in if i <? 0 then -1 else 1 + i
       end.

(** [strings.LastIndex(s, substr)]: the index of the last instance of
    [substr] in [s], or [-1]. *)
Fixpoint LastIndex (s substr : string) : Z :=
  match s with
  | "" => if HasPrefix "" substr then 0 else -1
  | String _ s' =>
      let i := LastIndex s' substr in
      if 0 <=? i then 1 + i else if HasPrefix s substr then 0 else -1
  end.

(** [strings.Contains(s, substr)] is [Index(s, substr) >= 0]. *)
Definition Contains (s substr : string) : bool := 0 <=? Index s substr.

(** ** Splitting *)

(** [s] cut after every byte, the result of [Split] for an empty separator on
    single-byte characters; the empty string gives the empty slice. *)
Fixpoint explode (s : string) : list string :=
  match s with
  | "" => []
  | String c s' => String c "" :: explode s'
  end.

(** The loop of [strings.Split] for a non-empty separator: cut at the first
    instance, continue with what follows it. *)
Fixpoint Split_go (fuel : nat) (s sep : string) : list string :=
  match fuel with
  | O => [s]
  | S fuel' =>
      let m := Index s sep in
      if m <? 0 then [s]
      else stake (Z.to_nat m) s
             :: Split_go fuel' (sdrop (Z.to_nat m + String.length sep) s) sep
  end.

(** [strings.Split(s, sep)]. *)
Definition Split (s sep : string) : list string :=
  match sep with
  | "" => explode s
  | _ => Split_go (String.length s) s sep
  end.

(** The parts put together again with [sep] between them: what [Split]
    is the inverse of. *)
Fixpoint joined (a : list string) (sep : string) : string :=
  match a with
  | [] => ""
  | x :: rest => match rest with [] => x | _ => x +:+ sep +:+ joined rest sep end
  end.

(** [a[0]] on a slice of strings. *)
Definition index0 (a : list string) : result string :=
  match a with
  | [] => Panic IndexOutOfRange
  | x :: _ => Ok x
  end.

(** ** Formatting *)

(** [fmt.Sprintf("%s:latest", s)]. *)
Definition Sprintf_latest (s : string) : string := s +:+ ":latest".

(** [fmt.Sprintf("%s:%s", a, b)]. *)
Definition Sprintf_pair (a b : string) : string := a +:+ ":" +:+ b.

(** ** Bytes and lengths *)

Lemma len_nonneg s : 0 <= len s.
Proof. unfold len. lia. Qed.

Lemma len_String c s : len (String c s) = 1 + len s.
Proof. unfold len. cbn [String.length]. lia. Qed.

Lemma len_empty : len "" = 0.
Proof. reflexivity. Qed.

Lemma app_String c s t : String c s +:+ t = String c (s +:+ t).
Proof. reflexivity. Qed.

Lemma app_empty_l t : "" +:+ t = t.
Proof. reflexivity. Qed.

Lemma app_empty_r s : s +:+ "" = s.
Proof. induction s as [|c s IH]; [done|]. by rewrite app_String, IH. Qed.

Lemma app_assoc_s s t u : (s +:+ t) +:+ u = s +:+ t +:+ u.
Proof. induction s as [|c s IH]; [done|]. by rewrite !app_String, IH. Qed.

Lemma len_app s t : len (s +:+ t) = len s + len t.
Proof.
  induction s as [|c s IH]; [rewrite app_empty_l, len_empty; lia|].
  rewrite app_String, !len_String, IH. lia.
Qed.

Lemma stake_0 s : stake 0 s = "".
Proof. by destruct s. Qed.

Lemma sdrop_0 s : sdrop 0 s = s.
Proof. by destruct s. Qed.

Lemma stake_sdrop n s : stake n s +:+ sdrop n s = s.
Proof.
  revert s. induction n as [|n IH]; intros [|c s]; try done.
  cbn [stake sdrop]. by rewrite app_String, IH.
Qed.

Lemma stake_app_len s t : stake (String.length s) (s +:+ t) = s.
Proof. induction s as [|c s IH]; [by rewrite stake_0|]. cbn. by rewrite app_String, IH. Qed.

Lemma sdrop_app_len s t : sdrop (String.length s) (s +:+ t) = t.
Proof. induction s as [|c s IH]; [by rewrite sdrop_0|]. cbn. by rewrite app_String. Qed.

Lemma stake_all n s : (String.length s <= n)%nat -> stake n s = s.
Proof.
  revert n. induction s as [|c s IH]; intros [|n] Hn; cbn in *; try done; [lia|].
  f_equal. apply IH. lia.
Qed.

Lemma mem_app c s t : mem c (s +:+ t) = mem c s || mem c t.
Proof.
  induction s as [|d s IH]; [done|]. rewrite app_String. cbn [mem].
  case_decide; [done | apply IH].
Qed.

#[export] Hint Rewrite len_String len_empty len_app app_empty_r app_assoc_s
  stake_0 sdrop_0 stake_app_len sdrop_app_len mem_app : go.

Lemma length_stake n s : String.length (stake n s) = (n `min` String.length s)%nat.
Proof.
  revert s. induction n as [|n IH]; intros [|c s]; cbn; try done. by rewrite IH.
Qed.

Lemma length_sdrop n s : String.length (sdrop n s) = (String.length s - n)%nat.
Proof. revert s. induction n as [|n IH]; intros [|c s]; cbn; auto. Qed.

Lemma len_stake n s : len (stake n s) = Z.of_nat n `min` len s.
Proof. unfold len. rewrite length_stake. lia. Qed.

Lemma len_sdrop n s : len (sdrop n s) = (len s - Z.of_nat n) `max` 0.
Proof. unfold len. rewrite length_sdrop. lia. Qed.

(** ** Slice expressions *)

Lemma slice_ok s lo hi :
  0 <= lo <= hi -> hi <= len s ->
  slice s lo hi = Ok (stake (Z.to_nat (hi - lo)) (sdrop (Z.to_nat lo) s)).
Proof.
  intros [??] ?. unfold slice.
  rewrite (proj2 (Z.leb_le 0 lo)), (proj2 (Z.leb_le lo hi)), (proj2 (Z.leb_le hi _)); done.
Qed.

Lemma slice_panic s lo hi :
  lo < 0 \/ hi < lo \/ len s < hi -> slice s lo hi = Panic SliceBoundsOutOfRange.
Proof.
  intros H. unfold slice.
  destruct (Z.leb_spec 0 lo), (Z.leb_spec lo hi), (Z.leb_spec hi (len s)); try done; lia.
Qed.

(** [s[0:i]] is the first [i] bytes. *)
Lemma slice_prefix s i :
  0 <= i <= len s -> slice s 0 i = Ok (stake (Z.to_nat i) s).
Proof.
  intros [??]. rewrite slice_ok by lia. by rewrite Z.sub_0_r, sdrop_0.
Qed.

(** [s[j:]] is what follows the first [j] bytes. *)
Lemma sliceFrom_ok s j :
  0 <= j <= len s -> sliceFrom s j = Ok (sdrop (Z.to_nat j) s).
Proof.
  intros [??]. unfold sliceFrom. rewrite slice_ok by lia.
  f_equal. apply stake_all. rewrite length_sdrop. unfold len. lia.
Qed.

Lemma sliceFrom_panic s j :
  j < 0 \/ len s < j -> sliceFrom s j = Panic SliceBoundsOutOfRange.
Proof. intros H. apply slice_panic. lia. Qed.

(** ** Prefixes *)

Lemma HasPrefix_empty s : HasPrefix s "" = true.
Proof. by destruct s. Qed.

Lemma HasPrefix_app p t : HasPrefix (p +:+ t) p = true.
Proof.
  induction p as [|c p IH]; [apply HasPrefix_empty|].
  rewrite app_String. cbn [HasPrefix]. by rewrite decide_True.
Qed.

Lemma HasPrefix_inv s p :
  HasPrefix s p = true -> s = p +:+ sdrop (String.length p) s.
Proof.
  revert s. induction p as [|c p IH]; intros s H; [by rewrite sdrop_0|].
  destruct s as [|d s]; [done|]. cbn [HasPrefix] in H. case_decide; [subst|done].
  cbn [String.length sdrop]. rewrite app_String. f_equal. by apply IH.
Qed.

Lemma HasPrefix_len s p : HasPrefix s p = true -> len p <= len s.
Proof.
  intros H%HasPrefix_inv. rewrite H, len_app.
  pose proof (len_nonneg (sdrop (String.length p) s)). lia.
Qed.

(** A one-byte prefix is the first byte. *)
Lemma HasPrefix_char c d s : HasPrefix (String d s) (String c "") = bool_decide (c = d).
Proof. cbn [HasPrefix]. rewrite HasPrefix_empty. by case_decide; case_bool_decide. Qed.

Lemma TrimPrefix_app p t : TrimPrefix (p +:+ t) p = t.
Proof. unfold TrimPrefix. by rewrite HasPrefix_app, sdrop_app_len. Qed.

Lemma TrimPrefix_none s p : HasPrefix s p = false -> TrimPrefix s p = s.
Proof. unfold TrimPrefix. by intros ->. Qed.

(** ** [Index]: bounds and the first occurrence *)

Lemma Index_bounds s sep : -1 <= Index s sep <= len s.
Proof.
  induction s as [|c s IH]; cbn [Index].
  - destruct (HasPrefix "" sep); rewrite len_empty; lia.
  - destruct (HasPrefix (String c s) sep); rewrite len_String;
      [pose proof (len_nonneg s); lia|].
    destruct (Z.ltb_spec (Index s sep) 0); lia.
Qed.

Lemma Index_HasPrefix s sep :
  0 <= Index s sep -> HasPrefix (sdrop (Z.to_nat (Index s sep)) s) sep = true.
Proof.
  induction s as [|c s IH]; cbn [Index].
  - destruct (HasPrefix "" sep) eqn:E; [done | lia].
  - destruct (HasPrefix (String c s) sep) eqn:E; [done|].
    destruct (Z.ltb_spec (Index s sep) 0) as [?|Hi]; [lia|]. intros _.
    replace (Z.to_nat (1 + Index s sep)) with (S (Z.to_nat (Index s sep))) by lia.
    cbn [sdrop]. by apply IH.
Qed.

(** The instance found lies inside the string. *)
Lemma Index_end s sep : 0 <= Index s sep -> Index s sep + len sep <= len s.
Proof.
  intros H. pose proof (Index_HasPrefix s sep H) as Hp%HasPrefix_len.
  rewrite len_sdrop in Hp. pose proof (Index_bounds s sep). lia.
Qed.

(** ** One-byte separators

    The container code searches for [":"] and ["/"] only.  For a one-byte
    separator, an instance is an occurrence of the byte, and [Index] and
    [LastIndex] cut the string at its first and last occurrence. *)

Section OneByte.
Variable c : ascii.
Local Abbreviation sep := (String c "").

Lemma Index_char_cons d s :
  Index (String d s) sep =
    if decide (c = d) then 0 else if Index s sep <? 0 then -1 else 1 + Index s sep.
Proof.
  cbn [Index]. rewrite HasPrefix_char. by case_decide; case_bool_decide.
Qed.

Lemma Index_char_empty : Index "" sep = -1.
Proof. reflexivity. Qed.

Lemma Index_char_mem s : (0 <=? Index s sep) = mem c s.
Proof.
  induction s as [|d s IH]; [done|]. rewrite Index_char_cons. cbn [mem].
  case_decide; [done|]. rewrite <- IH.
  destruct (Z.ltb_spec (Index s sep) 0), (Z.leb_spec 0 (Index s sep)); lia.
Qed.

Lemma Index_char_none s : mem c s = false -> Index s sep = -1.
Proof.
  rewrite <- Index_char_mem. intros H%Z.leb_gt. pose proof (Index_bounds s sep). lia.
Qed.

Lemma Index_char_app a b : mem c a = false -> Index (a +:+ String c b) sep = len a.
Proof.
  induction a as [|d a IH]; intros H.
  - rewrite app_empty_l, Index_char_cons. by rewrite decide_True.
  - cbn [mem] in H. case_decide; [done|]. rewrite app_String, Index_char_cons, decide_False by done.
    rewrite IH by done. rewrite len_String. pose proof (len_nonneg a).
    destruct (Z.ltb_spec (len a) 0); lia.
Qed.

Lemma Index_char_split s :
  mem c s = true ->
  let i := Z.to_nat (Index s sep) in
  s = stake i s +:+ String c (sdrop (S i) s) /\ mem c (stake i s) = false.
Proof.
  induction s as [|d s IH]; [done|]. cbn [mem]. rewrite Index_char_cons.
  case_decide as Hd; [subst d; intros _; change (Z.to_nat 0) with 0%nat; by cbn|]. intros Hm.
  specialize (IH Hm). rewrite <- Index_char_mem in Hm. apply Z.leb_le in Hm.
  destruct (Z.ltb_spec (Index s sep) 0); [lia|].
  replace (Z.to_nat (1 + Index s sep)) with (S (Z.to_nat (Index s sep))) by lia.
  cbn [stake sdrop mem] in *. rewrite decide_False by done. destruct IH as [IH1 IH2].
  split; [|done]. rewrite app_String. by f_equal.
Qed.

Lemma LastIndex_char_cons d s :
  LastIndex (String d s) sep =
    if 0 <=? LastIndex s sep then 1 + LastIndex s sep else if decide (c = d) then 0 else -1.
Proof.
  cbn [LastIndex]. rewrite HasPrefix_char.
  destruct (0 <=? LastIndex s sep); [done|]. by case_decide; case_bool_decide.
Qed.

Lemma LastIndex_bounds s sp : -1 <= LastIndex s sp <= len s.
Proof.
  induction s as [|d s IH]; cbn [LastIndex].
  - destruct (HasPrefix "" sp); rewrite len_empty; lia.
  - rewrite len_String. destruct (Z.leb_spec 0 (LastIndex s sp)); [lia|].
    pose proof (len_nonneg s). destruct (HasPrefix (String d s) sp); lia.
Qed.

Lemma LastIndex_char_mem s : (0 <=? LastIndex s sep) = mem c s.
Proof.
  induction s as [|d s IH]; [done|]. rewrite LastIndex_char_cons. cbn [mem].
  rewrite <- IH. destruct (Z.leb_spec 0 (LastIndex s sep)).
  - case_decide; apply Z.leb_le; lia.
  - by case_decide.
Qed.

Lemma LastIndex_char_none s : mem c s = false -> LastIndex s sep = -1.
Proof.
  rewrite <- LastIndex_char_mem. intros H%Z.leb_gt. pose proof (LastIndex_bounds s sep). lia.
Qed.

Lemma LastIndex_char_app a b : mem c b = false -> LastIndex (a +:+ String c b) sep = len a.
Proof.
  intros Hb. induction a as [|d a IH].
  - rewrite app_empty_l, LastIndex_char_cons, (LastIndex_char_none b Hb).
    cbn. by rewrite decide_True.
  - rewrite app_String, LastIndex_char_cons, IH, len_String.
    pose proof (len_nonneg a). destruct (Z.leb_spec 0 (len a)); lia.
Qed.

Lemma LastIndex_char_split s :
  mem c s = true ->
  let j := Z.to_nat (LastIndex s sep) in
  s = stake j s +:+ String c (sdrop (S j) s) /\ mem c (sdrop (S j) s) = false.
Proof.
  induction s as [|d s IH]; [done|]. intros Hm. rewrite LastIndex_char_cons.
  pose proof (LastIndex_char_mem s) as Hs.
  destruct (Z.leb_spec 0 (LastIndex s sep)) as [Hi|Hi].
  - symmetry in Hs. destruct (IH Hs) as [IH1 IH2].
    replace (Z.to_nat (1 + LastIndex s sep)) with (S (Z.to_nat (LastIndex s sep))) by lia.
    cbn [stake sdrop]. split; [|done]. rewrite app_String. by f_equal.
  - cbn [mem] in Hm. rewrite <- Hs in Hm. case_decide; [subst d|lia].
    change (Z.to_nat 0) with 0%nat. split; [by cbn|]. cbn [sdrop].
    rewrite <- LastIndex_char_mem. lia.
Qed.

Lemma Split_head_char s :
  index0 (Split s sep) = Ok (if mem c s then stake (Z.to_nat (Index s sep)) s else s).
Proof.
  unfold Split. rewrite <- Index_char_mem.
  destruct s as [|d s]; [done|]. cbn [String.length Split_go].
  destruct (Z.ltb_spec (Index (String d s) sep) 0), (Z.leb_spec 0 (Index (String d s) sep));
    try lia; done.
Qed.

End OneByte.

Lemma Index_empty_sep sep : sep <> "" -> Index "" sep = -1.
Proof. by destruct sep. Qed.

Lemma Split_go_empty fuel sep : sep <> "" -> Split_go fuel "" sep = [""].
Proof. intros H. destruct fuel; [done|]. cbn [Split_go]. by rewrite Index_empty_sep. Qed.

Lemma Split_go_fuel fuel fuel' s sep :
  sep <> "" -> (String.length s <= fuel)%nat -> (String.length s <= fuel')%nat ->
  Split_go fuel s sep = Split_go fuel' s sep.
Proof.
  intros Hsep. revert fuel' s. induction fuel as [|fuel IH]; intros fuel' s Hf Hf'.
  - destruct s; [|cbn in Hf; lia]. by rewrite !Split_go_empty.
  - destruct fuel' as [|fuel'].
    { destruct s; [|cbn in Hf'; lia]. by rewrite !Split_go_empty. }
    cbn [Split_go]. destruct (Z.ltb_spec (Index s sep) 0); [done|]. f_equal.
    assert (0 < String.length sep)%nat by (destruct sep; [done | cbn; lia]).
    assert (0 < String.length s)%nat.
    { destruct s; [|cbn; lia]. rewrite Index_empty_sep in *; [lia | done]. }
    apply IH; rewrite length_sdrop; lia.
Qed.

Lemma Split_not_nil s sep : sep <> "" -> Split s sep <> [].
Proof.
  destruct sep as [|c sep]; [done|]. intros _. unfold Split.
  destruct (String.length s); cbn [Split_go]; [done|].
  by destruct (Index s (String c sep) <? 0).
Qed.

(** ** What [Split] returns

    [Split] loses nothing: the parts, put together with the separator
    between them, are the string.  For a one-byte separator no part holds
    the byte, and these two facts determine the parts. *)

Lemma sdrop_sdrop n m s : sdrop n (sdrop m s) = sdrop (m + n) s.
Proof.
  revert s. induction m as [|m IH]; intros s; [done|].
  destruct s as [|d s]; [by destruct n|]. apply IH.
Qed.

Lemma length_app_s s t :
  String.length (s +:+ t) = (String.length s + String.length t)%nat.
Proof. pose proof (len_app s t). unfold len in *. lia. Qed.

Lemma joined_cons x rest sep :
  rest <> [] -> joined (x :: rest) sep = x +:+ sep +:+ joined rest sep.
Proof. by destruct rest. Qed.

Lemma Split_go_not_nil fuel s sep : Split_go fuel s sep <> [].
Proof. destruct fuel; cbn [Split_go]; [done|]. by destruct (Index s sep <? 0). Qed.

(** The string is cut at the instance that [Index] finds. *)
Lemma Index_cut s sep :
  0 <= Index s sep ->
  s = stake (Z.to_nat (Index s sep)) s +:+ sep
      +:+ sdrop (Z.to_nat (Index s sep) + String.length sep) s.
Proof.
  intros Hp%Index_HasPrefix%HasPrefix_inv.
  by rewrite <- sdrop_sdrop, <- Hp, stake_sdrop.
Qed.

Lemma Split_go_joined fuel s sep : joined (Split_go fuel s sep) sep = s.
Proof.
  revert s. induction fuel as [|fuel IH]; intros s; cbn [Split_go]; [done|].
  destruct (Z.ltb_spec (Index s sep) 0) as [|Hi]; [done|].
  rewrite joined_cons, IH by apply Split_go_not_nil. symmetry. by apply Index_cut.
Qed.

Lemma explode_joined s : joined (explode s) "" = s.
Proof.
  induction s as [|d s IH]; [done|]. cbn [explode].
  destruct s as [|e s]; [done|]. by rewrite joined_cons, IH.
Qed.

Lemma Split_joined s sep : joined (Split s sep) sep = s.
Proof. destruct sep; [apply explode_joined | apply Split_go_joined]. Qed.

Section SplitOneByte.
Variable c : ascii.
Local Abbreviation sep := (String c "").

Lemma Split_go_free fuel s :
  (String.length s <= fuel)%nat ->
  Forall (fun p => mem c p = false) (Split_go fuel s sep).
Proof.
  revert s. induction fuel as [|fuel IH]; intros s Hf; cbn [Split_go].
  { destruct s; [by repeat constructor | cbn in Hf; lia]. }
  pose proof (Index_char_mem c s) as Hm.
  destruct (Z.ltb_spec (Index s sep) 0) as [|Hi], (Z.leb_spec 0 (Index s sep));
    try lia; [by repeat constructor|].
  destruct (Index_char_split c s) as [Hs Hfree]; [done|].
  constructor; [done|]. apply IH. rewrite length_sdrop.
  apply (f_equal String.length) in Hs. rewrite length_app_s in Hs. cbn in *. lia.
Qed.

Lemma Split_free s : Forall (fun p => mem c p = false) (Split s sep).
Proof. by apply Split_go_free. Qed.

(** The parts are determined by what they are joined to and by the byte
    they do not hold. *)
Lemma Split_unique parts :
  parts <> [] -> Forall (fun p => mem c p = false) parts ->
  Split (joined parts sep) sep = parts.
Proof.
  induction parts as [|p rest IH]; [done|]. intros _ [Hp Hrest]%Forall_cons.
  destruct rest as [|q rest].
  { unfold Split. cbn [joined]. destruct (String.length p) eqn:E; [done|].
    cbn [Split_go]. by rewrite Index_char_none. }
  rewrite joined_cons by done. unfold Split in *.
  set (t := joined (q :: rest) sep) in *. change (sep +:+ t) with (String c t).
  destruct (String.length (p +:+ String c t)) as [|n] eqn:E.
  { rewrite !length_app_s in E. cbn in E. lia. }
  cbn [Split_go]. rewrite Index_char_app by done.
  destruct (Z.ltb_spec (len p) 0) as [Hl|_]; [pose proof (len_nonneg p); lia|].
  unfold len. rewrite Nat2Z.id, stake_app_len. f_equal.
  replace (String.length p + String.length sep)%nat
    with (String.length (p +:+ sep)) by by rewrite length_app_s.
  change (String c t) with (sep +:+ t).
  rewrite <- app_assoc_s, sdrop_app_len, <- (IH ltac:(done) Hrest).
  rewrite length_app_s in E. cbn [String.length] in E.
  apply Split_go_fuel; [done|lia..].
Qed.

(** [Split] for a one-byte separator, by what it returns. *)
Lemma Split_spec s parts :
  Split s sep = parts <->
  parts <> [] /\ Forall (fun p => mem c p = false) parts /\ joined parts sep = s.
Proof.
  split.
  - intros <-. split_and!; [by apply Split_not_nil | apply Split_free | apply Split_joined].
  - intros (Hne & Hfree & <-). by apply Split_unique.
Qed.

End SplitOneByte.
