(* ===== verification/DockerTypes.v ===== *)
(** * DockerTypes: the Docker client's structs and the heap they live in

    [src/container/container.go] reads and writes values of
    [github.com/samalba/dockerclient]: [ContainerInfo], [ContainerConfig],
    [HostConfig], [ImageInfo] and [State].  Each struct is a module with a
    record [t] that keeps the fields the code touches, under the names Go
    gives them.  [*ContainerConfig] and [*HostConfig] are written through, so
    those objects are stored in a [heap] and a pointer is an [option loc]
    ([None] is nil).  [*ContainerInfo], [*ImageInfo] and [*State] are only
    read: a pointer to one is an [option] of the value. *)

From S2P Require Import Prelude.
From stdpp Require Import strings gmap.

(** Heap locations. *)
Abbreviation loc := positive.

(** [val, ok := m[k]]: the zero value and [false] when [k] is not in [m]
    (also when [m] is the nil map). *)
Definition commaOk (o : option string) : string * bool :=
  match o with
  | Some v => (v, true)
  | None => ("", false)
  end.

Module PortBinding.
Record t : Type := mk { HostIp : string; HostPort : string }.
End PortBinding.

Module ContainerConfig.
Record t : Type := mk {
  User : string;
  ExposedPorts : gset string;
  Env : list string;
  Cmd : list string;
  Image : string;
  Volumes : gset string;
  WorkingDir : string;
  Entrypoint : list string;
  Labels : gmap string string;
}.

(** Assignments to one field, [config.F = v]. *)
Definition set_User (v : string) (c : t) : t :=
  mk v (ExposedPorts c) (Env c) (Cmd c) (Image c) (Volumes c) (WorkingDir c) (Entrypoint c) (Labels c).
Definition set_ExposedPorts (v : gset string) (c : t) : t :=
  mk (User c) v (Env c) (Cmd c) (Image c) (Volumes c) (WorkingDir c) (Entrypoint c) (Labels c).
Definition set_Env (v : list string) (c : t) : t :=
  mk (User c) (ExposedPorts c) v (Cmd c) (Image c) (Volumes c) (WorkingDir c) (Entrypoint c) (Labels c).
Definition set_Cmd (v : list string) (c : t) : t :=
  mk (User c) (ExposedPorts c) (Env c) v (Image c) (Volumes c) (WorkingDir c) (Entrypoint c) (Labels c).
Definition set_Image (v : string) (c : t) : t :=
  mk (User c) (ExposedPorts c) (Env c) (Cmd c) v (Volumes c) (WorkingDir c) (Entrypoint c) (Labels c).
Definition set_Volumes (v : gset string) (c : t) : t :=
  mk (User c) (ExposedPorts c) (Env c) (Cmd c) (Image c) v (WorkingDir c) (Entrypoint c) (Labels c).
Definition set_WorkingDir (v : string) (c : t) : t :=
  mk (User c) (ExposedPorts c) (Env c) (Cmd c) (Image c) (Volumes c) v (Entrypoint c) (Labels c).
Definition set_Entrypoint (v : list string) (c : t) : t :=
  mk (User c) (ExposedPorts c) (Env c) (Cmd c) (Image c) (Volumes c) (WorkingDir c) v (Labels c).
Definition set_Labels (v : gmap string string) (c : t) : t :=
  mk (User c) (ExposedPorts c) (Env c) (Cmd c) (Image c) (Volumes c) (WorkingDir c) (Entrypoint c) v.

(** The zero value of the struct. *)
Definition zero : t := mk "" ∅ [] [] "" ∅ "" [] ∅.
End ContainerConfig.

Module HostConfig.
Record t : Type := mk {
  Links : list string;
  PortBindings : gmap string (list PortBinding.t);
}.

Definition set_Links (v : list string) (h : t) : t := mk v (PortBindings h).

Definition zero : t := mk [] ∅.
End HostConfig.

Module State.
(** A [State] as the string its [StateString] method returns. *)
Record t : Type := mk { StateString : string }.
End State.

Module ContainerInfo.
Record t : Type := mk {
  Id : string;
  Name : string;
  Config : option loc;
  HostConfig : option loc;
  State : option State.t;
}.
End ContainerInfo.

Module ImageInfo.
Record t : Type := mk {
  Id : string;
  Config : option loc;
}.
End ImageInfo.

#[export] Instance PortBinding_eq_dec : EqDecision PortBinding.t.
Proof. solve_decision. Defined.
#[export] Instance ContainerConfig_eq_dec : EqDecision ContainerConfig.t.
Proof. solve_decision. Defined.
#[export] Instance HostConfig_eq_dec : EqDecision HostConfig.t.
Proof. solve_decision. Defined.
#[export] Instance State_eq_dec : EqDecision State.t.
Proof. solve_decision. Defined.
#[export] Instance ContainerInfo_eq_dec : EqDecision ContainerInfo.t.
Proof. solve_decision. Defined.
#[export] Instance ImageInfo_eq_dec : EqDecision ImageInfo.t.
Proof. solve_decision. Defined.

(** ** The heap *)

(** The objects reachable through [*ContainerConfig] and [*HostConfig]. *)
Record heap : Type := mkHeap {
  configs : gmap loc ContainerConfig.t;
  hostConfigs : gmap loc HostConfig.t;
}.

#[export] Instance heap_eq_dec : EqDecision heap.
Proof. solve_decision. Defined.

Definition set_configs (m : gmap loc ContainerConfig.t) (h : heap) : heap :=
  mkHeap m (hostConfigs h).
Definition set_hostConfigs (m : gmap loc HostConfig.t) (h : heap) : heap :=
  mkHeap (configs h) m.

(** The heap with the object at [l] replaced. *)
Definition upd_config (l : loc) (v : ContainerConfig.t) (h : heap) : heap :=
  set_configs (<[l := v]> (configs h)) h.
Definition upd_hostConfig (l : loc) (v : HostConfig.t) (h : heap) : heap :=
  set_hostConfigs (<[l := v]> (hostConfigs h)) h.

(** [*p] for a pointer to an object that is only read. *)
Definition deref {S A} (p : option A) : prog S A :=
  match p with
  | Some a => ret a
  | None => raise NilDereference
  end.

(** Reading a field, [p.F], of a [*ContainerConfig]. *)
Definition loadConfig (p : option loc) : prog heap ContainerConfig.t :=
  fun h =>
    match p with
    | None => (Panic NilDereference, h)
    | Some l =>
        match configs h !! l with
        | Some c => (Ok c, h)
        | None => (Panic DanglingPointer, h)
        end
    end.

(** Writing a field, [p.F = v], of a [*ContainerConfig]: [f] is the
    assignment. *)
Definition storeConfig (p : option loc) (f : ContainerConfig.t -> ContainerConfig.t)
  : prog heap unit :=
  fun h =>
    match p with
    | None => (Panic NilDereference, h)
    | Some l =>
        match configs h !! l with
        | Some c => (Ok tt, upd_config l (f c) h)
        | None => (Panic DanglingPointer, h)
        end
    end.

Definition loadHostConfig (p : option loc) : prog heap HostConfig.t :=
  fun h =>
    match p with
    | None => (Panic NilDereference, h)
    | Some l =>
        match hostConfigs h !! l with
        | Some c => (Ok c, h)
        | None => (Panic DanglingPointer, h)
        end
    end.

Definition storeHostConfig (p : option loc) (f : HostConfig.t -> HostConfig.t)
  : prog heap unit :=
  fun h =>
    match p with
    | None => (Panic NilDereference, h)
    | Some l =>
        match hostConfigs h !! l with
        | Some c => (Ok tt, upd_hostConfig l (f c) h)
        | None => (Panic DanglingPointer, h)
        end
    end.

(** A pointer is valid in a heap when it is nil or its object is there. *)
Definition valid_config_ptr (h : heap) (p : option loc) : Prop :=
  match p with Some l => is_Some (configs h !! l) | None => True end.
Definition valid_hostConfig_ptr (h : heap) (p : option loc) : Prop :=
  match p with Some l => is_Some (hostConfigs h !! l) | None => True end.

#[export] Instance valid_config_ptr_dec h p : Decision (valid_config_ptr h p).
Proof. destruct p; apply _. Defined.
#[export] Instance valid_hostConfig_ptr_dec h p : Decision (valid_hostConfig_ptr h p).
Proof. destruct p; apply _. Defined.

(** Two heaps hold objects at the same locations. *)
Definition same_shape (h h' : heap) : Prop :=
  dom (configs h) = dom (configs h') /\ dom (hostConfigs h) = dom (hostConfigs h').

(** ** Running loads and stores *)

Section HeapRules.
Implicit Types (h : heap) (l : loc).

Lemma deref_Some {S A} (a : A) (s : S) : deref (Some a) s = (Ok a, s).
Proof. reflexivity. Qed.

Lemma deref_None {S A} (s : S) : deref (@None A) s = (Panic NilDereference, s).
Proof. reflexivity. Qed.

Lemma deref_eq {S A} (q : option A) (a : A) (s : S) :
  q = Some a -> deref q s = (Ok a, s).
Proof. by intros ->. Qed.

Lemma deref_nil {S A} (q : option A) (s : S) :
  q = None -> deref q s = (Panic NilDereference, s).
Proof. by intros ->. Qed.

Lemma loadConfig_ok h l c :
  configs h !! l = Some c -> loadConfig (Some l) h = (Ok c, h).
Proof. unfold loadConfig. by intros ->. Qed.

Lemma loadConfig_nil h : loadConfig None h = (Panic NilDereference, h).
Proof. reflexivity. Qed.

Lemma storeConfig_ok h l c f :
  configs h !! l = Some c ->
  storeConfig (Some l) f h = (Ok tt, upd_config l (f c) h).
Proof. unfold storeConfig. by intros ->. Qed.

Lemma loadHostConfig_ok h l c :
  hostConfigs h !! l = Some c -> loadHostConfig (Some l) h = (Ok c, h).
Proof. unfold loadHostConfig. by intros ->. Qed.

Lemma loadHostConfig_nil h : loadHostConfig None h = (Panic NilDereference, h).
Proof. reflexivity. Qed.

Lemma storeHostConfig_ok h l c f :
  hostConfigs h !! l = Some c ->
  storeHostConfig (Some l) f h = (Ok tt, upd_hostConfig l (f c) h).
Proof. unfold storeHostConfig. by intros ->. Qed.

(** Replacing objects. *)

Lemma configs_upd_config l v h : configs (upd_config l v h) = <[l := v]> (configs h).
Proof. reflexivity. Qed.

Lemma hostConfigs_upd_config l v h : hostConfigs (upd_config l v h) = hostConfigs h.
Proof. reflexivity. Qed.

Lemma configs_upd_hostConfig l v h : configs (upd_hostConfig l v h) = configs h.
Proof. reflexivity. Qed.

Lemma hostConfigs_upd_hostConfig l v h :
  hostConfigs (upd_hostConfig l v h) = <[l := v]> (hostConfigs h).
Proof. reflexivity. Qed.

Lemma upd_config_id l v h : configs h !! l = Some v -> upd_config l v h = h.
Proof. intros H. destruct h as [cs hs]. unfold upd_config, set_configs. cbn in *. by rewrite insert_id. Qed.

Lemma upd_hostConfig_id l v h : hostConfigs h !! l = Some v -> upd_hostConfig l v h = h.
Proof. intros H. destruct h as [cs hs]. unfold upd_hostConfig, set_hostConfigs. cbn in *. by rewrite insert_id. Qed.

Lemma upd_config_upd l v w h : upd_config l v (upd_config l w h) = upd_config l v h.
Proof. unfold upd_config, set_configs. cbn. by rewrite insert_insert_eq. Qed.

Lemma upd_hostConfig_upd l v w h :
  upd_hostConfig l v (upd_hostConfig l w h) = upd_hostConfig l v h.
Proof. unfold upd_hostConfig, set_hostConfigs. cbn. by rewrite insert_insert_eq. Qed.

Lemma upd_config_hostConfig l l' v w h :
  upd_config l v (upd_hostConfig l' w h) = upd_hostConfig l' w (upd_config l v h).
Proof. reflexivity. Qed.

(** Loads and stores on a heap whose object at [l] is known. *)

Lemma loadConfig_upd l v h : loadConfig (Some l) (upd_config l v h) = (Ok v, upd_config l v h).
Proof. apply loadConfig_ok. cbn. apply lookup_insert_eq. Qed.

Lemma loadConfig_upd_ne l l' v c h :
  l <> l' -> configs h !! l' = Some c ->
  loadConfig (Some l') (upd_config l v h) = (Ok c, upd_config l v h).
Proof. intros ? H. apply loadConfig_ok. cbn. by rewrite lookup_insert_ne. Qed.

Lemma storeConfig_upd l v f h :
  storeConfig (Some l) f (upd_config l v h) = (Ok tt, upd_config l (f v) h).
Proof.
  rewrite (storeConfig_ok _ _ v) by (cbn; apply lookup_insert_eq). by rewrite upd_config_upd.
Qed.

Lemma loadHostConfig_upd_config l l' v c h :
  hostConfigs h !! l' = Some c ->
  loadHostConfig (Some l') (upd_config l v h) = (Ok c, upd_config l v h).
Proof. intros H. by apply loadHostConfig_ok. Qed.

Lemma loadHostConfig_upd l v h :
  loadHostConfig (Some l) (upd_hostConfig l v h) = (Ok v, upd_hostConfig l v h).
Proof. apply loadHostConfig_ok. cbn. apply lookup_insert_eq. Qed.

Lemma storeHostConfig_upd l v f h :
  storeHostConfig (Some l) f (upd_hostConfig l v h) = (Ok tt, upd_hostConfig l (f v) h).
Proof.
  rewrite (storeHostConfig_ok _ _ v) by (cbn; apply lookup_insert_eq).
  by rewrite upd_hostConfig_upd.
Qed.

(** A load gives the object behind the pointer, or panics and leaves the
    heap: the pointer is nil or nothing is behind it. *)
Lemma loadConfig_cases p h :
  (exists l c, p = Some l /\ configs h !! l = Some c)
  \/ (exists e, loadConfig p h = (Panic e, h)).
Proof. destruct p as [l|]; cbn; [destruct (configs h !! l) eqn:E|]; eauto. Qed.

Lemma loadHostConfig_cases p h :
  (exists l c, p = Some l /\ hostConfigs h !! l = Some c)
  \/ (exists e, loadHostConfig p h = (Panic e, h)).
Proof. destruct p as [l|]; cbn; [destruct (hostConfigs h !! l) eqn:E|]; eauto. Qed.

(** A write to a configuration does not repair a pointer to a host
    configuration. *)
Lemma loadHostConfig_panic_upd_config p l v h e :
  loadHostConfig p h = (Panic e, h) ->
  loadHostConfig p (upd_config l v h) = (Panic e, upd_config l v h).
Proof.
  destruct p as [l'|]; cbn; [|by intros [= <-]].
  destruct (hostConfigs h !! l'); [done | by intros [= <-]].
Qed.

(** On a valid pointer a load never reports a dangling location. *)
Lemma loadConfig_valid h p :
  valid_config_ptr h p -> fst (loadConfig p h) <> Panic DanglingPointer.
Proof. destruct p as [l|]; [intros [c Hc]; by rewrite (loadConfig_ok _ _ c)|done]. Qed.

(** Stores keep the shape of the heap. *)
Lemma storeConfig_shape h p f r h' :
  storeConfig p f h = (r, h') -> same_shape h h'.
Proof.
  unfold storeConfig. destruct p as [l|]; [|by intros [= _ <-]].
  destruct (configs h !! l) as [c|] eqn:E; intros [= _ <-]; [|done].
  split; [|done]. cbn. rewrite dom_insert_L. apply elem_of_dom_2 in E. set_solver.
Qed.

Lemma storeHostConfig_shape h p f r h' :
  storeHostConfig p f h = (r, h') -> same_shape h h'.
Proof.
  unfold storeHostConfig. destruct p as [l|]; [|by intros [= _ <-]].
  destruct (hostConfigs h !! l) as [c|] eqn:E; intros [= _ <-]; [|done].
  split; [done|]. cbn. rewrite dom_insert_L. apply elem_of_dom_2 in E. set_solver.
Qed.

End HeapRules.

#[export] Hint Rewrite @deref_Some @deref_None loadConfig_nil loadHostConfig_nil
  loadConfig_upd storeConfig_upd loadHostConfig_upd storeHostConfig_upd
  upd_config_upd upd_hostConfig_upd : go.
#[export] Hint Rewrite loadConfig_upd_ne loadHostConfig_upd_config
  using (done || eassumption) : go.

#[export] Instance same_shape_equiv : Equivalence same_shape.
Proof.
  split; [by intros h | by intros h h' [??] |].
  intros h1 h2 h3 [??] [??]. split; congruence.
Qed.

#[export] Instance valid_config_ptr_proper :
  Proper (same_shape ==> eq ==> iff) valid_config_ptr.
Proof.
  intros h h' [Hc _] p ? <-. destruct p as [l|]; [|done]. cbn.
  by rewrite <- !elem_of_dom, Hc.
Qed.

#[export] Instance valid_hostConfig_ptr_proper :
  Proper (same_shape ==> eq ==> iff) valid_hostConfig_ptr.
Proof.
  intros h h' [_ Hc] p ? <-. destruct p as [l|]; [|done]. cbn.
  by rewrite <- !elem_of_dom, Hc.
Qed.
