(* ===== verification/Util.v ===== *)
(** * Util: the comparison and subtraction helpers of the container package

    [sliceEqual], [sliceSubtract], [stringMapSubtract] and [structMapSubtract]
    are called by [runtimeConfig] to separate what was overridden at run time
    from what the image already says.  Each is given with its loop, and proved
    equal to its specification: equality of lists, the filter of a list, of a
    map, and the difference of sets.  Go ranges over a map in an unspecified
    order; the folds below run in the order of the map's representation, and
    the specifications show that the order does not matter. *)

From S2P Require Import Prelude.
From stdpp Require Import strings gmap.

(** ** The functions *)

(** The loop of [sliceEqual]: [s1[i] != s2[i]] returns false. *)
Fixpoint sliceEqual_loop (s1 s2 : list string) : bool :=
  match s1, s2 with
  | x :: s1', y :: s2' => if decide (x <> y) then false else sliceEqual_loop s1' s2'
  | _, _ => true
  end.

(** [sliceEqual(s1, s2)]: same length and the same element at every index. *)
Definition sliceEqual (s1 s2 : list string) : bool :=
  if decide (length s1 <> length s2) then false else sliceEqual_loop s1 s2.

(** The inner loop of [sliceSubtract]: is [e1] one of [a2]? *)
Fixpoint found (e1 : string) (a2 : list string) : bool :=
  match a2 with
  | [] => false
  | e2 :: a2' => if decide (e1 = e2) then true else found e1 a2'
  end.

(** [sliceSubtract(a1, a2)]: the elements of [a1], in order, that are not
    elements of [a2]. *)
Fixpoint sliceSubtract (a1 a2 : list string) : list string :=
  match a1 with
  | [] => []
  | e1 :: a1' =>
      if found e1 a2 then sliceSubtract a1' a2 else e1 :: sliceSubtract a1' a2
  end.

(** One round of the loop of [stringMapSubtract] on the entry [k1, v1]. *)
Definition stringMapSubtract_step (m2 : gmap string string)
    (k1 v1 : string) (m : gmap string string) : gmap string string :=
  match m2 !! k1 with
  | Some v2 => if decide (v2 <> v1) then <[k1 := v1]> m else m
  | None => <[k1 := v1]> m
  end.

(** [stringMapSubtract(m1, m2)]: the entries of [m1] that [m2] does not hold
    with the same value. *)
Definition stringMapSubtract (m1 m2 : gmap string string) : gmap string string :=
  map_fold (stringMapSubtract_step m2) ∅ m1.

(** [structMapSubtract(m1, m2)]: the keys of [m1] that are not keys of [m2]. *)
Definition structMapSubtract (m1 m2 : gset string) : gset string :=
  set_fold (fun k1 m => if decide (k1 ∈ m2) then m else {[k1]} ∪ m) ∅ m1.

(** ** Specifications *)

Lemma sliceEqual_loop_eq s1 s2 :
  length s1 = length s2 -> sliceEqual_loop s1 s2 = bool_decide (s1 = s2).
Proof.
  revert s2. induction s1 as [|x s1 IH]; intros [|y s2] Hlen; try done.
  cbn [sliceEqual_loop]. case_decide as Hxy.
  - symmetry. apply bool_decide_eq_false. congruence.
  - subst y. rewrite IH by (cbn in Hlen; lia).
    apply bool_decide_ext. naive_solver.
Qed.

(** [sliceEqual] decides equality of lists. *)
Lemma sliceEqual_eq s1 s2 : sliceEqual s1 s2 = bool_decide (s1 = s2).
Proof.
  unfold sliceEqual. case_decide as Hlen.
  - symmetry. apply bool_decide_eq_false. congruence.
  - by apply sliceEqual_loop_eq.
Qed.

Lemma sliceEqual_refl s : sliceEqual s s = true.
Proof. rewrite sliceEqual_eq. by apply bool_decide_eq_true. Qed.

Lemma found_elem_of e a : found e a = bool_decide (e ∈ a).
Proof.
  induction a as [|x a IH]; cbn [found].
  - symmetry. apply bool_decide_eq_false. apply not_elem_of_nil.
  - destruct (decide (e = x)) as [->|Hne].
    + symmetry. apply bool_decide_eq_true. left.
    + rewrite IH. apply bool_decide_ext. rewrite elem_of_cons. naive_solver.
Qed.

(** [sliceSubtract] is a filter. *)
Lemma sliceSubtract_filter a1 a2 : sliceSubtract a1 a2 = filter (.∉ a2) a1.
Proof.
  induction a1 as [|e a1 IH]; [done|]. cbn [sliceSubtract].
  rewrite found_elem_of, filter_cons, IH. by case_bool_decide; case_decide.
Qed.

Lemma elem_of_sliceSubtract e a1 a2 :
  e ∈ sliceSubtract a1 a2 <-> e ∈ a1 /\ e ∉ a2.
Proof. rewrite sliceSubtract_filter, list_elem_of_filter. tauto. Qed.

(** Only the set of subtracted elements matters, not their order or number. *)
Lemma sliceSubtract_ext a1 a2 a2' :
  (forall e, e ∈ a2 <-> e ∈ a2') -> sliceSubtract a1 a2 = sliceSubtract a1 a2'.
Proof.
  intros H. rewrite !sliceSubtract_filter. apply list_filter_iff. intros e. by rewrite H.
Qed.

#[export] Instance sliceSubtract_Permutation :
  Proper ((=) ==> (≡ₚ) ==> (=)) sliceSubtract.
Proof.
  intros a1 ? <- a2 a2' Hp. apply sliceSubtract_ext. intros e. by rewrite Hp.
Qed.

Lemma sliceSubtract_self a : sliceSubtract a a = [].
Proof.
  enough (forall b, (forall e, e ∈ a -> e ∈ b) -> sliceSubtract a b = []) by eauto.
  intros b Hb. induction a as [|e a IH]; [done|]. cbn [sliceSubtract].
  rewrite found_elem_of, bool_decide_eq_true_2 by (apply Hb; left).
  apply IH. intros e' He'. apply Hb. by right.
Qed.

Lemma sliceSubtract_nil_r a : sliceSubtract a [] = a.
Proof. induction a as [|e a IH]; [done|]. cbn. by rewrite IH. Qed.

Lemma sliceSubtract_idemp a1 a2 :
  sliceSubtract (sliceSubtract a1 a2) a2 = sliceSubtract a1 a2.
Proof. rewrite !sliceSubtract_filter. apply list_filter_filter_l. naive_solver. Qed.

(** [stringMapSubtract] keeps exactly the entries of [m1] that differ from
    [m2], whatever the order in which the loop visits them. *)
Lemma lookup_stringMapSubtract m1 m2 k :
  stringMapSubtract m1 m2 !! k =
    match m1 !! k with
    | Some v => if decide (m2 !! k = Some v) then None else Some v
    | None => None
    end.
Proof.
  unfold stringMapSubtract. revert k.
  apply (map_fold_weak_ind (fun r m => forall k, r !! k = match m !! k with
    | Some v => if decide (m2 !! k = Some v) then None else Some v
    | None => None end)); [done|].
  intros i x m r Hi IH k. unfold stringMapSubtract_step.
  destruct (decide (i = k)) as [->|Hne].
  - rewrite lookup_insert_eq. specialize (IH k). rewrite Hi in IH.
    destruct (m2 !! k) as [v2|] eqn:E2; repeat case_decide;
      simplify_eq; rewrite ?lookup_insert_eq; done.
  - rewrite (lookup_insert_ne m) by done. rewrite <- IH.
    destruct (m2 !! i) as [v2|]; repeat case_decide; by rewrite ?lookup_insert_ne.
Qed.

(** As a filter of the map. *)
Lemma stringMapSubtract_filter m1 m2 :
  stringMapSubtract m1 m2 = filter (fun kv => m2 !! kv.1 <> Some kv.2) m1.
Proof.
  apply map_eq. intros k. rewrite lookup_stringMapSubtract, map_lookup_filter.
  destruct (m1 !! k) as [v|]; [|done]. cbn. case_decide.
  - by rewrite option_guard_False by naive_solver.
  - by rewrite option_guard_True.
Qed.

Lemma stringMapSubtract_self m : stringMapSubtract m m = ∅.
Proof.
  apply map_eq. intros k. rewrite lookup_stringMapSubtract, lookup_empty.
  destruct (m !! k); [by rewrite decide_True | done].
Qed.

Lemma stringMapSubtract_empty_r m : stringMapSubtract m ∅ = m.
Proof.
  apply map_eq. intros k. rewrite lookup_stringMapSubtract, lookup_empty.
  by destruct (m !! k).
Qed.

Lemma stringMapSubtract_idemp m1 m2 :
  stringMapSubtract (stringMapSubtract m1 m2) m2 = stringMapSubtract m1 m2.
Proof.
  apply map_eq. intros k. rewrite !lookup_stringMapSubtract.
  destruct (m1 !! k) as [v|]; [|done]. case_decide; [done|]. by rewrite decide_False.
Qed.

(** [structMapSubtract] is the difference of sets. *)
Lemma structMapSubtract_difference m1 m2 : structMapSubtract m1 m2 = m1 ∖ m2.
Proof.
  unfold structMapSubtract.
  apply (set_fold_ind_L (fun r X => r = X ∖ m2)); [set_solver|].
  intros k X r _ ->. case_decide; set_solver.
Qed.

Lemma structMapSubtract_self m : structMapSubtract m m = ∅.
Proof. rewrite structMapSubtract_difference. set_solver. Qed.

#[export] Hint Rewrite sliceEqual_eq structMapSubtract_difference : go.
