(* ===== verification/Container.v ===== *)
(** * Container: the model of [src/container/container.go]

    A [Container] pairs the metadata of a Docker container with that of its
    image.  Its methods read the metadata through pointers; [runtimeConfig]
    and [hostConfig] also write through them, so every method is a program
    over the [heap] of [DockerTypes].  A method panics where the Go code
    dereferences a nil pointer or slices a string out of range, and the heap
    it leaves then holds the writes made before the panic.

    Definitions come first, in the order of the source; then the rules that
    run a method on a heap, the pure specifications, and the theorems.
    [wf_container] (no pointer leads nowhere) and [complete] (nor is any
    nil) are the two conditions on a container; both are decidable, and
    [runtimeConfig] returns exactly on the complete containers. *)

From S2P Require Import Prelude GoStrings DockerTypes Util.
From stdpp Require Import strings gmap.
From Stdlib Require Import Ascii.

Local Open Scope go_scope.

(** ** Labels (container.go, lines 11-17) *)

Definition LabelTugbot : string := "gaiadocker.tugbot".
Definition LabelTest : string := "tugbot.test".
Definition LabelCreatedFrom : string := "tugbot.created.from".
Definition LabelStopSignal : string := "tugbot.stop-signal".
Definition LabelZodiac : string := "tugbot.zodiac.original-image".

(** ** The container (lines 19-34) *)

Record Container : Type := mkContainer {
  Stale : bool;
  containerInfo : option ContainerInfo.t;
  imageInfo : option ImageInfo.t;
}.

Definition NewContainer (containerInfo : option ContainerInfo.t)
    (imageInfo : option ImageInfo.t) : Container :=
  {| Stale := false; containerInfo := containerInfo; imageInfo := imageInfo |}.

(** ** Accessors (lines 36-101) *)

(** [c.containerInfo.Config], dereferenced: the configuration object. *)
Definition Config_of (c : Container) : prog heap ContainerConfig.t :=
  ci <- deref (containerInfo c) ;;
  loadConfig (ContainerInfo.Config ci).

Definition ID (c : Container) : prog heap string :=
  ci <- deref (containerInfo c) ;;
  ret (ContainerInfo.Id ci).

Definition Name (c : Container) : prog heap string :=
  ci <- deref (containerInfo c) ;;
  ret (TrimPrefix (ContainerInfo.Name ci) "/").

Definition ImageID (c : Container) : prog heap string :=
  ii <- deref (imageInfo c) ;;
  ret (ImageInfo.Id ii).

Definition ImageName (c : Container) : prog heap string :=
  config <- Config_of c ;;
  let '(imageName, ok) := commaOk (ContainerConfig.Labels config !! LabelZodiac) in
  imageName <- (if negb ok
                then config <- Config_of c ;; ret (ContainerConfig.Image config)
                else ret imageName) ;;
  let imageName :=
    if negb (Contains imageName ":") then Sprintf_latest imageName else imageName in
  ret imageName.

(** The loop of [Links]: the name of a link is what precedes its first
    [":"]; [links] is the slice built so far. *)
Fixpoint Links_loop (hostLinks links : list string) : result (list string) :=
  match hostLinks with
  | [] => Ok links
  | link :: rest =>
      match index0 (Split link ":") with
      | Ok name => Links_loop rest (links ++ [name])
      | Panic p => Panic p
      end
  end.

Definition Links (c : Container) : prog heap (list string) :=
  match containerInfo c with
  | Some ci =>
      match ContainerInfo.HostConfig ci with
      | Some _ =>
          hc <- loadHostConfig (ContainerInfo.HostConfig ci) ;;
          lift (Links_loop (HostConfig.Links hc) [])
      | None => ret []
      end
  | None => ret []
  end.

Definition IsTugbot (c : Container) : prog heap bool :=
  config <- Config_of c ;;
  let '(val, ok) := commaOk (ContainerConfig.Labels config !! LabelTugbot) in
  ret (ok && bool_decide (val = "true")).

Definition StopSignal (c : Container) : prog heap string :=
  config <- Config_of c ;;
  let '(val, ok) := commaOk (ContainerConfig.Labels config !! LabelStopSignal) in
  if ok then ret val else ret "".

(** ** [runtimeConfig] (lines 114-147) *)

(** [config.ExposedPorts[p] = struct{}{}]. *)
Definition exposePort (config : option loc) (p : string) : prog heap unit :=
  storeConfig config
    (fun cfg => ContainerConfig.set_ExposedPorts ({[p]} ∪ ContainerConfig.ExposedPorts cfg) cfg).

Definition runtimeConfig (c : Container) : prog heap (option loc) :=
  ci <- deref (containerInfo c) ;;
  let config := ContainerInfo.Config ci in
  ii <- deref (imageInfo c) ;;
  let imageConfig := ImageInfo.Config ii in

  cfg <- loadConfig config ;; img <- loadConfig imageConfig ;;
  when (bool_decide (ContainerConfig.WorkingDir cfg = ContainerConfig.WorkingDir img))
    (storeConfig config (ContainerConfig.set_WorkingDir "")) ;;

  cfg <- loadConfig config ;; img <- loadConfig imageConfig ;;
  when (bool_decide (ContainerConfig.User cfg = ContainerConfig.User img))
    (storeConfig config (ContainerConfig.set_User "")) ;;

  cfg <- loadConfig config ;; img <- loadConfig imageConfig ;;
  when (sliceEqual (ContainerConfig.Cmd cfg) (ContainerConfig.Cmd img))
    (storeConfig config (ContainerConfig.set_Cmd [])) ;;

  cfg <- loadConfig config ;; img <- loadConfig imageConfig ;;
  when (sliceEqual (ContainerConfig.Entrypoint cfg) (ContainerConfig.Entrypoint img))
    (storeConfig config (ContainerConfig.set_Entrypoint [])) ;;

  cfg <- loadConfig config ;; img <- loadConfig imageConfig ;;
  storeConfig config (ContainerConfig.set_Env
    (sliceSubtract (ContainerConfig.Env cfg) (ContainerConfig.Env img))) ;;

  cfg <- loadConfig config ;; img <- loadConfig imageConfig ;;
  storeConfig config (ContainerConfig.set_Labels
    (stringMapSubtract (ContainerConfig.Labels cfg) (ContainerConfig.Labels img))) ;;

  cfg <- loadConfig config ;; img <- loadConfig imageConfig ;;
  storeConfig config (ContainerConfig.set_Volumes
    (structMapSubtract (ContainerConfig.Volumes cfg) (ContainerConfig.Volumes img))) ;;

  cfg <- loadConfig config ;; img <- loadConfig imageConfig ;;
  storeConfig config (ContainerConfig.set_ExposedPorts
    (structMapSubtract (ContainerConfig.ExposedPorts cfg) (ContainerConfig.ExposedPorts img))) ;;
  ci <- deref (containerInfo c) ;;
  hc <- loadHostConfig (ContainerInfo.HostConfig ci) ;;
  forEach (elements (dom (HostConfig.PortBindings hc))) (exposePort config) ;;

  imageName <- ImageName c ;;
  storeConfig config (ContainerConfig.set_Image imageName) ;;
  ret config.

(** ** [hostConfig] (lines 151-162) *)

(** Lines 155-158: the name is what precedes the first [":"], the alias
    what starts at the last ["/"]; either slice panics when the separator
    does not occur ([Index] and [LastIndex] are then [-1]). *)
Definition rewriteLink (link : string) : result string :=
  match slice link 0 (Index link ":") with
  | Ok name =>
      match sliceFrom link (LastIndex link "/") with
      | Ok alias => Ok (Sprintf_pair name alias)
      | Panic p => Panic p
      end
  | Panic p => Panic p
  end.

(** The body of the loop for index [i]: [link] is [hostConfig.Links[i]] as
    it is now; the rewritten link is stored at the same index. *)
Definition hostConfig_body (hostConfig : option loc) (i : nat) : prog heap unit :=
  hc <- loadHostConfig hostConfig ;;
  link <- lift (index (HostConfig.Links hc) i) ;;
  link' <- lift (rewriteLink link) ;;
  storeHostConfig hostConfig
    (fun hc => HostConfig.set_Links (<[i := link']> (HostConfig.Links hc)) hc).

Definition hostConfig (c : Container) : prog heap (option loc) :=
  ci <- deref (containerInfo c) ;;
  let hostConfig := ContainerInfo.HostConfig ci in
  hc <- loadHostConfig hostConfig ;;
  forEach (seq 0 (length (HostConfig.Links hc))) (hostConfig_body hostConfig) ;;
  ret hostConfig.

(** ** [IsTugbotCandidate] (lines 167-178) *)

Definition IsTugbotCandidate (c : Container) : prog heap bool :=
  config <- Config_of c ;;
  let '(val, ok) := commaOk (ContainerConfig.Labels config !! LabelTest) in
  if ok && bool_decide (val = "true") then
    config <- Config_of c ;;
    let '(val, ok) := commaOk (ContainerConfig.Labels config !! LabelCreatedFrom) in
    if negb ok || bool_decide (len val = 0%Z) then
      ci <- deref (containerInfo c) ;;
      st <- deref (ContainerInfo.State ci) ;;
      ret (bool_decide (State.StateString st = "exited"))
    else ret false
  else ret false.

(** ** Specifications

    What each method computes, as a function of the objects it reads. *)

(** The image name, from the labels and the image reference. *)
Definition imageNameOf (labels : gmap string string) (image : string) : string :=
  let name := default image (labels !! LabelZodiac) in
  if Contains name ":" then name else name +:+ ":latest".

(** The name of a link: what precedes its first [":"], or all of it. *)
Definition linkName (link : string) : string :=
  if mem ":"%char link then stake (Z.to_nat (Index link ":")) link else link.

(** Whether labels and state make a candidate. *)
Definition isCandidate (labels : gmap string string) (state : string) : bool :=
  bool_decide (labels !! LabelTest = Some "true")
  && bool_decide (labels !! LabelCreatedFrom = None \/ labels !! LabelCreatedFrom = Some "")
  && bool_decide (state = "exited").

(** The configuration [runtimeConfig] leaves in the container's object, from
    the container's configuration [cfg], the image's [img] and the host
    configuration [hc], all as they were before the call. *)
Definition runtimeConfig_spec (cfg img : ContainerConfig.t) (hc : HostConfig.t)
  : ContainerConfig.t :=
  let labels := filter (fun kv => ContainerConfig.Labels img !! kv.1 <> Some kv.2)
                  (ContainerConfig.Labels cfg) in
  {| ContainerConfig.User :=
       if bool_decide (ContainerConfig.User cfg = ContainerConfig.User img)
       then "" else ContainerConfig.User cfg;
     ContainerConfig.ExposedPorts :=
       dom (HostConfig.PortBindings hc)
       ∪ ContainerConfig.ExposedPorts cfg ∖ ContainerConfig.ExposedPorts img;
     ContainerConfig.Env :=
       filter (.∉ ContainerConfig.Env img) (ContainerConfig.Env cfg);
     ContainerConfig.Cmd :=
       if bool_decide (ContainerConfig.Cmd cfg = ContainerConfig.Cmd img)
       then [] else ContainerConfig.Cmd cfg;
     ContainerConfig.Image := imageNameOf labels (ContainerConfig.Image cfg);
     ContainerConfig.Volumes := ContainerConfig.Volumes cfg ∖ ContainerConfig.Volumes img;
     ContainerConfig.WorkingDir :=
       if bool_decide (ContainerConfig.WorkingDir cfg = ContainerConfig.WorkingDir img)
       then "" else ContainerConfig.WorkingDir cfg;
     ContainerConfig.Entrypoint :=
       if bool_decide (ContainerConfig.Entrypoint cfg = ContainerConfig.Entrypoint img)
       then [] else ContainerConfig.Entrypoint cfg;
     ContainerConfig.Labels := labels |}.

(** The links [hostConfig] leaves, and the panic that stopped it, if any: the
    links before the first one that cannot be rewritten are rewritten, that
    one and those after it are left as they were. *)
Fixpoint rewriteLinks (links : list string) : list string * option panic :=
  match links with
  | [] => ([], None)
  | link :: rest =>
      match rewriteLink link with
      | Ok link' => let '(rest', r) := rewriteLinks rest in (link' :: rest', r)
      | Panic p => (link :: rest, Some p)
      end
  end.

(** A container is well-formed in a heap when the pointers of its metadata
    are nil or lead to objects. *)
Definition wf_container (h : heap) (c : Container) : Prop :=
  (forall ci, containerInfo c = Some ci ->
     valid_config_ptr h (ContainerInfo.Config ci)
     /\ valid_hostConfig_ptr h (ContainerInfo.HostConfig ci))
  /\ (forall ii, imageInfo c = Some ii -> valid_config_ptr h (ImageInfo.Config ii)).

(** The container was inspected with its image, and the objects behind its
    pointers are there. *)
Definition complete (h : heap) (c : Container) : Prop :=
  exists ci ii l li lh,
    containerInfo c = Some ci /\ imageInfo c = Some ii
    /\ ContainerInfo.Config ci = Some l /\ ImageInfo.Config ii = Some li
    /\ ContainerInfo.HostConfig ci = Some lh
    /\ is_Some (configs h !! l) /\ is_Some (configs h !! li)
    /\ is_Some (hostConfigs h !! lh).

(** The heaps the methods of [c] leave, from the heap [h]. *)
Definition heaps_after (c : Container) (h : heap) : list heap :=
  [(ID c h).2; (Name c h).2; (ImageID c h).2; (ImageName c h).2; (Links c h).2;
   (IsTugbot c h).2; (StopSignal c h).2; (IsTugbotCandidate c h).2;
   (runtimeConfig c h).2; (hostConfig c h).2].

(** ** A concrete container

    A container started from [redis:3] with an overridden command, an extra
    variable, one link and one published port; the image is at location 2,
    the container's configuration at 1, its host configuration at 3. *)

Definition ex_cfg : ContainerConfig.t :=
  {| ContainerConfig.User := "redis";
     ContainerConfig.ExposedPorts := {["6379/tcp"]};
     ContainerConfig.Env := ["LANG=C"; "PATH=/usr/bin"; "MODE=test"];
     ContainerConfig.Cmd := ["redis-server"; "--port"; "7000"];
     ContainerConfig.Image := "redis";
     ContainerConfig.Volumes := {["/data"]};
     ContainerConfig.WorkingDir := "/data";
     ContainerConfig.Entrypoint := ["/entrypoint.sh"];
     ContainerConfig.Labels := {[ LabelTest := "true"; "vendor" := "acme" ]} |}.

Definition ex_img : ContainerConfig.t :=
  {| ContainerConfig.User := "redis";
     ContainerConfig.ExposedPorts := {["6379/tcp"]};
     ContainerConfig.Env := ["PATH=/usr/bin"; "LANG=C"];
     ContainerConfig.Cmd := ["redis-server"];
     ContainerConfig.Image := "";
     ContainerConfig.Volumes := {["/data"]};
     ContainerConfig.WorkingDir := "/data";
     ContainerConfig.Entrypoint := ["/entrypoint.sh"];
     ContainerConfig.Labels := {[ "vendor" := "acme" ]} |}.

Definition ex_hc : HostConfig.t :=
  {| HostConfig.Links := ["/db:/web/db"];
     HostConfig.PortBindings := {[ "7000/tcp" := [PortBinding.mk "0.0.0.0" "7000"] ]} |}.

Definition ex_heap : heap :=
  {| configs := {[ 1%positive := ex_cfg; 2%positive := ex_img ]};
     hostConfigs := {[ 3%positive := ex_hc ]} |}.

Definition ex_ci : ContainerInfo.t :=
  {| ContainerInfo.Id := "02131b95b737";
     ContainerInfo.Name := "/web-test";
     ContainerInfo.Config := Some 1%positive;
     ContainerInfo.HostConfig := Some 3%positive;
     ContainerInfo.State := Some (State.mk "exited") |}.

Definition ex_ii : ImageInfo.t :=
  {| ImageInfo.Id := "sha256:4e8d"; ImageInfo.Config := Some 2%positive |}.

Definition ex_container : Container := NewContainer (Some ex_ci) (Some ex_ii).

(** The same container with its image's configuration in the same object as
    its own, with no image metadata, and with no host configuration. *)
Definition ex_alias : Container :=
  NewContainer (Some ex_ci) (Some (ImageInfo.mk "sha256:4e8d" (Some 1%positive))).

Definition ex_no_image : Container := NewContainer (Some ex_ci) None.

Definition ex_no_host : Container :=
  NewContainer
    (Some (ContainerInfo.mk "02131b95b737" "/web-test" (Some 1%positive) None
             (Some (State.mk "exited"))))
    (Some ex_ii).

(** A container that tugbot created from another, one that is running, and
    one whose state is not known. *)
Definition ex_clone_cfg : ContainerConfig.t :=
  ContainerConfig.set_Labels
    {[ LabelTest := "true"; LabelCreatedFrom := "02131b95b737" ]} ex_cfg.

Definition ex_clone_heap : heap :=
  {| configs := {[ 1%positive := ex_clone_cfg ]}; hostConfigs := ∅ |}.

Definition ex_running : Container :=
  NewContainer
    (Some (ContainerInfo.mk "5f0a" "/web-run" (Some 1%positive) (Some 3%positive)
             (Some (State.mk "running"))))
    (Some ex_ii).

Definition ex_no_state : Container :=
  NewContainer
    (Some (ContainerInfo.mk "77c1" "/web-new" (Some 1%positive) (Some 3%positive) None))
    (Some ex_ii).

(** An image that declares the test label itself, and a host configuration
    with a link that has no [":"]. *)
Definition ex_test_img : ContainerConfig.t :=
  ContainerConfig.set_Labels {[ LabelTest := "true"; "vendor" := "acme" ]} ex_img.

Definition ex_test_heap : heap :=
  {| configs := {[ 1%positive := ex_cfg; 2%positive := ex_test_img ]};
     hostConfigs := {[ 3%positive := ex_hc ]} |}.

Definition ex_bad_hc : HostConfig.t :=
  HostConfig.set_Links ["/db:/web/db"; "orphan"] ex_hc.

Definition ex_bad_heap : heap :=
  {| configs := {[ 1%positive := ex_cfg; 2%positive := ex_img ]};
     hostConfigs := {[ 3%positive := ex_bad_hc ]} |}.

(** The first container deployed by zodiac: container and image both carry
    the label of the original image. *)
Definition ex_zodiac_cfg : ContainerConfig.t :=
  ContainerConfig.set_Labels {[ LabelZodiac := "acme/redis:3" ]} ex_cfg.

Definition ex_zodiac_img : ContainerConfig.t :=
  ContainerConfig.set_Labels {[ LabelZodiac := "acme/redis:3" ]} ex_img.

Definition ex_zodiac_heap : heap :=
  {| configs := {[ 1%positive := ex_zodiac_cfg; 2%positive := ex_zodiac_img ]};
     hostConfigs := {[ 3%positive := ex_hc ]} |}.

(** ** Rules: running a statement on a heap

    The heap is kept in the form [upd_config l v h]: the container's
    configuration object is [v], the rest is [h].  Each rule runs one
    statement; [run] applies them along a chain of binds. *)

Import ContainerConfig.

Section Rules.
Context (p : option loc) (l : loc) (Hp : p = Some l).
Implicit Types (h : heap) (v : ContainerConfig.t).

Lemma loadConfig_at v h : loadConfig p (upd_config l v h) = (Ok v, upd_config l v h).
Proof. subst p. apply loadConfig_upd. Qed.

Lemma loadConfig_other l' v c h :
  l' <> l -> configs h !! l = Some c ->
  loadConfig p (upd_config l' v h) = (Ok c, upd_config l' v h).
Proof. subst p. apply loadConfig_upd_ne. Qed.

Lemma storeConfig_at f v h :
  storeConfig p f (upd_config l v h) = (Ok tt, upd_config l (f v) h).
Proof. subst p. apply storeConfig_upd. Qed.

Lemma when_storeConfig_at (b : bool) f v h :
  when b (storeConfig p f) (upd_config l v h) =
    (Ok tt, upd_config l (if b then f v else v) h).
Proof. destruct b; [apply storeConfig_at | done]. Qed.

(** A conditional store of a field is a store of a conditional value: the
    form that keeps the object a chain of assignments. *)
Lemma clear_WorkingDir_at (b : bool) v h :
  when b (storeConfig p (set_WorkingDir "")) (upd_config l v h) =
    (Ok tt, upd_config l (set_WorkingDir (if b then "" else WorkingDir v) v) h).
Proof. rewrite when_storeConfig_at. by destruct b, v. Qed.

Lemma clear_User_at (b : bool) v h :
  when b (storeConfig p (set_User "")) (upd_config l v h) =
    (Ok tt, upd_config l (set_User (if b then "" else User v) v) h).
Proof. rewrite when_storeConfig_at. by destruct b, v. Qed.

Lemma clear_Cmd_at (b : bool) v h :
  when b (storeConfig p (set_Cmd [])) (upd_config l v h) =
    (Ok tt, upd_config l (set_Cmd (if b then [] else Cmd v) v) h).
Proof. rewrite when_storeConfig_at. by destruct b, v. Qed.

Lemma clear_Entrypoint_at (b : bool) v h :
  when b (storeConfig p (set_Entrypoint [])) (upd_config l v h) =
    (Ok tt, upd_config l (set_Entrypoint (if b then [] else Entrypoint v) v) h).
Proof. rewrite when_storeConfig_at. by destruct b, v. Qed.

Lemma loadHostConfig_at l' v c h :
  hostConfigs h !! l = Some c ->
  loadHostConfig p (upd_config l' v h) = (Ok c, upd_config l' v h).
Proof. subst p. apply loadHostConfig_upd_config. Qed.

(** The loop over the bound ports adds them all, in whatever order. *)
Lemma forEach_exposePort_at ks v h :
  forEach ks (exposePort p) (upd_config l v h) =
    (Ok tt, upd_config l (set_ExposedPorts (list_to_set ks ∪ ExposedPorts v) v) h).
Proof.
  subst p. revert v. induction ks as [|k ks IH]; intros v.
  - cbn [forEach list_to_set]. rewrite (left_id_L ∅ (∪)). by destruct v.
  - cbn [forEach]. unfold exposePort at 1.
    eapply bind_step; [apply storeConfig_upd|]. rewrite IH. do 2 f_equal.
    unfold set_ExposedPorts. cbn. f_equal. set_solver.
Qed.

End Rules.

(** Reduce the reads of a field of a chain of assignments. *)
Ltac fields := cbn [User ExposedPorts Env Cmd Image Volumes WorkingDir Entrypoint Labels
  set_User set_ExposedPorts set_Env set_Cmd set_Image set_Volumes set_WorkingDir
  set_Entrypoint set_Labels].

Ltac run_rule :=
  first [ apply ret_run | apply lift_run
        | apply deref_eq; eassumption
        | apply clear_WorkingDir_at; eassumption
        | apply clear_User_at; eassumption
        | apply clear_Cmd_at; eassumption
        | apply clear_Entrypoint_at; eassumption
        | apply loadConfig_at; eassumption
        | apply storeConfig_at; eassumption
        | eapply loadConfig_other; [eassumption | done | eassumption]
        | eapply loadHostConfig_at; eassumption
        | apply forEach_exposePort_at; eassumption
        | apply loadConfig_ok; eassumption
        | apply loadHostConfig_ok; eassumption ].

(** Run the first statement of a chain of binds, then reduce. *)
Ltac run1 := eapply bind_step; [run_rule | cbn beta zeta; fields].
Ltac run := repeat run1.

(** ** The accessors *)

Section Accessors.
Context (h : heap) (c : Container) (ci : ContainerInfo.t) (l : loc)
  (cfg : ContainerConfig.t).
Context (Hci : containerInfo c = Some ci) (Hl : ContainerInfo.Config ci = Some l)
  (Hcfg : configs h !! l = Some cfg).

Lemma Config_of_run : Config_of c h = (Ok cfg, h).
Proof. unfold Config_of. run. rewrite Hl. by apply loadConfig_ok. Qed.

Lemma ID_run : ID c h = (Ok (ContainerInfo.Id ci), h).
Proof. unfold ID. by run. Qed.

Lemma Name_run : Name c h = (Ok (TrimPrefix (ContainerInfo.Name ci) "/"), h).
Proof. unfold Name. by run. Qed.

Lemma ImageName_run : ImageName c h = (Ok (imageNameOf (Labels cfg) (Image cfg)), h).
Proof.
  unfold ImageName, imageNameOf. eapply bind_step; [apply Config_of_run|].
  destruct (Labels cfg !! LabelZodiac) as [z|]; cbn [commaOk negb default].
  - cbn. by destruct (Contains z ":").
  - eapply bind_step; [eapply bind_step; [apply Config_of_run | apply ret_run]|].
    cbn. by destruct (Contains (Image cfg) ":").
Qed.

Lemma IsTugbot_run :
  IsTugbot c h = (Ok (bool_decide (Labels cfg !! LabelTugbot = Some "true")), h).
Proof.
  unfold IsTugbot. eapply bind_step; [apply Config_of_run|].
  destruct (Labels cfg !! LabelTugbot) as [v|]; cbn [commaOk andb]; [|done].
  unfold ret. do 2 f_equal. apply bool_decide_ext. naive_solver.
Qed.

Lemma StopSignal_run :
  StopSignal c h = (Ok (default "" (Labels cfg !! LabelStopSignal)), h).
Proof.
  unfold StopSignal. eapply bind_step; [apply Config_of_run|].
  by destruct (Labels cfg !! LabelStopSignal).
Qed.

End Accessors.

(** ** [runtimeConfig] *)

(** What the chain of assignments amounts to. *)
Lemma runtimeConfig_assignments cfg img hc :
  set_Image
    (imageNameOf (stringMapSubtract (Labels cfg) (Labels img)) (Image cfg))
    (set_ExposedPorts
       (list_to_set (elements (dom (HostConfig.PortBindings hc)))
        ∪ structMapSubtract (ExposedPorts cfg) (ExposedPorts img))
       (set_ExposedPorts (structMapSubtract (ExposedPorts cfg) (ExposedPorts img))
          (set_Volumes (structMapSubtract (Volumes cfg) (Volumes img))
             (set_Labels (stringMapSubtract (Labels cfg) (Labels img))
                (set_Env (sliceSubtract (Env cfg) (Env img))
                   (set_Entrypoint
                      (if sliceEqual (Entrypoint cfg) (Entrypoint img)
                       then [] else Entrypoint cfg)
                      (set_Cmd
                         (if sliceEqual (Cmd cfg) (Cmd img) then [] else Cmd cfg)
                         (set_User
                            (if bool_decide (User cfg = User img) then "" else User cfg)
                            (set_WorkingDir
                               (if bool_decide (WorkingDir cfg = WorkingDir img)
                                then "" else WorkingDir cfg) cfg)))))))))
  = runtimeConfig_spec cfg img hc.
Proof.
  rewrite !sliceEqual_eq, !structMapSubtract_difference, stringMapSubtract_filter,
    sliceSubtract_filter, list_to_set_elements_L.
  reflexivity.
Qed.

Section RuntimeConfig.
Context (h : heap) (c : Container) (ci : ContainerInfo.t) (ii : ImageInfo.t)
  (l li : loc) (cfg img : ContainerConfig.t).
Context (Hci : containerInfo c = Some ci) (Hii : imageInfo c = Some ii)
  (Hl : ContainerInfo.Config ci = Some l) (Hli : ImageInfo.Config ii = Some li)
  (Hcfg : configs h !! l = Some cfg) (Himg : configs h !! li = Some img).

Lemma ImageName_at v : ImageName c (upd_config l v h) =
  (Ok (imageNameOf (Labels v) (Image v)), upd_config l v h).
Proof. eapply ImageName_run; [done..|]. apply lookup_insert_eq. Qed.

(** The statements up to the subtraction of the exposed ports (lines
    115-140) turn the object [cfg] into [pre]. *)
Lemma runtimeConfig_until_ports :
  let pre :=
    set_ExposedPorts (structMapSubtract (ExposedPorts cfg) (ExposedPorts img))
      (set_Volumes (structMapSubtract (Volumes cfg) (Volumes img))
         (set_Labels (stringMapSubtract (Labels cfg) (Labels img))
            (set_Env (sliceSubtract (Env cfg) (Env img))
               (set_Entrypoint
                  (if sliceEqual (Entrypoint cfg) (Entrypoint img)
                   then [] else Entrypoint cfg)
                  (set_Cmd (if sliceEqual (Cmd cfg) (Cmd img) then [] else Cmd cfg)
                     (set_User
                        (if bool_decide (User cfg = User img) then "" else User cfg)
                        (set_WorkingDir
                           (if bool_decide (WorkingDir cfg = WorkingDir img)
                            then "" else WorkingDir cfg) cfg))))))) in
  forall r,
  (ci' <- deref (containerInfo c) ;;
   hc <- loadHostConfig (ContainerInfo.HostConfig ci') ;;
   forEach (elements (dom (HostConfig.PortBindings hc)))
     (exposePort (ContainerInfo.Config ci)) ;;
   imageName <- ImageName c ;;
   storeConfig (ContainerInfo.Config ci) (set_Image imageName) ;;
   ret (ContainerInfo.Config ci)) (upd_config l pre h) = r ->
  runtimeConfig c h = r.
Proof.
  intros pre r Hrest. unfold runtimeConfig.
  rewrite <- (upd_config_id l cfg h Hcfg) at 1.
  destruct (decide (l = li)) as [<-|Hne]; do 26 run1; [|exact Hrest].
  subst pre. by replace img with cfg in Hrest by congruence.
Qed.

Context (lh : loc) (hc : HostConfig.t).
Context (Hlh : ContainerInfo.HostConfig ci = Some lh)
  (Hhc : hostConfigs h !! lh = Some hc).

(** The whole of [runtimeConfig], run on the heap. *)
Lemma runtimeConfig_run :
  runtimeConfig c h = (Ok (Some l), upd_config l (runtimeConfig_spec cfg img hc) h).
Proof.
  apply runtimeConfig_until_ports. run.
  eapply bind_step; [apply ImageName_at|]. fields. run.
  cbn [ret]. by rewrite Hl, runtimeConfig_assignments.
Qed.

End RuntimeConfig.

(** ** Properties of the specification *)

Lemma Contains_latest s : Contains (s +:+ ":latest") ":" = true.
Proof.
  unfold Contains. rewrite Index_char_mem, mem_app. apply orb_true_intro. by right.
Qed.

(** The image name always carries a tag. *)
Lemma imageNameOf_tagged labels image : Contains (imageNameOf labels image) ":" = true.
Proof.
  unfold imageNameOf. destruct (Contains (default image (labels !! LabelZodiac)) ":") eqn:E;
    [done | apply Contains_latest].
Qed.

(** A tagged reference is left as it is; an untagged one gets [":latest"]. *)
Lemma imageNameOf_tag labels image :
  labels !! LabelZodiac = None ->
  imageNameOf labels image = if Contains image ":" then image else image +:+ ":latest".
Proof. unfold imageNameOf. by intros ->. Qed.

Lemma imageNameOf_zodiac labels image z :
  labels !! LabelZodiac = Some z ->
  imageNameOf labels image = if Contains z ":" then z else z +:+ ":latest".
Proof. unfold imageNameOf. by intros ->. Qed.

Lemma imageNameOf_idemp labels image :
  imageNameOf labels (imageNameOf labels image) = imageNameOf labels image.
Proof.
  destruct (labels !! LabelZodiac) as [z|] eqn:E.
  - by rewrite !(imageNameOf_zodiac _ _ z).
  - rewrite (imageNameOf_tag _ (imageNameOf _ _)) by done. by rewrite imageNameOf_tagged.
Qed.

Lemma clear_idemp {A} `{EqDecision A} (x y z : A) :
  let x' := if bool_decide (x = y) then z else x in
  (if bool_decide (x' = y) then z else x') = x'.
Proof. cbn. repeat case_bool_decide; congruence. Qed.

Lemma labels_filter_idemp (m1 m2 : gmap string string) :
  let P := fun kv : string * string => m2 !! kv.1 <> Some kv.2 in
  filter P (filter P m1) = filter P m1.
Proof. cbn. rewrite <- !stringMapSubtract_filter. apply stringMapSubtract_idemp. Qed.

(** Subtracting the same defaults a second time changes nothing. *)
Lemma runtimeConfig_spec_idemp cfg img hc :
  runtimeConfig_spec (runtimeConfig_spec cfg img hc) img hc = runtimeConfig_spec cfg img hc.
Proof.
  unfold runtimeConfig_spec. fields.
  rewrite !clear_idemp, labels_filter_idemp, imageNameOf_idemp.
  f_equal; [set_solver | | set_solver].
  apply list_filter_filter_l. naive_solver.
Qed.

(** The same when the defaults are the object itself. *)
Lemma runtimeConfig_spec_idemp_alias cfg hc :
  let v := runtimeConfig_spec cfg cfg hc in runtimeConfig_spec v v hc = v.
Proof.
  cbn. unfold runtimeConfig_spec. fields.
  rewrite !bool_decide_eq_true_2 by done.
  rewrite <- !stringMapSubtract_filter, !stringMapSubtract_self, imageNameOf_idemp.
  rewrite <- !sliceSubtract_filter, !sliceSubtract_self.
  f_equal; set_solver.
Qed.

(** A configuration that says what the image says has no override left but
    the image name and the bound ports. *)
Lemma runtimeConfig_spec_defaults cfg img hc :
  set_Image "" cfg = set_Image "" img ->
  runtimeConfig_spec cfg img hc =
    {| User := ""; ExposedPorts := dom (HostConfig.PortBindings hc); Env := []; Cmd := [];
       Image := imageNameOf ∅ (Image cfg); Volumes := ∅; WorkingDir := ""; Entrypoint := [];
       Labels := ∅ |}.
Proof.
  intros Heq. destruct cfg, img. unfold set_Image in Heq. cbn in Heq.
  injection Heq as -> -> -> -> -> -> -> ->.
  unfold runtimeConfig_spec. fields. rewrite !bool_decide_eq_true_2 by done.
  rewrite <- !stringMapSubtract_filter, !stringMapSubtract_self.
  rewrite <- !sliceSubtract_filter, !sliceSubtract_self.
  f_equal; set_solver.
Qed.

(** Only the set of the image's environment entries matters. *)
Lemma runtimeConfig_spec_env cfg img hc env' :
  env' ≡ₚ Env img ->
  runtimeConfig_spec cfg (set_Env env' img) hc = runtimeConfig_spec cfg img hc.
Proof.
  intros Hp. unfold runtimeConfig_spec. fields. f_equal.
  apply list_filter_iff. intros e. by rewrite Hp.
Qed.

(** ** [runtimeConfig] on the heap *)

Section RuntimeConfigProperties.
Context (h : heap) (c : Container) (ci : ContainerInfo.t) (ii : ImageInfo.t)
  (l li lh : loc) (cfg img : ContainerConfig.t) (hc : HostConfig.t).
Context (Hci : containerInfo c = Some ci) (Hii : imageInfo c = Some ii)
  (Hl : ContainerInfo.Config ci = Some l) (Hli : ImageInfo.Config ii = Some li)
  (Hlh : ContainerInfo.HostConfig ci = Some lh)
  (Hcfg : configs h !! l = Some cfg) (Himg : configs h !! li = Some img)
  (Hhc : hostConfigs h !! lh = Some hc).

(** C1. In-place [runtimeConfig] refines its specification: on a container
    whose pointers lead to objects, it returns the pointer to the container's
    configuration, and leaves in that object [runtimeConfig_spec] of the
    container's configuration, the image's and the host configuration as they
    were before the call; every other object of the heap is unchanged.  This
    holds also when the image's configuration is the same object as the
    container's ([l = li]). *)
Theorem runtimeConfig_refines :
  runtimeConfig c h = (Ok (Some l), upd_config l (runtimeConfig_spec cfg img hc) h).
Proof. by eapply runtimeConfig_run. Qed.

(** [runtimeConfig] is idempotent on the heap: the object it wrote is a
    fixed point, so a second call (the code keeps the pointer and may call
    again) returns the same pointer and changes nothing, whether or not
    the image's configuration aliases the container's. *)
Lemma runtimeConfig_idempotent :
  runtimeConfig c (runtimeConfig c h).2 = (Ok (Some l), (runtimeConfig c h).2).
Proof.
  erewrite (runtimeConfig_run h) by done. cbn [snd].
  destruct (decide (l = li)) as [<-|Hne].
  - assert (Heq : img = cfg) by congruence. rewrite Heq.
    erewrite runtimeConfig_run; try done;
      [| apply lookup_insert_eq | apply lookup_insert_eq].
    by rewrite upd_config_upd, runtimeConfig_spec_idemp_alias.
  - erewrite runtimeConfig_run; try done;
      [| apply lookup_insert_eq | by cbn; rewrite lookup_insert_ne].
    by rewrite upd_config_upd, runtimeConfig_spec_idemp.
Qed.

(** C10. A container whose configuration says what its image says (every
    field but the image reference) is left with no override: all diffable
    fields are empty, the exposed ports are the bound ports, and the image
    reference is the tagged image name. *)
Theorem runtimeConfig_defaults_cleared :
  set_Image "" cfg = set_Image "" img ->
  runtimeConfig c h =
    (Ok (Some l),
     upd_config l
       {| User := ""; ExposedPorts := dom (HostConfig.PortBindings hc); Env := [];
          Cmd := []; Image := imageNameOf ∅ (Image cfg); Volumes := ∅;
          WorkingDir := ""; Entrypoint := []; Labels := ∅ |} h).
Proof.
  intros Heq. erewrite runtimeConfig_run by done.
  by rewrite runtimeConfig_spec_defaults.
Qed.

(** C11. The subtraction of the environment does not depend on the order of
    the image's entries: with the image's environment permuted in the heap,
    [runtimeConfig] leaves the same configuration in the container. *)
Theorem runtimeConfig_env_order env' :
  l <> li -> env' ≡ₚ Env img ->
  let h' := upd_config li (set_Env env' img) h in
  runtimeConfig c h' = (Ok (Some l), upd_config l (runtimeConfig_spec cfg img hc) h').
Proof.
  intros Hne Hp h'.
  assert (H1 : configs h' !! l = Some cfg) by (by cbn; rewrite lookup_insert_ne).
  assert (H2 : configs h' !! li = Some (set_Env env' img)) by apply lookup_insert_eq.
  rewrite (runtimeConfig_run h' c ci ii l li _ _ Hci Hii Hl Hli H1 H2 lh hc Hlh Hhc).
  by rewrite runtimeConfig_spec_env.
Qed.

(** After [runtimeConfig] every port bound on the host is exposed, what
    is exposed besides was not exposed by the image, and the image reference
    carries a tag. *)
Lemma runtimeConfig_ports_and_tag :
  exists v, configs (runtimeConfig c h).2 !! l = Some v
    /\ dom (HostConfig.PortBindings hc) ⊆ ExposedPorts v
    /\ (forall p, p ∈ ExposedPorts v -> p ∉ dom (HostConfig.PortBindings hc) ->
          p ∈ ExposedPorts cfg /\ p ∉ ExposedPorts img)
    /\ Contains (Image v) ":" = true.
Proof.
  exists (runtimeConfig_spec cfg img hc). erewrite runtimeConfig_run by done.
  split; [apply lookup_insert_eq|]. unfold runtimeConfig_spec. fields.
  split; [set_solver|]. split; [set_solver | apply imageNameOf_tagged].
Qed.

(** C9. The image reference is computed after the labels are subtracted:
    when the container carries the zodiac label with the value its image
    carries too, the subtraction removes it, and the reference written is the
    raw image reference with its tag, not the name [ImageName] returned
    before the call. *)
Theorem runtimeConfig_zodiac_inherited z :
  Labels cfg !! LabelZodiac = Some z -> Labels img !! LabelZodiac = Some z ->
  (ImageName c h).1 = Ok (if mem ":" z then z else z +:+ ":latest")
  /\ exists v, configs (runtimeConfig c h).2 !! l = Some v
       /\ Image v = if mem ":" (Image cfg) then Image cfg else Image cfg +:+ ":latest".
Proof.
  intros Hz Hz'. split.
  - erewrite ImageName_run by done. cbn [fst].
    by rewrite (imageNameOf_zodiac _ _ z Hz); unfold Contains; rewrite Index_char_mem.
  - exists (runtimeConfig_spec cfg img hc). erewrite runtimeConfig_run by done.
    split; [apply lookup_insert_eq|]. unfold runtimeConfig_spec. fields.
    rewrite imageNameOf_tag; [by unfold Contains; rewrite Index_char_mem|].
    apply map_lookup_filter_None. right. intros v Hv. cbn. congruence.
Qed.

End RuntimeConfigProperties.

(** *** Panics of [runtimeConfig] *)

(** Without image metadata the first statement that reads it panics. *)
Lemma runtimeConfig_no_imageInfo h c ci :
  containerInfo c = Some ci -> imageInfo c = None ->
  runtimeConfig c h = (Panic NilDereference, h).
Proof.
  intros Hci Hii. unfold runtimeConfig. run.
  apply bind_step_panic. by apply deref_nil.
Qed.

(** C6. Without the image's metadata there is no baseline: [runtimeConfig]
    dereferences the nil [imageInfo] before any write, panics, and leaves the
    heap as it was.  (The method has no error result; the failure is a
    run-time panic.) *)
Theorem runtimeConfig_nil_imageInfo h c ci :
  containerInfo c = Some ci -> imageInfo c = None ->
  runtimeConfig c h = (Panic NilDereference, h).
Proof. apply runtimeConfig_no_imageInfo. Qed.

Lemma runtimeConfig_nil_containerInfo h c :
  containerInfo c = None -> runtimeConfig c h = (Panic NilDereference, h).
Proof. intros Hci. unfold runtimeConfig. apply bind_step_panic. by apply deref_nil. Qed.

(** With no host configuration the panic comes after the subtraction. *)
Lemma runtimeConfig_no_hostConfig h c ci ii l li cfg img :
  containerInfo c = Some ci -> imageInfo c = Some ii ->
  ContainerInfo.Config ci = Some l -> ImageInfo.Config ii = Some li ->
  configs h !! l = Some cfg -> configs h !! li = Some img ->
  ContainerInfo.HostConfig ci = None ->
  runtimeConfig c h =
    (Panic NilDereference,
     upd_config l (set_Image (Image cfg) (runtimeConfig_spec cfg img HostConfig.zero)) h).
Proof.
  intros Hci Hii Hl Hli Hcfg Himg Hlh.
  eapply runtimeConfig_until_ports; try done. run.
  apply bind_step_panic. rewrite Hlh, loadHostConfig_nil. do 2 f_equal.
  rewrite <- runtimeConfig_assignments. fields. unfold set_ExposedPorts, set_Image. fields.
  f_equal. cbn. set_solver.
Qed.

(** C12. A container with no host configuration makes [runtimeConfig] panic
    after the subtraction: the container's object is left with every field
    subtracted, the bound ports not added and the image reference not
    rewritten. *)
Theorem runtimeConfig_nil_hostConfig h c ci ii l li cfg img :
  containerInfo c = Some ci -> imageInfo c = Some ii ->
  ContainerInfo.Config ci = Some l -> ImageInfo.Config ii = Some li ->
  configs h !! l = Some cfg -> configs h !! li = Some img ->
  ContainerInfo.HostConfig ci = None ->
  runtimeConfig c h =
    (Panic NilDereference,
     upd_config l (set_Image (Image cfg) (runtimeConfig_spec cfg img HostConfig.zero)) h).
Proof. apply runtimeConfig_no_hostConfig. Qed.

(** With a nil [Config], of the container or of the image, the first read
    of a field panics, before any write. *)
Lemma runtimeConfig_nil_Config h c ci ii :
  containerInfo c = Some ci -> imageInfo c = Some ii ->
  ContainerInfo.Config ci = None ->
  runtimeConfig c h = (Panic NilDereference, h).
Proof.
  intros Hci Hii Hl. unfold runtimeConfig. run.
  apply bind_step_panic. by rewrite Hl.
Qed.

Lemma runtimeConfig_nil_imageConfig h c ci ii l cfg :
  containerInfo c = Some ci -> imageInfo c = Some ii ->
  ContainerInfo.Config ci = Some l -> configs h !! l = Some cfg ->
  ImageInfo.Config ii = None ->
  runtimeConfig c h = (Panic NilDereference, h).
Proof.
  intros Hci Hii Hl Hcfg Hli. unfold runtimeConfig. run.
  eapply bind_step; [rewrite Hl; by apply loadConfig_ok|]. cbn beta.
  apply bind_step_panic. by rewrite Hli.
Qed.

(** *** When [runtimeConfig] returns *)

(** The two reads of line 118: a pointer that is nil or leads nowhere stops
    the method before any write. *)
Lemma runtimeConfig_Config_panic h c ci ii e :
  containerInfo c = Some ci -> imageInfo c = Some ii ->
  loadConfig (ContainerInfo.Config ci) h = (Panic e, h) ->
  runtimeConfig c h = (Panic e, h).
Proof. intros Hci Hii Hl. unfold runtimeConfig. run. by apply bind_step_panic. Qed.

Lemma runtimeConfig_imageConfig_panic h c ci ii l cfg e :
  containerInfo c = Some ci -> imageInfo c = Some ii ->
  ContainerInfo.Config ci = Some l -> configs h !! l = Some cfg ->
  loadConfig (ImageInfo.Config ii) h = (Panic e, h) ->
  runtimeConfig c h = (Panic e, h).
Proof.
  intros Hci Hii Hl Hcfg Hli. unfold runtimeConfig. run.
  eapply bind_step; [rewrite Hl; by apply loadConfig_ok|]. cbn beta.
  by apply bind_step_panic.
Qed.

(** The read of line 141 comes after the subtraction. *)
Lemma runtimeConfig_hostConfig_panic h c ci ii l li cfg img e :
  containerInfo c = Some ci -> imageInfo c = Some ii ->
  ContainerInfo.Config ci = Some l -> ImageInfo.Config ii = Some li ->
  configs h !! l = Some cfg -> configs h !! li = Some img ->
  loadHostConfig (ContainerInfo.HostConfig ci) h = (Panic e, h) ->
  exists h', runtimeConfig c h = (Panic e, h').
Proof.
  intros Hci Hii Hl Hli Hcfg Himg Hlh. eexists.
  eapply runtimeConfig_until_ports; try done. run.
  by apply bind_step_panic, loadHostConfig_panic_upd_config.
Qed.

(** [runtimeConfig] returns exactly on the containers that are [complete]:
    every pointer it follows is checked by no statement of the method, and
    each one that is nil or leads nowhere is a panic. *)
Lemma runtimeConfig_Ok_iff c h :
  is_Ok (runtimeConfig c h).1 = true <-> complete h c.
Proof.
  split.
  - intros Hok.
    destruct (containerInfo c) as [ci|] eqn:Hci;
      [|by rewrite runtimeConfig_nil_containerInfo in Hok].
    destruct (imageInfo c) as [ii|] eqn:Hii;
      [|by erewrite runtimeConfig_no_imageInfo in Hok].
    destruct (loadConfig_cases (ContainerInfo.Config ci) h)
      as [(l & cfg & Hl & Hcfg)|[e He]];
      [|by erewrite runtimeConfig_Config_panic in Hok].
    destruct (loadConfig_cases (ImageInfo.Config ii) h)
      as [(li & img & Hli & Himg)|[e He]];
      [|by erewrite runtimeConfig_imageConfig_panic in Hok].
    destruct (loadHostConfig_cases (ContainerInfo.HostConfig ci) h)
      as [(lh & hc & Hlh & Hhc)|[e He]].
    + exists ci, ii, l, li, lh. by split_and!.
    + destruct (runtimeConfig_hostConfig_panic h c ci ii l li cfg img e) as [h' Hp];
        try done. by rewrite Hp in Hok.
  - intros (ci & ii & l & li & lh & Hci & Hii & Hl & Hli & Hlh & [cfg Hcfg] & [img Himg]
            & [hc Hhc]). by erewrite runtimeConfig_run.
Qed.

(** So whether a container is complete is decided by running the method,
    and whether it is well-formed by looking behind its pointers. *)
#[export] Instance complete_dec h c : Decision (complete h c).
Proof.
  refine (cast_if (decide (is_Ok (runtimeConfig c h).1 = true)));
    by rewrite <- runtimeConfig_Ok_iff.
Defined.

Lemma wf_container_pointers h c :
  wf_container h c <->
  from_option (fun ci => valid_config_ptr h (ContainerInfo.Config ci)
                         /\ valid_hostConfig_ptr h (ContainerInfo.HostConfig ci))
    True (containerInfo c)
  /\ from_option (fun ii => valid_config_ptr h (ImageInfo.Config ii)) True (imageInfo c).
Proof.
  unfold wf_container. split; intros [H1 H2]; split; by apply from_option_forall.
Qed.

#[export] Instance wf_container_dec h c : Decision (wf_container h c).
Proof.
  refine (cast_if (decide
    (from_option (fun ci => valid_config_ptr h (ContainerInfo.Config ci)
                            /\ valid_hostConfig_ptr h (ContainerInfo.HostConfig ci))
       True (containerInfo c)
     /\ from_option (fun ii => valid_config_ptr h (ImageInfo.Config ii)) True
          (imageInfo c))));
    by rewrite wf_container_pointers.
Defined.

Lemma complete_wf h c : complete h c -> wf_container h c.
Proof.
  intros (ci & ii & l & li & lh & Hci & Hii & Hl & Hli & Hlh & Hcfg & Himg & Hhc).
  split; intros ? ?; simplify_eq; by rewrite ?Hl, ?Hlh, ?Hli.
Qed.

(** ** [hostConfig]: rewriting one link *)

Section RewriteLink.
Implicit Types link name t : string.

Lemma rewriteLink_ok link :
  mem ":" link = true -> mem "/" link = true ->
  rewriteLink link =
    Ok (stake (Z.to_nat (Index link ":")) link +:+ ":"
        +:+ sdrop (Z.to_nat (LastIndex link "/")) link).
Proof.
  intros Hc Hs. unfold rewriteLink.
  rewrite <- Index_char_mem in Hc. rewrite <- LastIndex_char_mem in Hs.
  pose proof (Index_bounds link ":"). pose proof (LastIndex_bounds link "/").
  rewrite slice_prefix, sliceFrom_ok by lia. done.
Qed.

(** A link with no [":"] or no ["/"] makes a slice expression panic. *)
Lemma rewriteLink_panic link :
  mem ":" link = false \/ mem "/" link = false ->
  rewriteLink link = Panic SliceBoundsOutOfRange.
Proof.
  unfold rewriteLink. destruct (mem ":" link) eqn:Hc.
  - intros [?|Hs]; [done|]. rewrite <- Index_char_mem in Hc.
    pose proof (Index_bounds link ":"). rewrite slice_prefix by lia.
    rewrite sliceFrom_panic; [done|]. rewrite (LastIndex_char_none _ _ Hs). lia.
  - intros _. rewrite slice_panic; [done|]. rewrite (Index_char_none _ _ Hc). lia.
Qed.

Lemma rewriteLink_Ok_iff link :
  is_Ok (rewriteLink link) = mem ":" link && mem "/" link.
Proof.
  destruct (mem ":" link) eqn:Hc, (mem "/" link) eqn:Hs;
    [by rewrite rewriteLink_ok | by rewrite rewriteLink_panic; auto..].
Qed.

(** The rewritten link is the name, [":"], and an alias that starts with the
    last ["/"] of the link. *)
Lemma rewriteLink_shape link link' :
  rewriteLink link = Ok link' ->
  exists t, mem "/" t = false /\ mem ":" (linkName link) = false
    /\ link' = linkName link +:+ ":" +:+ String "/" t.
Proof.
  intros Hr. pose proof (rewriteLink_Ok_iff link) as Hok. rewrite Hr in Hok.
  symmetry in Hok. apply andb_true_iff in Hok as [Hc Hs].
  rewrite rewriteLink_ok in Hr by done. injection Hr as <-.
  destruct (Index_char_split _ _ Hc) as [_ Hname].
  destruct (LastIndex_char_split _ _ Hs) as [Hsplit Ht].
  set (j := Z.to_nat (LastIndex link "/")) in *.
  exists (sdrop (S j) link). unfold linkName. rewrite Hc. split_and!; [done..|].
  do 2 f_equal. rewrite Hsplit at 1.
  assert (String.length (stake j link) = j) as Hj.
  { rewrite length_stake. pose proof (LastIndex_bounds link "/"). unfold len in *. lia. }
  rewrite <- Hj at 1. apply sdrop_app_len.
Qed.

(** Printing a name and an alias and parsing the link again: the two slice
    expressions of lines 155 and 156 give back the name and the alias when
    the name has no [":"] and the alias is ["/"] and a last segment. *)
Lemma link_parts name t :
  mem ":" name = false -> mem "/" t = false ->
  let link := Sprintf_pair name (String "/" t) in
  slice link 0 (Index link ":") = Ok name
  /\ sliceFrom link (LastIndex link "/") = Ok (String "/" t).
Proof.
  intros Hn Ht link. subst link. unfold Sprintf_pair.
  change (name +:+ ":" +:+ String "/" t) with (name +:+ String ":" (String "/" t)).
  pose proof (len_nonneg name). pose proof (len_nonneg t). split.
  - rewrite Index_char_app by done.
    rewrite slice_prefix by (rewrite ?len_app, ?len_String; lia).
    unfold len. by rewrite Nat2Z.id, stake_app_len.
  - replace (name +:+ String ":" (String "/" t)) with ((name +:+ ":") +:+ String "/" t)
      by (by rewrite app_assoc_s).
    rewrite LastIndex_char_app by done.
    rewrite sliceFrom_ok by (rewrite ?len_app, ?len_String, ?len_empty; lia).
    unfold len. by rewrite Nat2Z.id, sdrop_app_len.
Qed.

(** A link of that shape is rewritten to itself. *)
Lemma rewriteLink_fixed name t :
  mem ":" name = false -> mem "/" t = false ->
  rewriteLink (name +:+ ":" +:+ String "/" t) = Ok (name +:+ ":" +:+ String "/" t).
Proof.
  intros Hn Ht. destruct (link_parts name t Hn Ht) as [H1 H2].
  unfold Sprintf_pair in H1, H2. unfold rewriteLink. by rewrite H1, H2.
Qed.

(** When the alias has no ["/"] the last ["/"] of the link is in the name. *)
Lemma rewriteLink_slash_in_name name a :
  mem ":" name = false -> mem "/" name = true -> mem "/" a = false ->
  rewriteLink (Sprintf_pair name a) =
    Ok (Sprintf_pair name
          (sdrop (Z.to_nat (LastIndex name "/")) name +:+ ":" +:+ a)).
Proof.
  intros Hn Hs Ha. destruct (LastIndex_char_split "/" name Hs) as [Hname Hq].
  remember (stake (Z.to_nat (LastIndex name "/")) name) as p eqn:Ep.
  remember (sdrop (S (Z.to_nat (LastIndex name "/"))) name) as q eqn:Eq.
  clear Ep Eq. subst name. unfold Sprintf_pair.
  rewrite (LastIndex_char_app "/" p q Hq). unfold len at 1.
  rewrite Nat2Z.id, sdrop_app_len.
  assert (Hl : (p +:+ String "/" q) +:+ ":" +:+ a = p +:+ String "/" (q +:+ ":" +:+ a))
    by (by rewrite app_assoc_s).
  rewrite rewriteLink_ok; [|by rewrite mem_app, orb_true_r|by rewrite mem_app, Hs].
  change ((p +:+ String "/" q) +:+ ":" +:+ a)
    with ((p +:+ String "/" q) +:+ String ":" a) at 1 2.
  rewrite Index_char_app by done. unfold len at 1. rewrite Nat2Z.id, stake_app_len.
  assert (Hm : mem "/" (q +:+ ":" +:+ a) = false).
  { rewrite mem_app, Hq. change (":" +:+ a) with (String ":" a).
    cbn [mem orb]. by rewrite decide_False. }
  rewrite Hl, (LastIndex_char_app "/" p _ Hm).
  unfold len. by rewrite Nat2Z.id, sdrop_app_len.
Qed.

(** Rewriting is idempotent. *)
Lemma rewriteLink_idemp link link' :
  rewriteLink link = Ok link' -> rewriteLink link' = Ok link'.
Proof.
  intros (t & Ht & Hn & ->)%rewriteLink_shape. by apply rewriteLink_fixed.
Qed.

Lemma linkName_app name rest :
  mem ":" name = false -> linkName (name +:+ String ":" rest) = name.
Proof.
  intros Hn. unfold linkName. rewrite mem_app. cbn [mem]. rewrite decide_True by done.
  rewrite orb_true_r, Index_char_app by done. unfold len. by rewrite Nat2Z.id, stake_app_len.
Qed.

(** Rewriting keeps the name of the link. *)
Lemma linkName_rewriteLink link link' :
  rewriteLink link = Ok link' -> linkName link' = linkName link.
Proof.
  intros (t & Ht & Hn & ->)%rewriteLink_shape. by apply linkName_app.
Qed.

End RewriteLink.

(** ** [hostConfig]: the loop *)

Lemma rewriteLinks_length links : length (rewriteLinks links).1 = length links.
Proof.
  induction links as [|link rest IH]; [done|]. cbn [rewriteLinks].
  destruct (rewriteLink link); [|done]. destruct (rewriteLinks rest). cbn in *. by rewrite IH.
Qed.

(** No panic exactly when every link has a [":"] and a ["/"]. *)
Lemma rewriteLinks_ok_iff links :
  (rewriteLinks links).2 = None <->
  Forall (fun link => mem ":" link = true /\ mem "/" link = true) links.
Proof.
  induction links as [|link rest IH]; [by split|]. rewrite Forall_cons, <- IH.
  cbn [rewriteLinks]. pose proof (rewriteLink_Ok_iff link) as Hok.
  destruct (rewriteLink link); cbn in Hok; symmetry in Hok.
  - apply andb_true_iff in Hok. destruct (rewriteLinks rest). cbn. tauto.
  - apply andb_false_iff in Hok. cbn. split; [done|]. intros [[??] _]. destruct Hok; congruence.
Qed.

(** The only panic is the slice-bounds panic. *)
Lemma rewriteLinks_panic links e :
  (rewriteLinks links).2 = Some e -> e = SliceBoundsOutOfRange.
Proof.
  induction links as [|link rest IH]; [done|]. cbn [rewriteLinks].
  destruct (mem ":" link && mem "/" link) eqn:E.
  - apply andb_true_iff in E as [??]. rewrite rewriteLink_ok by done.
    destruct (rewriteLinks rest). exact IH.
  - apply andb_false_iff in E. rewrite rewriteLink_panic by done. by intros [= <-].
Qed.

(** Rewritten links are fixed points: a second pass changes nothing and
    cannot panic on the links the first pass rewrote. *)
Lemma rewriteLinks_idemp links :
  (rewriteLinks links).2 = None ->
  rewriteLinks (rewriteLinks links).1 = ((rewriteLinks links).1, None).
Proof.
  induction links as [|link rest IH]; [done|]. cbn [rewriteLinks].
  destruct (rewriteLink link) as [link'|] eqn:E; [|done].
  destruct (rewriteLinks rest) as [rest' r]. cbn in *. intros ->.
  by rewrite (rewriteLink_idemp _ _ E), IH.
Qed.

(** Names survive the rewriting, rewritten or not. *)
Lemma rewriteLinks_names links :
  linkName <$> (rewriteLinks links).1 = linkName <$> links.
Proof.
  induction links as [|link rest IH]; [done|]. cbn [rewriteLinks].
  destruct (rewriteLink link) as [link'|] eqn:E; [|done].
  destruct (rewriteLinks rest) as [rest' r]. cbn in *.
  by rewrite (linkName_rewriteLink _ _ E), IH.
Qed.

Section HostConfigLoop.
Context (p : option loc) (lh : loc) (Hp : p = Some lh) (hc0 : HostConfig.t) (h : heap).

(** One round of the loop, at the index of [link]. *)
Lemma hostConfig_body_run link rest done_ :
  hostConfig_body p (length done_)
    (upd_hostConfig lh (HostConfig.set_Links (done_ ++ link :: rest) hc0) h)
  = match rewriteLink link with
    | Ok link' =>
        (Ok tt, upd_hostConfig lh (HostConfig.set_Links (done_ ++ link' :: rest) hc0) h)
    | Panic e =>
        (Panic e, upd_hostConfig lh (HostConfig.set_Links (done_ ++ link :: rest) hc0) h)
    end.
Proof.
  subst p. unfold hostConfig_body.
  eapply bind_step; [apply loadHostConfig_upd|].
  cbn [HostConfig.Links HostConfig.set_Links]. unfold index.
  rewrite list_lookup_middle by done.
  eapply bind_step; [apply lift_run|].
  destruct (rewriteLink link) as [link'|e]; [|by apply bind_step_panic].
  eapply bind_step; [apply lift_run|]. rewrite storeHostConfig_upd.
  cbn [HostConfig.Links HostConfig.set_Links HostConfig.PortBindings].
  by rewrite insert_app_r_alt, Nat.sub_diag.
Qed.

(** The loop from index [length done_] on, over the links [todo] not yet
    visited: the links [done_] are behind, already rewritten. *)
Lemma hostConfig_loop todo done_ :
  forEach (seq (length done_) (length todo)) (hostConfig_body p)
    (upd_hostConfig lh (HostConfig.set_Links (done_ ++ todo) hc0) h)
  = (match (rewriteLinks todo).2 with None => Ok tt | Some e => Panic e end,
     upd_hostConfig lh (HostConfig.set_Links (done_ ++ (rewriteLinks todo).1) hc0) h).
Proof.
  revert done_. induction todo as [|link rest IH]; intros done_; [done|].
  cbn [length seq forEach rewriteLinks].
  pose proof (hostConfig_body_run link rest done_) as Hbody.
  destruct (rewriteLink link) as [link'|e]; [|by apply bind_step_panic].
  eapply bind_step; [exact Hbody|]. cbn beta.
  specialize (IH (done_ ++ [link'])).
  rewrite length_app, Nat.add_1_r, <- !app_assoc in IH. cbn [app] in IH.
  rewrite IH. by destruct (rewriteLinks rest) as [rest' r].
Qed.

End HostConfigLoop.

(** ** [Links] and [hostConfig] on the heap *)

Lemma Links_loop_names links acc :
  Links_loop links acc = Ok (acc ++ (linkName <$> links)).
Proof.
  revert acc. induction links as [|link rest IH]; intros acc; cbn [Links_loop fmap list_fmap].
  - by rewrite app_nil_r.
  - rewrite Split_head_char. fold (linkName link). by rewrite IH, <- app_assoc.
Qed.

Lemma link_sliceable_dec link :
  {mem ":" link = true /\ mem "/" link = true}
  + {mem ":" link = false \/ mem "/" link = false}.
Proof. destruct (mem ":" link), (mem "/" link); auto. Defined.

Lemma rewriteLinks_panic_iff links :
  (rewriteLinks links).2 = Some SliceBoundsOutOfRange <->
  Exists (fun link => mem ":" link = false \/ mem "/" link = false) links.
Proof.
  split.
  - intros Hp.
    destruct (Forall_Exists_dec
                (fun link => mem ":" link = true /\ mem "/" link = true)
                (fun link => mem ":" link = false \/ mem "/" link = false)
                link_sliceable_dec links) as [Hall%rewriteLinks_ok_iff|]; [congruence|done].
  - intros (link & Hin & Hbad)%Exists_exists.
    destruct (rewriteLinks links).2 as [e|] eqn:E.
    + by apply rewriteLinks_panic in E as ->.
    + apply rewriteLinks_ok_iff in E. rewrite Forall_forall in E.
      destruct (E link Hin). naive_solver congruence.
Qed.

Lemma set_Links_eta hc : HostConfig.set_Links (HostConfig.Links hc) hc = hc.
Proof. by destruct hc. Qed.

Section HostConfig.
Context (c : Container) (ci : ContainerInfo.t) (lh : loc).
Context (Hci : containerInfo c = Some ci)
  (Hlh : ContainerInfo.HostConfig ci = Some lh).
Implicit Types (h : heap) (hc : HostConfig.t).

Lemma Links_run h hc :
  hostConfigs h !! lh = Some hc ->
  Links c h = (Ok (linkName <$> HostConfig.Links hc), h).
Proof.
  intros Hhc. unfold Links. rewrite Hci, Hlh.
  eapply bind_step; [by apply loadHostConfig_ok|]. cbn beta.
  by rewrite Links_loop_names.
Qed.

Lemma hostConfig_run h hc :
  hostConfigs h !! lh = Some hc ->
  hostConfig c h =
    (match (rewriteLinks (HostConfig.Links hc)).2 with
     | None => Ok (Some lh)
     | Some e => Panic e
     end,
     upd_hostConfig lh
       (HostConfig.set_Links (rewriteLinks (HostConfig.Links hc)).1 hc) h).
Proof.
  intros Hhc.
  pose proof (hostConfig_loop _ lh Hlh hc h (HostConfig.Links hc) []) as Hloop.
  cbn [length app] in Hloop.
  rewrite set_Links_eta, (upd_hostConfig_id lh hc h Hhc) in Hloop.
  unfold hostConfig. run.
  eapply bind_step; [by rewrite Hlh; apply loadHostConfig_ok|]. cbn beta.
  destruct (rewriteLinks (HostConfig.Links hc)).2 as [e|].
  - by apply bind_step_panic.
  - eapply bind_step; [exact Hloop|]. cbn. by rewrite Hlh.
Qed.

(** [Links] never panics: it returns, for every link of the host
    configuration in order, what precedes the first [":"] (the whole link
    when it has none), and leaves the heap as it is. *)
Lemma Links_names h hc :
  hostConfigs h !! lh = Some hc ->
  Links c h = (Ok (linkName <$> HostConfig.Links hc), h).
Proof. apply Links_run. Qed.

(** C2. In-place [hostConfig] refines [rewriteLinks]: the loop that reads
    [Links[i]] and writes it back computes the pure rewriting of the links as
    they were before the call.  Without a panic it returns the pointer to the
    host configuration; at the first link that cannot be sliced it panics, and
    the links before that one stay rewritten in the heap.  Nothing else in the
    heap changes. *)
Theorem hostConfig_refines h hc :
  hostConfigs h !! lh = Some hc ->
  hostConfig c h =
    (match (rewriteLinks (HostConfig.Links hc)).2 with
     | None => Ok (Some lh)
     | Some e => Panic e
     end,
     upd_hostConfig lh
       (HostConfig.set_Links (rewriteLinks (HostConfig.Links hc)).1 hc) h).
Proof. apply hostConfig_run. Qed.

(** C7. [hostConfig] panics exactly when some link has no [":"] or no
    ["/"], and then with a slice-bounds panic: [strings.Index] or
    [strings.LastIndex] returned [-1] and the slice expression is out of
    range. *)
Theorem hostConfig_panics_iff h hc :
  hostConfigs h !! lh = Some hc ->
  (hostConfig c h).1 = Panic SliceBoundsOutOfRange <->
  Exists (fun link => mem ":" link = false \/ mem "/" link = false) (HostConfig.Links hc).
Proof.
  intros Hhc. rewrite (hostConfig_run h hc Hhc). cbn [fst].
  rewrite <- rewriteLinks_panic_iff.
  destruct (rewriteLinks (HostConfig.Links hc)).2; naive_solver.
Qed.

(** [hostConfig] is idempotent: after a call that did not panic, the
    links in the heap are fixed points of the rewriting, so a second call
    returns the same pointer and changes nothing. *)
Lemma hostConfig_idempotent h hc :
  hostConfigs h !! lh = Some hc ->
  (hostConfig c h).1 = Ok (Some lh) ->
  hostConfig c (hostConfig c h).2 = (Ok (Some lh), (hostConfig c h).2).
Proof.
  intros Hhc. rewrite (hostConfig_run h hc Hhc). cbn [fst snd].
  destruct (rewriteLinks (HostConfig.Links hc)).2 as [e|] eqn:E; [done|]. intros _.
  erewrite hostConfig_run by apply lookup_insert_eq.
  cbn [HostConfig.Links HostConfig.set_Links].
  rewrite (rewriteLinks_idemp _ E). cbn [fst snd]. f_equal.
  by rewrite upd_hostConfig_upd.
Qed.

(** [hostConfig] keeps the names of the links: whatever it rewrote, and
    whether or not it panicked, [Links] returns afterwards what it returned
    before. *)
Lemma hostConfig_keeps_Links h hc :
  hostConfigs h !! lh = Some hc ->
  (Links c (hostConfig c h).2).1 = (Links c h).1.
Proof.
  intros Hhc. rewrite (hostConfig_run h hc Hhc), (Links_run h hc Hhc). cbn [snd].
  erewrite Links_run by apply lookup_insert_eq.
  cbn [HostConfig.Links HostConfig.set_Links fst].
  by rewrite rewriteLinks_names.
Qed.

(** C30. [Links] never panics and returns, for every link of the host
    configuration and in their order, what precedes the first [":"] (the whole
    link when it has none), leaving the heap as it is; and [hostConfig] keeps
    these names: whatever it rewrote, and whether or not it panicked, [Links]
    returns afterwards what it returned before. *)
Theorem Links_spec h hc :
  hostConfigs h !! lh = Some hc ->
  Links c h = (Ok (linkName <$> HostConfig.Links hc), h)
  /\ (Links c (hostConfig c h).2).1 = (Links c h).1.
Proof. intros Hhc. split; [by apply Links_names | by eapply hostConfig_keeps_Links]. Qed.

End HostConfig.

Section Idempotence.
Context (h : heap) (c : Container) (ci : ContainerInfo.t) (ii : ImageInfo.t)
  (l li lh : loc) (cfg img : ContainerConfig.t) (hc : HostConfig.t).
Context (Hci : containerInfo c = Some ci) (Hii : imageInfo c = Some ii)
  (Hl : ContainerInfo.Config ci = Some l) (Hli : ImageInfo.Config ii = Some li)
  (Hlh : ContainerInfo.HostConfig ci = Some lh)
  (Hcfg : configs h !! l = Some cfg) (Himg : configs h !! li = Some img)
  (Hhc : hostConfigs h !! lh = Some hc).

(** C5. The writers are idempotent on the heap.  The object [runtimeConfig]
    wrote is a fixed point of the subtraction, so a second call (the code
    keeps the pointer and may call again) returns the same pointer and
    changes nothing, whether or not the image's configuration aliases the
    container's; and after a call of [hostConfig] that did not panic the
    links are fixed points of the rewriting, so a second call returns the
    same pointer and changes nothing. *)
Theorem writers_idempotent :
  runtimeConfig c (runtimeConfig c h).2 = (Ok (Some l), (runtimeConfig c h).2)
  /\ ((hostConfig c h).1 = Ok (Some lh) ->
      hostConfig c (hostConfig c h).2 = (Ok (Some lh), (hostConfig c h).2)).
Proof.
  split; [by eapply runtimeConfig_idempotent | by eapply hostConfig_idempotent].
Qed.

End Idempotence.

(** C8. The rewritten link keeps the name and takes as alias the end of
    the link from its last ["/"] on, the slash included: it has the form
    [name:/t] with no ["/"] in [t] and no [":"] in [name]. *)
Theorem rewriteLink_alias link link' :
  rewriteLink link = Ok link' ->
  exists t, mem "/" t = false /\ mem ":" (linkName link) = false
    /\ link' = linkName link +:+ ":" +:+ String "/" t.
Proof. apply rewriteLink_shape. Qed.

(** C37. The last ["/"] is searched in the whole link, not in its alias:
    a link whose alias has no ["/"] gets as alias the end of its name from
    the name's last ["/"] on, the [":"] and the old alias, so the rewritten
    link has two [":"]. *)
Theorem rewriteLink_alias_without_slash name a :
  mem ":" name = false -> mem "/" name = true -> mem "/" a = false ->
  rewriteLink (Sprintf_pair name a) =
    Ok (Sprintf_pair name
          (sdrop (Z.to_nat (LastIndex name "/")) name +:+ ":" +:+ a)).
Proof. apply rewriteLink_slash_in_name. Qed.

(** C31. Printing a link from a name and an alias and parsing it with the
    two slice expressions of [hostConfig] gives back the name and the alias,
    when the name has no [":"] and the alias is a ["/"] and a last segment;
    [Links] reads the same name, and parsing and printing again, which is
    what [hostConfig] does with each link, gives the same link. *)
Theorem link_roundtrip name t :
  mem ":" name = false -> mem "/" t = false ->
  let link := Sprintf_pair name (String "/" t) in
  slice link 0 (Index link ":") = Ok name
  /\ sliceFrom link (LastIndex link "/") = Ok (String "/" t)
  /\ index0 (Split link ":") = Ok name
  /\ rewriteLink link = Ok link.
Proof.
  intros Hn Ht link. destruct (link_parts name t Hn Ht) as [H1 H2].
  split_and!; [done..| |by apply rewriteLink_fixed].
  rewrite Split_head_char. f_equal.
  by apply (linkName_app name (String "/" t)).
Qed.

(** With no container metadata or no host configuration, [hostConfig]
    dereferences nil. *)
Lemma hostConfig_nil h c :
  containerInfo c = None \/
  (exists ci, containerInfo c = Some ci /\ ContainerInfo.HostConfig ci = None) ->
  hostConfig c h = (Panic NilDereference, h).
Proof.
  intros [Hci|(ci & Hci & Hlh)]; unfold hostConfig.
  - apply bind_step_panic. by apply deref_nil.
  - run. apply bind_step_panic. by rewrite Hlh.
Qed.

(** ** The classifier *)

Section Classifier.
Context (h : heap) (c : Container) (ci : ContainerInfo.t) (l : loc)
  (cfg : ContainerConfig.t).
Context (Hci : containerInfo c = Some ci) (Hl : ContainerInfo.Config ci = Some l)
  (Hcfg : configs h !! l = Some cfg).

(** What [IsTugbotCandidate] does after the two label tests: the state is
    read only when both pass. *)
Lemma IsTugbotCandidate_run :
  IsTugbotCandidate c h =
    (if bool_decide (Labels cfg !! LabelTest = Some "true")
        && bool_decide (Labels cfg !! LabelCreatedFrom = None
                        \/ Labels cfg !! LabelCreatedFrom = Some "")
     then result_map (fun st => bool_decide (State.StateString st = "exited"))
            (deref (ContainerInfo.State ci) h).1
     else Ok false, h).
Proof.
  unfold IsTugbotCandidate. eapply bind_step; [by eapply Config_of_run|].
  destruct (Labels cfg !! LabelTest) as [v|]; cbn [commaOk andb]; [|done].
  case_bool_decide as Hv; [subst v|]; rewrite ?bool_decide_eq_true_2 by done;
    [|by rewrite bool_decide_eq_false_2 by congruence].
  eapply bind_step; [by eapply Config_of_run|]. cbn [andb].
  destruct (Labels cfg !! LabelCreatedFrom) as [[|a w]|]; cbn [commaOk negb orb].
  - rewrite !bool_decide_eq_true_2 by auto. run. by destruct (ContainerInfo.State ci).
  - rewrite !bool_decide_eq_false_2; [done| naive_solver |].
    rewrite len_String. pose proof (len_nonneg w). lia.
  - rewrite bool_decide_eq_true_2 by auto. run. by destruct (ContainerInfo.State ci).
Qed.

(** C3. [IsTugbotCandidate] answers true exactly for a container labelled
    as a test, with the created-from label absent or empty, in the state
    ["exited"]; otherwise it answers false.  It does not write. *)
Theorem IsTugbotCandidate_spec st :
  ContainerInfo.State ci = Some st ->
  IsTugbotCandidate c h = (Ok (isCandidate (Labels cfg) (State.StateString st)), h).
Proof.
  intros Hst. rewrite IsTugbotCandidate_run, Hst. unfold isCandidate. cbn.
  by destruct (_ && _).
Qed.

(** A container that carries a non-empty created-from label is never
    a candidate, whatever its other labels and its state (a nil state
    included: it is not read). *)
Lemma IsTugbotCandidate_created_from v :
  Labels cfg !! LabelCreatedFrom = Some v -> v <> "" ->
  IsTugbotCandidate c h = (Ok false, h).
Proof.
  intros Hv Hne. rewrite IsTugbotCandidate_run.
  rewrite (bool_decide_eq_false_2 (_ \/ _)) by naive_solver.
  by rewrite andb_false_r.
Qed.

(** Only the state ["exited"] makes a candidate: with any other state
    string the answer is false. *)
Lemma IsTugbotCandidate_not_exited st :
  ContainerInfo.State ci = Some st -> State.StateString st <> "exited" ->
  IsTugbotCandidate c h = (Ok false, h).
Proof.
  intros Hst Hne. rewrite IsTugbotCandidate_run, Hst. cbn.
  rewrite (bool_decide_eq_false_2 _ Hne). by destruct (_ && _).
Qed.

(** C32. The state is dereferenced lazily: with a nil [State],
    [IsTugbotCandidate] panics when both label tests pass and answers false
    otherwise. *)
Theorem IsTugbotCandidate_nil_State :
  ContainerInfo.State ci = None ->
  IsTugbotCandidate c h =
    (if bool_decide (Labels cfg !! LabelTest = Some "true")
        && bool_decide (Labels cfg !! LabelCreatedFrom = None
                        \/ Labels cfg !! LabelCreatedFrom = Some "")
     then Panic NilDereference else Ok false, h).
Proof. intros Hst. by rewrite IsTugbotCandidate_run, Hst. Qed.

(** The name [ImageName] returns always has a tag delimiter. *)
Lemma ImageName_tagged :
  exists name, ImageName c h = (Ok name, h) /\ mem ":" name = true.
Proof.
  eexists. split; [by eapply ImageName_run|].
  rewrite <- Index_char_mem. apply imageNameOf_tagged.
Qed.

(** C33. The accessors, each on a container whose configuration is there:
    [ID] is the recorded identifier; [Name] is the recorded name without one
    leading ["/"]; [StopSignal] is the stop-signal label, or [""] when there
    is none; [IsTugbot] answers true exactly when the label
    ["gaiadocker.tugbot"] is present with the value ["true"]; for
    [ImageName] the zodiac label, when present, is the name and the image
    reference is not looked at, and the name gets the tag ["latest"] when it
    has no [":"] and is returned as it is when it has one.  None of them
    changes the heap. *)
Theorem accessors_spec :
  ID c h = (Ok (ContainerInfo.Id ci), h)
  /\ Name c h = (Ok (TrimPrefix (ContainerInfo.Name ci) "/"), h)
  /\ StopSignal c h = (Ok (default "" (Labels cfg !! LabelStopSignal)), h)
  /\ IsTugbot c h = (Ok (bool_decide (Labels cfg !! LabelTugbot = Some "true")), h)
  /\ ImageName c h =
       (Ok (let name := default (Image cfg) (Labels cfg !! LabelZodiac) in
            if mem ":" name then name else name +:+ ":latest"), h).
Proof.
  split_and!; [by eapply ID_run | by eapply Name_run | by eapply StopSignal_run
              | by eapply IsTugbot_run |].
  erewrite ImageName_run by done. unfold imageNameOf, Contains.
  by rewrite Index_char_mem.
Qed.

End Classifier.

(** ** What the methods leave in the heap *)

Lemma read_only_deref {A} (p : option A) : read_only (@deref heap A p).
Proof. by destruct p. Qed.

Lemma read_only_loadConfig p : read_only (loadConfig p).
Proof. intros h. unfold loadConfig. by repeat case_match. Qed.

Lemma read_only_loadHostConfig p : read_only (loadHostConfig p).
Proof. intros h. unfold loadHostConfig. by repeat case_match. Qed.

Lemma preserves_sub {S A} (R : relation S) `{!Reflexive R} (m : prog S A) :
  read_only m -> preserves R m.
Proof. intros Hm s. by rewrite <- (Hm s). Qed.

Lemma shape_storeConfig p f : preserves same_shape (storeConfig p f).
Proof. intros h. eapply storeConfig_shape, surjective_pairing. Qed.

Lemma shape_storeHostConfig p f : preserves same_shape (storeHostConfig p f).
Proof. intros h. eapply storeHostConfig_shape, surjective_pairing. Qed.

#[export] Hint Resolve read_only_deref read_only_loadConfig read_only_loadHostConfig
  shape_storeConfig shape_storeHostConfig : go.
#[export] Hint Extern 2 (preserves same_shape _) =>
  apply preserves_sub; [apply _|] : go.

Lemma read_only_Config_of c : read_only (Config_of c).
Proof. unfold Config_of. solve_preserves. Qed.
#[export] Hint Resolve read_only_Config_of : go.

Lemma read_only_ImageName c : read_only (ImageName c).
Proof. unfold ImageName. solve_preserves. Qed.
#[export] Hint Resolve read_only_ImageName : go.

Lemma read_only_IsTugbot c : read_only (IsTugbot c).
Proof. unfold IsTugbot. solve_preserves. Qed.

Lemma read_only_IsTugbotCandidate c : read_only (IsTugbotCandidate c).
Proof. unfold IsTugbotCandidate. solve_preserves. Qed.

Lemma read_only_Name c : read_only (Name c).
Proof. unfold Name. solve_preserves. Qed.

Lemma read_only_ID c : read_only (ID c).
Proof. unfold ID. solve_preserves. Qed.

Lemma read_only_ImageID c : read_only (ImageID c).
Proof. unfold ImageID. solve_preserves. Qed.

Lemma read_only_Links c : read_only (Links c).
Proof. unfold Links. solve_preserves. Qed.

Lemma read_only_StopSignal c : read_only (StopSignal c).
Proof. unfold StopSignal. solve_preserves. Qed.

#[export] Hint Resolve read_only_IsTugbot read_only_IsTugbotCandidate read_only_Name
  read_only_ID read_only_ImageID read_only_Links read_only_StopSignal : go.

(** C34. The accessors and the classifier are read-only: for every
    container and every heap, with whatever nil or dangling pointers, and
    also when they panic, they leave the heap as it was. *)
Theorem classifier_read_only c :
  read_only (ID c) /\ read_only (Name c) /\ read_only (ImageID c)
  /\ read_only (ImageName c) /\ read_only (Links c) /\ read_only (IsTugbot c)
  /\ read_only (StopSignal c) /\ read_only (IsTugbotCandidate c).
Proof.
  repeat split; auto with go.
Qed.

Lemma shape_exposePort p port : preserves same_shape (exposePort p port).
Proof. unfold exposePort. solve_preserves. Qed.

Lemma shape_hostConfig_body p i : preserves same_shape (hostConfig_body p i).
Proof. unfold hostConfig_body. solve_preserves. Qed.

#[export] Hint Resolve shape_exposePort shape_hostConfig_body : go.

Lemma shape_runtimeConfig c : preserves same_shape (runtimeConfig c).
Proof. unfold runtimeConfig. solve_preserves. Qed.

Lemma shape_hostConfig c : preserves same_shape (hostConfig c).
Proof. unfold hostConfig. solve_preserves. Qed.

Lemma wf_container_shape h h' c :
  same_shape h h' -> wf_container h c -> wf_container h' c.
Proof.
  intros Hs [Hc Hi]. split.
  - intros ci Hci. rewrite <- Hs. by apply Hc.
  - intros ii Hii. rewrite <- Hs. by apply Hi.
Qed.

#[export] Hint Resolve shape_runtimeConfig shape_hostConfig : go.

Lemma preserves_apply {S A} (R : relation S) (m : prog S A) s :
  preserves R m -> R s (m s).2.
Proof. intros Hm. apply Hm. Qed.

Lemma heaps_after_shape c h : Forall (same_shape h) (heaps_after c h).
Proof.
  unfold heaps_after. repeat first [apply Forall_nil_2 | apply Forall_cons_2];
    apply (preserves_apply same_shape); auto with go.
Qed.

(** The heap of the model can hold a pointer that leads nowhere, which a Go
    program cannot: [wf_container] rules that out, and it stays true because
    no method creates or deletes an object.  This is a fact of the model's
    loads and stores, under which the outcome [DanglingPointer] never arises
    from a heap in which it was absent; it says nothing of the code. *)
Lemma methods_preserve_wf c c' h :
  wf_container h c' -> Forall (fun h' => wf_container h' c') (heaps_after c h).
Proof.
  intros Hwf. eapply Forall_impl; [apply heaps_after_shape|].
  intros h' Hs. by eapply wf_container_shape.
Qed.

(** ** Which panics can happen *)

(** A loop whose body fails on the store it starts from fails at its first
    element. *)
Lemma forEach_fails {S A} (body : A -> prog S unit) e s xs :
  (forall x, body x s = (Panic e, s)) ->
  forEach xs body s = if xs is [] then (Ok tt, s) else (Panic e, s).
Proof. intros Hb. destruct xs as [|x xs]; [done|]. by apply bind_step_panic. Qed.

Lemma forEach_fails_perm {S A} (body : A -> prog S unit) e s xs ys :
  (forall x, body x s = (Panic e, s)) -> xs ≡ₚ ys ->
  forEach xs body s = forEach ys body s.
Proof.
  intros Hb Hp. rewrite !(forEach_fails body e) by done.
  destruct xs, ys; try done; [by apply Permutation_nil_cons in Hp|].
  symmetry in Hp. by apply Permutation_nil_cons in Hp.
Qed.

(** C36. Go ranges over a map in an unspecified order; the loop of
    [runtimeConfig] over the port bindings does not depend on it: for every
    pointer and heap, two orders of the same ports leave the same heap and
    the same outcome. *)
Theorem exposePort_order_irrelevant p ports ports' h :
  ports ≡ₚ ports' ->
  forEach ports (exposePort p) h = forEach ports' (exposePort p) h.
Proof.
  intros Hp. destruct p as [l|]; [destruct (configs h !! l) as [v|] eqn:E|].
  - rewrite <- (upd_config_id l v h E).
    rewrite !(forEach_exposePort_at (Some l) l eq_refl). by rewrite Hp.
  - apply (forEach_fails_perm _ DanglingPointer); [|done].
    intros x. unfold exposePort, storeConfig. by rewrite E.
  - by apply (forEach_fails_perm _ NilDereference).
Qed.

(** On a well-formed container [runtimeConfig] returns the pointer to
    the container's configuration or panics on a nil pointer: no other
    panic can happen, and no read or write misses its object. *)
Lemma runtimeConfig_outcomes c h :
  wf_container h c ->
  (runtimeConfig c h).1 = Panic NilDereference
  \/ exists l, (runtimeConfig c h).1 = Ok (Some l).
Proof.
  intros [Hc Hi].
  destruct (containerInfo c) as [ci|] eqn:Hci;
    [|left; by rewrite runtimeConfig_nil_containerInfo].
  destruct (imageInfo c) as [ii|] eqn:Hii;
    [|left; by erewrite runtimeConfig_no_imageInfo].
  destruct (Hc ci eq_refl) as [Hl Hlh]. specialize (Hi ii eq_refl).
  destruct (ContainerInfo.Config ci) as [l|] eqn:El;
    [destruct Hl as [cfg Hcfg] | left; by erewrite runtimeConfig_nil_Config].
  destruct (ImageInfo.Config ii) as [li|] eqn:Eli;
    [destruct Hi as [img Himg] | left; by erewrite runtimeConfig_nil_imageConfig].
  destruct (ContainerInfo.HostConfig ci) as [lh|] eqn:Elh;
    [destruct Hlh as [hc Hhc] | left; by erewrite runtimeConfig_no_hostConfig].
  right. exists l. by erewrite runtimeConfig_run.
Qed.

(** On a well-formed container [hostConfig] returns the pointer to
    the host configuration, panics on a nil pointer, or panics on a slice out
    of range: the index expression [Links[i]] is always in range, and no read
    or write misses its object. *)
Lemma hostConfig_outcomes c h :
  wf_container h c ->
  (hostConfig c h).1 = Panic NilDereference
  \/ (hostConfig c h).1 = Panic SliceBoundsOutOfRange
  \/ exists l, (hostConfig c h).1 = Ok (Some l).
Proof.
  intros [Hc _].
  destruct (containerInfo c) as [ci|] eqn:Hci; [|left; rewrite hostConfig_nil; auto].
  destruct (Hc ci eq_refl) as [_ Hlh].
  destruct (ContainerInfo.HostConfig ci) as [lh|] eqn:Elh;
    [destruct Hlh as [hc Hhc] | left; rewrite hostConfig_nil; eauto].
  right. erewrite hostConfig_run by done. cbn [fst].
  destruct (rewriteLinks (HostConfig.Links hc)).2 as [e|] eqn:E; [left|right; eauto].
  by apply rewriteLinks_panic in E as ->.
Qed.

(** C35. What the two writers can do on a well-formed container:
    [runtimeConfig] returns the pointer to the container's configuration or
    panics on a nil pointer, and it returns exactly when the container is
    complete (no pointer it follows is nil); [hostConfig] returns the pointer
    to the host configuration, panics on a nil pointer, or panics on a slice
    out of range.  No other panic can happen: the index expression
    [Links[i]] is always in range, and no read or write misses its object. *)
Theorem writers_outcome c h :
  wf_container h c ->
  ((runtimeConfig c h).1 = Panic NilDereference
   \/ exists l, (runtimeConfig c h).1 = Ok (Some l))
  /\ (is_Ok (runtimeConfig c h).1 = true <-> complete h c)
  /\ ((hostConfig c h).1 = Panic NilDereference
      \/ (hostConfig c h).1 = Panic SliceBoundsOutOfRange
      \/ exists l, (hostConfig c h).1 = Ok (Some l)).
Proof.
  split; [by apply runtimeConfig_outcomes|].
  split; [apply runtimeConfig_Ok_iff | by apply hostConfig_outcomes].
Qed.

(** ** The two writers together *)

Section Writers.
Context (h : heap) (c : Container) (ci : ContainerInfo.t) (ii : ImageInfo.t)
  (l li lh : loc) (cfg img : ContainerConfig.t) (hc : HostConfig.t).
Context (Hci : containerInfo c = Some ci) (Hii : imageInfo c = Some ii)
  (Hl : ContainerInfo.Config ci = Some l) (Hli : ImageInfo.Config ii = Some li)
  (Hlh : ContainerInfo.HostConfig ci = Some lh)
  (Hcfg : configs h !! l = Some cfg) (Himg : configs h !! li = Some img)
  (Hhc : hostConfigs h !! lh = Some hc).

(** C13. [runtimeConfig] and [hostConfig] can be called in either order:
    the first reads the port bindings and writes the configuration, the
    second rewrites the links, and the heap after both is the same, also when
    [hostConfig] stops at a link it cannot rewrite. *)
Theorem writers_commute :
  (runtimeConfig c (hostConfig c h).2).2 = (hostConfig c (runtimeConfig c h).2).2.
Proof.
  erewrite (hostConfig_run _ _ _ Hci Hlh h) by done.
  erewrite (runtimeConfig_run h) by done. cbn [snd].
  erewrite runtimeConfig_run; try done; [|apply lookup_insert_eq].
  erewrite hostConfig_run by done. cbn [snd].
  by rewrite upd_config_hostConfig.
Qed.

(** C14. Containers that share a configuration object see the writes of
    [runtimeConfig]: after the call on [c], another container [c'] that points
    to the same object reads the subtracted configuration, and when the image
    carries the test label with the value the container has, [c'] is no
    candidate any more. *)
Theorem runtimeConfig_shared_config c' ci' :
  containerInfo c' = Some ci' -> ContainerInfo.Config ci' = Some l ->
  let h' := (runtimeConfig c h).2 in
  Config_of c' h' = (Ok (runtimeConfig_spec cfg img hc), h')
  /\ (Labels img !! LabelTest = Labels cfg !! LabelTest ->
      IsTugbotCandidate c' h' = (Ok false, h')).
Proof.
  intros Hci' Hl' h'. subst h'. erewrite (runtimeConfig_run h) by done. cbn [snd].
  assert (Hnew : configs (upd_config l (runtimeConfig_spec cfg img hc) h) !! l
                 = Some (runtimeConfig_spec cfg img hc)) by apply lookup_insert_eq.
  split; [by eapply Config_of_run|]. intros Hlab.
  erewrite IsTugbotCandidate_run by done.
  assert (Labels (runtimeConfig_spec cfg img hc) !! LabelTest = None) as ->; [|done].
  unfold runtimeConfig_spec. fields. apply map_lookup_filter_None. right.
  intros v Hv. cbn. congruence.
Qed.

End Writers.

(** ** The theorems at the concrete containers *)

Lemma runtimeConfig_refines_witness :
  runtimeConfig ex_container ex_heap =
    (Ok (Some 1%positive),
     upd_config 1%positive (runtimeConfig_spec ex_cfg ex_img ex_hc) ex_heap).
Proof.
  exact (runtimeConfig_refines ex_heap ex_container ex_ci ex_ii 1%positive 2%positive
           3%positive ex_cfg ex_img ex_hc eq_refl eq_refl eq_refl eq_refl eq_refl
           eq_refl eq_refl eq_refl).
Defined.

Lemma writers_idempotent_witness :
  runtimeConfig ex_container (runtimeConfig ex_container ex_heap).2 =
    (Ok (Some 1%positive), (runtimeConfig ex_container ex_heap).2)
  /\ hostConfig ex_container (hostConfig ex_container ex_heap).2 =
      (Ok (Some 3%positive), (hostConfig ex_container ex_heap).2).
Proof.
  pose proof (writers_idempotent ex_heap ex_container ex_ci ex_ii 1%positive 2%positive
                3%positive ex_cfg ex_img ex_hc eq_refl eq_refl eq_refl eq_refl eq_refl
                eq_refl eq_refl eq_refl) as [Hr Hh].
  exact (conj Hr (Hh eq_refl)).
Defined.

Lemma runtimeConfig_defaults_cleared_witness :
  runtimeConfig ex_alias ex_heap =
    (Ok (Some 1%positive),
     upd_config 1%positive
       {| User := ""; ExposedPorts := dom (HostConfig.PortBindings ex_hc); Env := [];
          Cmd := []; Image := "redis:latest"; Volumes := ∅;
          WorkingDir := ""; Entrypoint := []; Labels := ∅ |} ex_heap).
Proof.
  exact (runtimeConfig_defaults_cleared ex_heap ex_alias ex_ci
           (ImageInfo.mk "sha256:4e8d" (Some 1%positive)) 1%positive 1%positive
           3%positive ex_cfg ex_cfg ex_hc eq_refl eq_refl eq_refl eq_refl eq_refl
           eq_refl eq_refl eq_refl eq_refl).
Defined.

Lemma runtimeConfig_env_order_witness :
  let h' := upd_config 2%positive (set_Env ["LANG=C"; "PATH=/usr/bin"] ex_img) ex_heap in
  runtimeConfig ex_container h' =
    (Ok (Some 1%positive), upd_config 1%positive (runtimeConfig_spec ex_cfg ex_img ex_hc) h').
Proof.
  refine (runtimeConfig_env_order ex_heap ex_container ex_ci ex_ii 1%positive 2%positive
            3%positive ex_cfg ex_img ex_hc eq_refl eq_refl eq_refl eq_refl eq_refl
            eq_refl eq_refl ["LANG=C"; "PATH=/usr/bin"] _ _);
    [discriminate | apply perm_swap].
Defined.

Lemma runtimeConfig_nil_imageInfo_witness :
  runtimeConfig ex_no_image ex_heap = (Panic NilDereference, ex_heap).
Proof. exact (runtimeConfig_nil_imageInfo ex_heap ex_no_image ex_ci eq_refl eq_refl). Defined.

Lemma runtimeConfig_nil_hostConfig_witness :
  runtimeConfig ex_no_host ex_heap =
    (Panic NilDereference,
     upd_config 1%positive
       (set_Image "redis" (runtimeConfig_spec ex_cfg ex_img HostConfig.zero)) ex_heap).
Proof.
  exact (runtimeConfig_nil_hostConfig ex_heap ex_no_host _ ex_ii 1%positive 2%positive
           ex_cfg ex_img eq_refl eq_refl eq_refl eq_refl eq_refl eq_refl eq_refl).
Defined.

Lemma hostConfig_refines_witness :
  hostConfig ex_container ex_heap =
    (Ok (Some 3%positive),
     upd_hostConfig 3%positive (HostConfig.set_Links ["/db:/db"] ex_hc) ex_heap).
Proof.
  exact (hostConfig_refines ex_container ex_ci 3%positive eq_refl eq_refl ex_heap ex_hc
           eq_refl).
Defined.

Lemma hostConfig_panics_iff_witness :
  ((hostConfig ex_container ex_heap).1 = Panic SliceBoundsOutOfRange <->
   Exists (fun link => mem ":" link = false \/ mem "/" link = false) ["/db:/web/db"])
  /\ (hostConfig ex_container ex_bad_heap).1 = Panic SliceBoundsOutOfRange.
Proof.
  split.
  - exact (hostConfig_panics_iff ex_container ex_ci 3%positive eq_refl eq_refl ex_heap ex_hc
             eq_refl).
  - apply (hostConfig_panics_iff ex_container ex_ci 3%positive eq_refl eq_refl
             ex_bad_heap ex_bad_hc eq_refl).
    apply Exists_cons_tl, Exists_cons_hd. left. reflexivity.
Defined.

(** The links of [ex_bad_heap] after the panic: the first is rewritten, the
    one without [":"] is as it was. *)
Lemma ex_bad_links :
  HostConfig.Links <$> hostConfigs (hostConfig ex_container ex_bad_heap).2 !! 3%positive
  = Some ["/db:/db"; "orphan"].
Proof. by vm_compute. Qed.

Lemma Links_spec_witness :
  Links ex_container ex_heap = (Ok ["/db"], ex_heap)
  /\ (Links ex_container (hostConfig ex_container ex_heap).2).1 = (Links ex_container ex_heap).1.
Proof.
  exact (Links_spec ex_container ex_ci 3%positive eq_refl eq_refl ex_heap ex_hc eq_refl).
Defined.

Lemma rewriteLink_alias_witness :
  exists t, mem "/" t = false /\ mem ":" (linkName "/db:/web/db") = false
    /\ "/db:/db" = linkName "/db:/web/db" +:+ ":" +:+ String "/" t.
Proof. exact (rewriteLink_alias "/db:/web/db" "/db:/db" eq_refl). Defined.

Lemma IsTugbotCandidate_spec_witness :
  IsTugbotCandidate ex_container ex_heap = (Ok true, ex_heap).
Proof.
  exact (IsTugbotCandidate_spec ex_heap ex_container ex_ci 1%positive ex_cfg
           eq_refl eq_refl eq_refl (State.mk "exited") eq_refl).
Defined.

Lemma IsTugbotCandidate_nil_State_witness :
  IsTugbotCandidate ex_no_state ex_heap = (Panic NilDereference, ex_heap)
  /\ IsTugbotCandidate ex_no_state ex_clone_heap = (Ok false, ex_clone_heap).
Proof.
  split.
  - exact (IsTugbotCandidate_nil_State ex_heap ex_no_state _ 1%positive ex_cfg
             eq_refl eq_refl eq_refl eq_refl).
  - exact (IsTugbotCandidate_nil_State ex_clone_heap ex_no_state _ 1%positive ex_clone_cfg
             eq_refl eq_refl eq_refl eq_refl).
Defined.

Lemma accessors_spec_witness :
  ID ex_container ex_heap = (Ok "02131b95b737", ex_heap)
  /\ Name ex_container ex_heap = (Ok "web-test", ex_heap)
  /\ StopSignal ex_container ex_heap = (Ok "", ex_heap)
  /\ IsTugbot ex_container ex_heap = (Ok false, ex_heap)
  /\ ImageName ex_container ex_heap = (Ok "redis:latest", ex_heap).
Proof.
  exact (accessors_spec ex_heap ex_container ex_ci 1%positive ex_cfg eq_refl eq_refl eq_refl).
Defined.

Lemma ex_container_wf : wf_container ex_heap ex_container.
Proof. compute_done. Defined.

Lemma runtimeConfig_zodiac_inherited_witness :
  (ImageName ex_container ex_zodiac_heap).1 = Ok "acme/redis:3"
  /\ exists v, configs (runtimeConfig ex_container ex_zodiac_heap).2 !! 1%positive = Some v
       /\ Image v = "redis:latest".
Proof.
  exact (runtimeConfig_zodiac_inherited ex_zodiac_heap ex_container ex_ci ex_ii 1%positive
           2%positive 3%positive ex_zodiac_cfg ex_zodiac_img ex_hc eq_refl eq_refl eq_refl
           eq_refl eq_refl eq_refl eq_refl eq_refl "acme/redis:3" eq_refl eq_refl).
Defined.

Lemma exposePort_order_irrelevant_witness :
  forEach ["80/tcp"; "443/tcp"] (exposePort (Some 1%positive)) ex_heap =
  forEach ["443/tcp"; "80/tcp"] (exposePort (Some 1%positive)) ex_heap.
Proof.
  exact (exposePort_order_irrelevant (Some 1%positive) ["80/tcp"; "443/tcp"]
           ["443/tcp"; "80/tcp"] ex_heap (perm_swap _ _ _)).
Defined.

Lemma writers_outcome_witness :
  ((runtimeConfig ex_container ex_heap).1 = Panic NilDereference
   \/ exists l, (runtimeConfig ex_container ex_heap).1 = Ok (Some l))
  /\ (is_Ok (runtimeConfig ex_container ex_heap).1 = true <-> complete ex_heap ex_container)
  /\ ((hostConfig ex_container ex_heap).1 = Panic NilDereference
      \/ (hostConfig ex_container ex_heap).1 = Panic SliceBoundsOutOfRange
      \/ exists l, (hostConfig ex_container ex_heap).1 = Ok (Some l)).
Proof. exact (writers_outcome ex_container ex_heap ex_container_wf). Defined.

Lemma writers_commute_witness :
  (runtimeConfig ex_container (hostConfig ex_container ex_heap).2).2 =
  (hostConfig ex_container (runtimeConfig ex_container ex_heap).2).2.
Proof.
  exact (writers_commute ex_heap ex_container ex_ci ex_ii 1%positive 2%positive
           3%positive ex_cfg ex_img ex_hc eq_refl eq_refl eq_refl eq_refl eq_refl
           eq_refl eq_refl eq_refl).
Defined.

Lemma rewriteLink_alias_without_slash_witness :
  rewriteLink (Sprintf_pair "/redis" "db") = Ok "/redis:/redis:db".
Proof. exact (rewriteLink_alias_without_slash "/redis" "db" eq_refl eq_refl eq_refl). Defined.

Lemma link_roundtrip_witness :
  let link := Sprintf_pair "/db" "/db" in
  slice link 0 (Index link ":") = Ok "/db"
  /\ sliceFrom link (LastIndex link "/") = Ok "/db"
  /\ index0 (Split link ":") = Ok "/db"
  /\ rewriteLink link = Ok link.
Proof. exact (link_roundtrip "/db" "db" eq_refl eq_refl). Defined.

Lemma runtimeConfig_shared_config_witness :
  let h' := (runtimeConfig ex_container ex_test_heap).2 in
  (IsTugbotCandidate ex_no_image ex_test_heap).1 = Ok true
  /\ Config_of ex_no_image h' = (Ok (runtimeConfig_spec ex_cfg ex_test_img ex_hc), h')
  /\ IsTugbotCandidate ex_no_image h' = (Ok false, h').
Proof.
  pose proof (runtimeConfig_shared_config ex_test_heap ex_container ex_ci ex_ii 1%positive
                2%positive 3%positive ex_cfg ex_test_img ex_hc eq_refl eq_refl eq_refl
                eq_refl eq_refl eq_refl eq_refl eq_refl ex_no_image _ eq_refl eq_refl)
    as [Hread Hgone].
  exact (conj eq_refl (conj Hread (Hgone eq_refl))).
Defined.
