(* ===== verification/Frame.v ===== *)
(** * Frame: what a method of [Container] reads and what it writes

    The methods of [src/container/container.go] reach the heap through the
    three pointers of a container: to its configuration, to the configuration
    of its image and to its host configuration.  This file says so in two
    ways.  [respects (agree c) m]: from two heaps that hold the same objects
    behind the pointers of [c], the method [m] of [c] returns the same
    outcome and leaves the same objects there.  [preserves (writes_only ..)
    m]: whatever else the heap holds is left as it was.  Together they give
    the frame rule of the writers: a call of [runtimeConfig] or [hostConfig]
    on one container changes nothing for a container whose objects are
    others, which is the other side of what [Container] shows for containers
    that share an object. *)

From stdpp Require Import strings gmap.
From S2P Require Import Prelude GoStrings DockerTypes Util Container.

Local Open Scope go_scope.

(** ** Footprints *)

(** Where the pointers of a container lead. *)
Definition cfg_loc (c : Container) : option loc :=
  ci ← containerInfo c; ContainerInfo.Config ci.
Definition img_loc (c : Container) : option loc :=
  ii ← imageInfo c; ImageInfo.Config ii.
Definition host_loc (c : Container) : option loc :=
  ci ← containerInfo c; ContainerInfo.HostConfig ci.

(** Two heaps hold the same configurations behind [lc] and [li] and the same
    host configuration behind [lh]. *)
Definition agree_at (lc li lh : option loc) : relation heap := fun h h' =>
  (forall l, lc = Some l \/ li = Some l -> configs h !! l = configs h' !! l)
  /\ (forall l, lh = Some l -> hostConfigs h !! l = hostConfigs h' !! l).

(** Two heaps hold the same objects behind the pointers of [c]. *)
Definition agree (c : Container) : relation heap :=
  agree_at (cfg_loc c) (img_loc c) (host_loc c).

(** [h'] differs from [h] at most in the configuration behind [lc] and the
    host configuration behind [lh]. *)
Definition writes_only (lc lh : option loc) : relation heap := fun h h' =>
  (forall l, lc <> Some l -> configs h' !! l = configs h !! l)
  /\ (forall l, lh <> Some l -> hostConfigs h' !! l = hostConfigs h !! l).

(** What [c] may write is nothing that [c'] reads. *)
Definition separate (c c' : Container) : Prop :=
  (forall l, cfg_loc c = Some l -> cfg_loc c' <> Some l /\ img_loc c' <> Some l)
  /\ (forall l, host_loc c = Some l -> host_loc c' <> Some l).

(** The outcomes of the eight methods that only read, on a heap. *)
Definition readings (c : Container) (h : heap)
  : result string * result string * result string * result string
    * result (list string) * result bool * result string * result bool :=
  ((ID c h).1, (Name c h).1, (ImageID c h).1, (ImageName c h).1,
   (Links c h).1, (IsTugbot c h).1, (StopSignal c h).1, (IsTugbotCandidate c h).1).

(** A container whose configuration is the object that is the image's
    configuration for [ex_container], and that has no host configuration. *)
Definition ex_other : Container :=
  NewContainer
    (Some (ContainerInfo.mk "9a0b" "/other" (Some 2%positive) None
             (Some (State.mk "exited"))))
    (Some ex_ii).

(** ** The relations *)

#[export] Instance agree_at_equiv lc li lh : Equivalence (agree_at lc li lh).
Proof.
  split.
  - intros h. by split.
  - intros h h' [Hc Hh]. split; intros l Hl; symmetry; auto.
  - intros h1 h2 h3 [Hc Hh] [Hc' Hh']. split; intros l Hl.
    + by rewrite Hc, Hc'.
    + by rewrite Hh, Hh'.
Qed.

#[export] Instance agree_equiv c : Equivalence (agree c).
Proof. apply _. Qed.

(** Whether two containers are separate is decided from their pointers. *)
Lemma separate_pointers c c' :
  separate c c' <->
  from_option (fun l => cfg_loc c' <> Some l /\ img_loc c' <> Some l) True (cfg_loc c)
  /\ from_option (fun l => host_loc c' <> Some l) True (host_loc c).
Proof. unfold separate. split; intros [H1 H2]; split; by apply from_option_forall. Qed.

#[export] Instance separate_dec c c' : Decision (separate c c').
Proof.
  refine (cast_if (decide
    (from_option (fun l => cfg_loc c' <> Some l /\ img_loc c' <> Some l) True (cfg_loc c)
     /\ from_option (fun l => host_loc c' <> Some l) True (host_loc c))));
    by rewrite separate_pointers.
Defined.

#[export] Instance writes_only_preorder lc lh : PreOrder (writes_only lc lh).
Proof.
  split.
  - intros h. by split.
  - intros h1 h2 h3 [Hc Hh] [Hc' Hh']. split; intros l Hl.
    + by rewrite Hc', Hc.
    + by rewrite Hh', Hh.
Qed.

(** The frame: what is written for [c] leaves the objects of a separate
    container as they were. *)
Lemma writes_only_agree c c' h h' :
  separate c c' -> writes_only (cfg_loc c) (host_loc c) h h' -> agree c' h h'.
Proof.
  intros [Sc Sh] [Wc Wh]. split; intros l Hl; symmetry.
  - apply Wc. intros Hc. destruct (Sc l Hc). naive_solver.
  - apply Wh. intros Hc. by destruct (Sh l Hc).
Qed.

(** ** What the loads and stores write *)

Lemma preserves_deref {S A B} (R : relation S) `{!Reflexive R} (p : option A)
    (k : A -> prog S B) :
  (forall a, p = Some a -> preserves R (k a)) -> preserves R (x <- deref p ;; k x).
Proof. intros Hk. destruct p as [a|]; [exact (Hk a eq_refl) | by intros s]. Qed.

Section WritesOnly.
Context (lc lh : option loc).

Lemma storeConfig_writes_only f : preserves (writes_only lc lh) (storeConfig lc f).
Proof.
  intros h. unfold storeConfig. destruct lc as [l|]; [|done].
  destruct (configs h !! l); [|done]. split; [|done].
  intros l' Hl'. cbn. apply lookup_insert_ne. congruence.
Qed.

Lemma storeHostConfig_writes_only f :
  preserves (writes_only lc lh) (storeHostConfig lh f).
Proof.
  intros h. unfold storeHostConfig. destruct lh as [l|]; [|done].
  destruct (hostConfigs h !! l); [|done]. split; [done|].
  intros l' Hl'. cbn. apply lookup_insert_ne. congruence.
Qed.

End WritesOnly.

#[export] Hint Resolve storeConfig_writes_only storeHostConfig_writes_only : go.
#[export] Hint Extern 2 (preserves (writes_only _ _) _) =>
  apply preserves_sub; [apply _|] : go.

Lemma exposePort_writes_only lc lh p : preserves (writes_only lc lh) (exposePort lc p).
Proof. unfold exposePort. solve_preserves. Qed.

Lemma hostConfig_body_writes_only lc lh i :
  preserves (writes_only lc lh) (hostConfig_body lh i).
Proof. unfold hostConfig_body. solve_preserves. Qed.

#[export] Hint Resolve exposePort_writes_only hostConfig_body_writes_only : go.

(** [runtimeConfig] writes the container's configuration and nothing else;
    [hostConfig] its host configuration and nothing else. *)
Lemma runtimeConfig_writes_only c :
  preserves (writes_only (cfg_loc c) (host_loc c)) (runtimeConfig c).
Proof.
  unfold runtimeConfig. apply preserves_deref; [apply _|]. intros ci Hci.
  unfold cfg_loc, host_loc. rewrite Hci. cbn [mbind option_bind]. solve_preserves.
Qed.

Lemma hostConfig_writes_only c :
  preserves (writes_only (cfg_loc c) (host_loc c)) (hostConfig c).
Proof.
  unfold hostConfig. apply preserves_deref; [apply _|]. intros ci Hci.
  unfold cfg_loc, host_loc. rewrite Hci. cbn [mbind option_bind]. solve_preserves.
Qed.

(** ** What the loads and stores depend on *)

Section RespectsDeref.
Context {S A B : Type} (E : relation S).

Lemma respects_deref (p : option A) : respects E (deref p).
Proof. by destruct p. Qed.

Lemma respects_deref_Some (a : A) (k : A -> prog S B) :
  respects E (k a) -> respects E (x <- deref (Some a) ;; k x).
Proof. done. Qed.

Lemma respects_deref_None (k : A -> prog S B) : respects E (x <- deref None ;; k x).
Proof. done. Qed.

End RespectsDeref.

Section AgreeAt.
Context (lc li lh : option loc).
Local Abbreviation E := (agree_at lc li lh).

Lemma loadConfig_respects_cfg : respects E (loadConfig lc).
Proof.
  intros h h' [Hc Hh]. unfold loadConfig. destruct lc as [l|]; [|done].
  rewrite <- (Hc l) by auto. by destruct (configs h !! l).
Qed.

Lemma loadConfig_respects_img : respects E (loadConfig li).
Proof.
  intros h h' [Hc Hh]. unfold loadConfig. destruct li as [l|]; [|done].
  rewrite <- (Hc l) by auto. by destruct (configs h !! l).
Qed.

Lemma loadHostConfig_respects : respects E (loadHostConfig lh).
Proof.
  intros h h' [Hc Hh]. unfold loadHostConfig. destruct lh as [l|]; [|done].
  rewrite <- (Hh l) by auto. by destruct (hostConfigs h !! l).
Qed.

Lemma storeConfig_respects f : respects E (storeConfig lc f).
Proof.
  intros h h' [Hc Hh]. unfold storeConfig. destruct lc as [l|]; [|done].
  rewrite <- (Hc l) by auto. destruct (configs h !! l) as [v|]; [|done].
  split; [done|]. split; [|done]. intros l' Hl'. cbn.
  destruct (decide (l' = l)) as [->|Hne]; [by rewrite !lookup_insert_eq|].
  rewrite !lookup_insert_ne by done. by apply Hc.
Qed.

Lemma storeHostConfig_respects f : respects E (storeHostConfig lh f).
Proof.
  intros h h' [Hc Hh]. unfold storeHostConfig. destruct lh as [l|]; [|done].
  rewrite <- (Hh l) by auto. destruct (hostConfigs h !! l) as [v|]; [|done].
  split; [done|]. split; [done|]. intros l' [= ->]. cbn.
  by rewrite !lookup_insert_eq.
Qed.

End AgreeAt.

#[export] Hint Resolve respects_deref loadConfig_respects_cfg loadConfig_respects_img
  loadHostConfig_respects storeConfig_respects storeHostConfig_respects : go.

(** Decompose a method into its statements, keeping what a dereference of
    the container's own pointers returns. *)
Ltac footprint :=
  repeat first
    [ progress intros
    | solve [eauto with go]
    | lazymatch goal with
      | |- respects _ (bind (deref (Some _)) _) => apply respects_deref_Some
      | |- respects _ (bind (deref None) _) => apply respects_deref_None
      | |- respects _ (bind _ _) => apply respects_bind
      | |- respects _ (forEach _ _) => apply respects_forEach
      | |- respects _ (when _ _) => apply respects_when
      end
    | case_match ].

(** The relation and the method, for a container given by its parts. *)
Ltac open_container c :=
  destruct c as [? [?ci|] [?ii|]];
  unfold agree, cfg_loc, img_loc, host_loc;
  cbn [containerInfo imageInfo mbind option_bind].

Lemma exposePort_respects lc li lh p : respects (agree_at lc li lh) (exposePort lc p).
Proof. unfold exposePort. footprint. Qed.

Lemma hostConfig_body_respects lc li lh i :
  respects (agree_at lc li lh) (hostConfig_body lh i).
Proof. unfold hostConfig_body. footprint. Qed.

#[export] Hint Resolve exposePort_respects hostConfig_body_respects : go.

(** ** The methods *)

Lemma Config_of_respects c : respects (agree c) (Config_of c).
Proof. unfold Config_of. open_container c; footprint. Qed.

Lemma ID_respects c : respects (agree c) (ID c).
Proof. unfold ID. open_container c; footprint. Qed.

Lemma Name_respects c : respects (agree c) (Name c).
Proof. unfold Name. open_container c; footprint. Qed.

Lemma ImageID_respects c : respects (agree c) (ImageID c).
Proof. unfold ImageID. open_container c; footprint. Qed.

Lemma ImageName_respects c : respects (agree c) (ImageName c).
Proof. unfold ImageName, Config_of. open_container c; footprint. Qed.

Lemma Links_respects c : respects (agree c) (Links c).
Proof. unfold Links. open_container c; footprint. Qed.

Lemma IsTugbot_respects c : respects (agree c) (IsTugbot c).
Proof. unfold IsTugbot, Config_of. open_container c; footprint. Qed.

Lemma StopSignal_respects c : respects (agree c) (StopSignal c).
Proof. unfold StopSignal, Config_of. open_container c; footprint. Qed.

Lemma IsTugbotCandidate_respects c : respects (agree c) (IsTugbotCandidate c).
Proof. unfold IsTugbotCandidate, Config_of. open_container c; footprint. Qed.

Lemma hostConfig_respects c : respects (agree c) (hostConfig c).
Proof. unfold hostConfig. open_container c; footprint. Qed.

Lemma runtimeConfig_respects c : respects (agree c) (runtimeConfig c).
Proof.
  unfold runtimeConfig. pose proof (ImageName_respects c) as Hname. revert Hname.
  open_container c; intros Hname; footprint.
Qed.

(** ** The pointers the writers return *)

Lemma returns_only_deref_Some {S A B} (P : B -> Prop) (a : A) (k : A -> prog S B) :
  returns_only P (k a) -> returns_only P (x <- deref (Some a) ;; k x).
Proof. done. Qed.

Lemma returns_only_deref_None {S A B} (P : B -> Prop) (k : A -> prog S B) :
  returns_only P (x <- deref None ;; k x).
Proof. done. Qed.

Ltac returns :=
  repeat first
    [ progress intros
    | lazymatch goal with
      | |- returns_only _ (bind (deref (Some _)) _) => apply returns_only_deref_Some
      | |- returns_only _ (bind (deref None) _) => apply returns_only_deref_None
      | |- returns_only _ (bind _ _) => apply returns_only_bind
      | |- returns_only _ (ret _) => by apply returns_only_ret
      end ].

(** [runtimeConfig] returns the container's pointer to its configuration,
    [hostConfig] its pointer to the host configuration. *)
Lemma runtimeConfig_returns c : returns_only (fun p => p = cfg_loc c) (runtimeConfig c).
Proof.
  unfold runtimeConfig, cfg_loc. destruct c as [? [ci|] [ii|]];
    cbn [containerInfo imageInfo mbind option_bind]; returns.
Qed.

Lemma hostConfig_returns c : returns_only (fun p => p = host_loc c) (hostConfig c).
Proof.
  unfold hostConfig, host_loc. destruct c as [? [ci|] [ii|]];
    cbn [containerInfo imageInfo mbind option_bind]; returns.
Qed.

#[export] Hint Resolve runtimeConfig_writes_only hostConfig_writes_only : go.

(** ** The frame rule *)

(** What the reading methods return depends on the container's own objects
    only. *)
#[export] Instance readings_proper c : Proper (agree c ==> eq) (readings c).
Proof.
  intros h h' Ha. unfold readings.
  rewrite (respects_fst _ _ h h' (ID_respects c) Ha),
    (respects_fst _ _ h h' (Name_respects c) Ha),
    (respects_fst _ _ h h' (ImageID_respects c) Ha),
    (respects_fst _ _ h h' (ImageName_respects c) Ha),
    (respects_fst _ _ h h' (Links_respects c) Ha),
    (respects_fst _ _ h h' (IsTugbot_respects c) Ha),
    (respects_fst _ _ h h' (StopSignal_respects c) Ha),
    (respects_fst _ _ h h' (IsTugbotCandidate_respects c) Ha).
  done.
Qed.

(** The heaps the two writers leave agree with the heap before, for a
    separate container. *)
Lemma writers_agree c c' h :
  separate c c' ->
  agree c' h (runtimeConfig c h).2 /\ agree c' h (hostConfig c h).2.
Proof.
  intros Hs. split; eapply writes_only_agree; try done.
  - apply runtimeConfig_writes_only.
  - apply hostConfig_writes_only.
Qed.

(** C24. The frame rule of the writers.  When the objects behind the
    pointers of [c'] are none of those that [c] may write, a call of
    [runtimeConfig] or of [hostConfig] on [c], whether it returns or panics,
    changes nothing for [c']: its eight reading methods return what they
    returned before, and its own [runtimeConfig] and [hostConfig] have the
    outcome they would have had and leave the same objects behind its
    pointers. *)
Theorem writers_frame c c' h h1 :
  separate c c' ->
  h1 = (runtimeConfig c h).2 \/ h1 = (hostConfig c h).2 ->
  readings c' h1 = readings c' h
  /\ (runtimeConfig c' h1).1 = (runtimeConfig c' h).1
  /\ (hostConfig c' h1).1 = (hostConfig c' h).1
  /\ agree c' (runtimeConfig c' h1).2 (runtimeConfig c' h).2
  /\ agree c' (hostConfig c' h1).2 (hostConfig c' h).2.
Proof.
  intros Hs Hh1. destruct (writers_agree c c' h Hs) as [Hr Hh].
  assert (Ha : agree c' h1 h) by (by destruct Hh1 as [-> | ->]).
  split; [by rewrite Ha|].
  destruct (runtimeConfig_respects c' h1 h Ha), (hostConfig_respects c' h1 h Ha).
  done.
Qed.

(** ** The frame rule at the concrete containers *)

Lemma ex_separate : separate ex_container ex_other.
Proof. compute_done. Qed.

Lemma writers_frame_witness :
  let h1 := (runtimeConfig ex_container ex_heap).2 in
  readings ex_other h1 = readings ex_other ex_heap
  /\ (runtimeConfig ex_other h1).1 = (runtimeConfig ex_other ex_heap).1
  /\ (hostConfig ex_other h1).1 = (hostConfig ex_other ex_heap).1
  /\ agree ex_other (runtimeConfig ex_other h1).2 (runtimeConfig ex_other ex_heap).2
  /\ agree ex_other (hostConfig ex_other h1).2 (hostConfig ex_other ex_heap).2.
Proof.
  exact (writers_frame ex_container ex_other ex_heap _ ex_separate (or_introl eq_refl)).
Defined.
