(* ===== verification/Ticker.v ===== *)
(** * Ticker: the polling driver and its client

    The driver [RunTickerTestContainers] of [actions/ticker.go] and the client
    interface it calls, modelled from the specification (sections 4.2, 5 and
    6): the class [Client], the law [ClientKeepsObjects], the loop and its
    parts, and a scripted client that never panics.  The theorems are proved
    for every client, or for every client that satisfies the law.  The
    transition system of the driver is in [TickerSteps], the mock client and
    the tests of [src/actions/ticker_test.go] in [TickerTests].

    Time is what the driver can observe of it: the number of ticks delivered,
    and at which suspension point the cancellation becomes visible.  The
    driver is a program over a [world]: the heap of metadata objects, the
    client's state, the client calls made so far and the number of suspension
    points passed. *)

From S2P Require Import Prelude GoStrings DockerTypes Container.
From stdpp Require Import strings gmap.

Local Open Scope go_scope.

(** ** The client interface *)

(** Go's [error], by its message. *)
Definition error : Type := string.

(** [container.Filter]: a predicate on containers, applied by the client. *)
Definition Filter : Type := Container -> bool.

(** What the driver asks of a client with state [C].  The client sees the
    metadata objects with its own state. *)
Class Client (C : Type) : Type := {
  ListContainers : Filter -> prog (heap * C) (list Container * option error);
  StartContainerFrom : Container -> prog (heap * C) (option error);
}.

(** The store after a client call holds the objects it held before. *)
Definition keeps_objects {C} : relation (heap * C) := fun s s' => s'.1 = s.1.

(** A client that leaves the metadata objects alone. *)
Class ClientKeepsObjects (C : Type) `{Client C} : Prop := {
  ListContainers_objects f : preserves keeps_objects (ListContainers f);
  StartContainerFrom_objects c : preserves keeps_objects (StartContainerFrom c);
}.

(** ** The driver *)

(** A call the driver made to its client, with the error it got back. *)
Inductive call : Type :=
| Listed (err : option error)
| Started (c : Container) (err : option error).

(** The two states of the driver; [Stopped] is terminal. *)
Inductive state : Type := Running | Stopped.

#[export] Instance state_eq_dec : EqDecision state.
Proof. solve_decision. Defined.

Record world (C : Type) : Type := mkWorld {
  objects : heap;
  client : C;
  calls : list call;
  points : nat;
}.
Arguments mkWorld {C} _ _ _ _.
Arguments objects {C} _.
Arguments client {C} _.
Arguments calls {C} _.
Arguments points {C} _.

(** The containers of the [Started] calls, in order. *)
Definition started (cs : list call) : list Container :=
  omap (fun k => match k with Started c _ => Some c | Listed _ => None end) cs.

Section Driver.
Context {C : Type} `{Client C}.

(** The filter the driver passes, and the suspension point from which the
    cancellation is visible ([None]: never cancelled). *)
Context (containerFilter : Filter) (cancelAfter : option nat).

(** A method of [Container], run on the world's objects. *)
Definition onObjects {A} (m : prog heap A) : prog (world C) A :=
  fun w => let '(r, h) := m (objects w) in
           (r, mkWorld h (client w) (calls w) (points w)).

(** A call to the client, run on the world's objects and client state. *)
Definition onClient {A} (m : prog (heap * C) A) : prog (world C) A :=
  fun w => let '(r, (h, cl)) := m (objects w, client w) in
           (r, mkWorld h cl (calls w) (points w)).

(** The world after the call [k] is noted. *)
Definition recorded (k : call) (w : world C) : world C :=
  mkWorld (objects w) (client w) (calls w ++ [k]) (points w).

Definition record (k : call) : prog (world C) unit := modify (recorded k).

(** Whether the cancellation is visible at the suspension point the world is
    at, and the world after that point. *)
Definition visible (w : world C) : bool :=
  match cancelAfter with
  | Some n => bool_decide (n <= points w)%nat
  | None => false
  end.

Definition passed (w : world C) : world C :=
  mkWorld (objects w) (client w) (calls w) (S (points w)).

(** A suspension point: the driver looks at the cancellation signal. *)
Definition cancelled : prog (world C) bool := fun w => (Ok (visible w), passed w).

(** One container of the list: skipped when it is the agent itself or not a
    candidate, started otherwise; an error of the start is logged and
    dropped. *)
Definition startIfCandidate (c : Container) : prog (world C) unit :=
  self <- onObjects (IsTugbot c) ;;
  if self then ret tt else
  candidate <- onObjects (IsTugbotCandidate c) ;;
  if candidate then
    err <- onClient (StartContainerFrom c) ;;
    record (Started c err)
  else ret tt.

(** The containers of one tick, one after the other, with a look at the
    cancellation before each. *)
Fixpoint startCandidates (cs : list Container) : prog (world C) state :=
  match cs with
  | [] => ret Running
  | c :: rest =>
      stop <- cancelled ;;
      if stop then ret Stopped else
      startIfCandidate c ;;
      startCandidates rest
  end.

(** One discovery-and-launch pass.  A failed listing ends the pass. *)
Definition tick : prog (world C) state :=
  r <- onClient (ListContainers containerFilter) ;;
  record (Listed r.2) ;;
  match r.2 with
  | Some _ => ret Running
  | None => startCandidates r.1
  end.

(** The loop, for the [ticks] first ticks of the timer: the first pass runs
    at once, and after each pass the driver waits for the next tick or the
    cancellation.  [Running] after [ticks] passes means that the driver is
    waiting for its next tick. *)
Fixpoint RunTickerTestContainers (ticks : nat) : prog (world C) state :=
  match ticks with
  | 0 => ret Running
  | S n =>
      s <- tick ;;
      match s with
      | Stopped => ret Stopped
      | Running =>
          stop <- cancelled ;;
          if stop then ret Stopped else RunTickerTestContainers n
      end
  end.

End Driver.

(** Whether the driver starts a container, from the objects it reads. *)
Definition launchable (h : heap) (c : Container) : bool :=
  match (IsTugbot c h).1, (IsTugbotCandidate c h).1 with
  | Ok false, Ok true => true
  | _, _ => false
  end.

(** [w'] comes after [w]: the same objects, and more calls, every started
    container being one the classifier lets through. *)
Definition extends {C} (w w' : world C) : Prop :=
  objects w' = objects w
  /\ exists new, calls w' = calls w ++ new
       /\ Forall (fun c => launchable (objects w) c = true) (started new).

(** The classifier answers for [c] without a panic. *)
Definition classifies (h : heap) (c : Container) : Prop :=
  match (IsTugbot c h).1 with
  | Ok true => True
  | Ok false => is_Ok (IsTugbotCandidate c h).1 = true
  | Panic _ => False
  end.

#[export] Instance classifies_dec h c : Decision (classifies h c).
Proof. unfold classifies. destruct (IsTugbot c h).1 as [[]|]; apply _. Defined.

(** [w'] is at a later suspension point than [w], or at the same. *)
Definition later {C} (w w' : world C) : Prop := (points w <= points w')%nat.

(** The names of the started containers, as the tests compare them. *)
Definition startedNames {C} (w : world C) : list string :=
  omap (fun c => ContainerInfo.Name <$> containerInfo c) (started (calls w)).

(** [w'] is at the same suspension point as [w]. *)
Definition steady {C} (w w' : world C) : Prop := points w' = points w.

(** ** A scripted client

    A client that answers the listings from a script and every start with
    the same outcome; it never panics. *)

Record Scripted : Type := mkScripted {
  answers : list (list Container * option error);
  startOutcome : option error;
}.

#[export] Instance scripted_client : Client Scripted := {
  ListContainers _ := fun s =>
    (Ok (default ([], None) (head (answers s.2))),
     (s.1, mkScripted (tail (answers s.2)) (startOutcome s.2)));
  StartContainerFrom _ := fun s => (Ok (startOutcome s.2), s);
}.

(** ** Concrete worlds *)

(** The filter that selects every container. *)
Definition anyContainer : Filter := fun _ => true.

(** A world whose client lists a candidate and a running container at once,
    then nothing, and refuses every start. *)
Definition ex_scripted : world Scripted :=
  mkWorld ex_heap (mkScripted [([ex_container; ex_running], None)] (Some "refused")) [] 0.

(** A world whose client cannot list. *)
Definition ex_down : world Scripted :=
  mkWorld ex_heap (mkScripted [([], Some "down")] None) [] 0.

(** ** The driver against the interface *)

Section DriverLaws.
Context {C : Type} `{ClientKeepsObjects C}.
Context (containerFilter : Filter) (cancelAfter : option nat).
Implicit Types (w : world C) (c : Container).

Local Abbreviation startCandidatesC := (startCandidates (C:=C) cancelAfter).
Local Abbreviation tickC := (tick (C:=C) containerFilter cancelAfter).
Local Abbreviation RunTicker := (RunTickerTestContainers (C:=C) containerFilter cancelAfter).

#[local] Instance extends_preorder : PreOrder (@extends C).
Proof.
  split.
  - intros w. split; [done|]. exists []. by rewrite app_nil_r.
  - intros w1 w2 w3 [Ho (n1 & Hc1 & H1)] [Ho' (n2 & Hc2 & H2)].
    split; [congruence|]. exists (n1 ++ n2). rewrite Hc2, Hc1, <- app_assoc.
    split; [done|]. unfold started in *. rewrite omap_app, Forall_app.
    split; [done|]. by rewrite <- Ho.
Qed.

Lemma world_eta w : mkWorld (objects w) (client w) (calls w) (points w) = w.
Proof. by destruct w. Qed.

Lemma onObjects_read_only {A} (m : prog heap A) w :
  read_only m -> onObjects m w = ((m (objects w)).1, w).
Proof.
  intros Hm. unfold onObjects. specialize (Hm (objects w)).
  destruct (m (objects w)) as [r h]. cbn in *. subst h. by rewrite world_eta.
Qed.

Lemma onClient_extends {A} (m : prog (heap * C) A) :
  preserves keeps_objects m -> preserves extends (onClient m).
Proof.
  intros Hm w. unfold onClient. specialize (Hm (objects w, client w)).
  destruct (m _) as [r [h cl]]. split; [exact Hm|]. exists []. by rewrite app_nil_r.
Qed.

Lemma cancelled_extends : preserves extends (cancelled (C:=C) cancelAfter).
Proof. intros w. split; [done|]. exists []. by rewrite app_nil_r. Qed.

Lemma record_Listed_extends e : preserves extends (record (C:=C) (Listed e)).
Proof. intros w. split; [done|]. by exists [Listed e]. Qed.

Lemma record_Started_extends c e w :
  launchable (objects w) c = true ->
  extends w (record (C:=C) (Started c e) w).2.
Proof. intros Hc. split; [done|]. exists [Started c e]. split; [done|]. by constructor. Qed.

Lemma startIfCandidate_extends c : preserves extends (startIfCandidate c).
Proof.
  intros w. unfold startIfCandidate, bind.
  rewrite onObjects_read_only by auto with go.
  destruct (IsTugbot c (objects w)).1 as [[]|] eqn:Hs; try reflexivity.
  rewrite onObjects_read_only by auto with go.
  destruct (IsTugbotCandidate c (objects w)).1 as [[]|] eqn:Hc; try reflexivity.
  pose proof (onClient_extends _ (StartContainerFrom_objects c) w) as Hw.
  destruct (onClient (StartContainerFrom c) w) as [[e|p] w']; [|exact Hw].
  etrans; [exact Hw|]. apply record_Started_extends.
  destruct Hw as [Ho _]. cbn in Ho. unfold launchable. by rewrite Ho, Hs, Hc.
Qed.

Lemma startCandidates_extends cs : preserves extends (startCandidatesC cs).
Proof.
  induction cs as [|c rest IH]; [apply preserves_ret, _|]. cbn [startCandidates].
  apply preserves_bind; [apply _ | apply cancelled_extends |].
  intros []; [apply preserves_ret, _|].
  apply preserves_bind; [apply _ | apply startIfCandidate_extends | done].
Qed.

Lemma tick_extends : preserves extends tickC.
Proof.
  unfold tick.
  apply preserves_bind; [apply _ | apply onClient_extends, ListContainers_objects |].
  intros [cs e]. apply preserves_bind; [apply _ | apply record_Listed_extends |].
  intros _. destruct e; [apply preserves_ret, _ | apply startCandidates_extends].
Qed.

Lemma RunTicker_extends ticks : preserves extends (RunTicker ticks ).
Proof.
  induction ticks as [|n IH]; [apply preserves_ret, _|]. cbn [RunTickerTestContainers].
  apply preserves_bind; [apply _ | apply tick_extends |].
  intros []; [|apply preserves_ret, _].
  apply preserves_bind; [apply _ | apply cancelled_extends |].
  intros []; [apply preserves_ret, _ | done].
Qed.

(** C4. The driver starts only what the classifier lets through: whatever
    the client answers, for every number of ticks, with or without
    cancellation and also when a call panics, the metadata objects are left
    as they were and every container passed to [StartContainerFrom] is one
    for which [IsTugbot] answered false and [IsTugbotCandidate] true.  The
    agent's own container is never started. *)
Theorem driver_starts_only_candidates ticks w :
  let w' := (RunTickerTestContainers containerFilter cancelAfter ticks w).2 in
  objects w' = objects w
  /\ exists new, calls w' = calls w ++ new
       /\ Forall (fun c => (IsTugbot c (objects w)).1 = Ok false
                           /\ (IsTugbotCandidate c (objects w)).1 = Ok true)
            (started new).
Proof.
  destruct (RunTicker_extends ticks w) as [Ho (new & Hc & Hall)].
  split; [done|]. exists new. split; [done|].
  eapply Forall_impl; [exact Hall|]. intros c. unfold launchable.
  by repeat case_match.
Qed.

End DriverLaws.

(** ** Cancellation *)

Section DriverCancel.
Context {C : Type} `{Client C}.
Context (containerFilter : Filter) (cancelAfter : option nat).
Implicit Types (w : world C) (c : Container).

Local Abbreviation startCandidatesC := (startCandidates (C:=C) cancelAfter).
Local Abbreviation tickC := (tick (C:=C) containerFilter cancelAfter).
Local Abbreviation RunTicker := (RunTickerTestContainers (C:=C) containerFilter cancelAfter).
Local Abbreviation cancelledC := (cancelled (C:=C) cancelAfter).

#[local] Instance later_preorder : PreOrder (@later C).
Proof. split; [intros w | intros w1 w2 w3]; unfold later; lia. Qed.

Lemma onObjects_later {A} (m : prog heap A) : preserves later (onObjects (C:=C) m).
Proof. intros w. unfold onObjects, later. destruct (m _). cbn. lia. Qed.

Lemma onClient_later {A} (m : prog (heap * C) A) : preserves later (onClient m).
Proof. intros w. unfold onClient, later. destruct (m _) as [r [h cl]]. cbn. lia. Qed.

Lemma record_later k : preserves later (record (C:=C) k).
Proof. intros w. unfold later. cbn. lia. Qed.

Lemma cancelled_later : preserves later cancelledC.
Proof. intros w. unfold later. cbn. lia. Qed.

#[local] Hint Resolve onObjects_later onClient_later record_later cancelled_later : go.

Lemma startCandidates_later cs : preserves later (startCandidatesC cs).
Proof.
  induction cs as [|c rest IH]; cbn [startCandidates];
    unfold startIfCandidate; solve_preserves.
Qed.

Lemma tick_later : preserves later tickC.
Proof.
  pose proof startCandidates_later. unfold tick. solve_preserves.
Qed.

(** Nothing but a suspension point moves the count of points. *)
#[local] Instance steady_preorder : PreOrder (@steady C).
Proof. split; [intros w | intros w1 w2 w3]; unfold steady; congruence. Qed.

Lemma onObjects_steady {A} (m : prog heap A) : preserves steady (onObjects (C:=C) m).
Proof. intros w. unfold onObjects, steady. by destruct (m _). Qed.

Lemma onClient_steady {A} (m : prog (heap * C) A) : preserves steady (onClient m).
Proof. intros w. unfold onClient, steady. by destruct (m _) as [r [h cl]]. Qed.

Lemma record_steady k : preserves steady (record (C:=C) k).
Proof. by intros w. Qed.

Lemma startIfCandidate_steady c : preserves steady (startIfCandidate (C:=C) c).
Proof.
  pose proof (@onObjects_steady). pose proof (@onClient_steady). pose proof record_steady.
  unfold startIfCandidate. solve_preserves.
Qed.

Lemma cancelled_None w :
  cancelAfter = None ->
  cancelledC w = (Ok false, mkWorld (objects w) (client w) (calls w) (S (points w))).
Proof. unfold cancelled. by intros ->. Qed.

Lemma cancelled_Some n w :
  cancelAfter = Some n ->
  cancelledC w = (Ok (bool_decide (n <= points w)%nat),
                 mkWorld (objects w) (client w) (calls w) (S (points w))).
Proof. unfold cancelled. by intros ->. Qed.

(** Without a cancellation no part of the driver stops. *)
Lemma startCandidates_running cs :
  cancelAfter = None -> returns_only (.= Running) (startCandidatesC cs).
Proof.
  intros Hc. induction cs as [|c rest IH]; [by apply returns_only_ret|].
  cbn [startCandidates]. intros w s.
  erewrite bind_run_ok by by apply cancelled_None.
  by apply (returns_only_bind (.= Running) _ _ (fun _ => IH)).
Qed.

Lemma tick_running : cancelAfter = None -> returns_only (.= Running) tickC.
Proof.
  intros Hc. unfold tick. apply returns_only_bind. intros [cs e].
  apply returns_only_bind. intros _.
  destruct e; [by apply returns_only_ret | by apply startCandidates_running].
Qed.

(** Only the cancellation stops the driver: with no cancellation it
    is still running after any number of ticks, whatever the client answers
    (unless a call panics). *)
Lemma Run_not_stopped ticks w :
  cancelAfter = None -> (RunTickerTestContainers containerFilter cancelAfter ticks w).1 <> Ok Stopped.
Proof.
  intros Hc. revert w. induction ticks as [|n IH]; intros w; [done|].
  cbn [RunTickerTestContainers].
  destruct (bind_cases tickC
              (fun s => match s with
                        | Stopped => ret Stopped
                        | Running => stop <- cancelledC ;;
                                     if stop then ret Stopped else RunTicker n
                        end) w)
    as [(p & w' & _ & ->)|(s & w' & Hs & ->)]; [done|].
  assert (s = Running) as -> by (eapply (tick_running Hc w); by rewrite Hs).
  erewrite bind_run_ok by by apply cancelled_None. apply IH.
Qed.

(** A run that is still running after its last tick passed a suspension
    point at each tick, and saw no cancellation at any. *)
Lemma Run_running_points n ticks w w' :
  cancelAfter = Some n -> RunTicker ticks w = (Ok Running, w') ->
  (points w + ticks <= points w')%nat /\ (0 < ticks -> points w' <= n)%nat.
Proof.
  intros Hc. revert w. induction ticks as [|k IH]; intros w.
  { intros [= <-]. lia. }
  cbn [RunTickerTestContainers]. intros (s & w1 & Ht & Hrest)%bind_ok_inv.
  pose proof (tick_later w) as Hl. rewrite Ht in Hl. unfold later in Hl. cbn in Hl.
  destruct s; [|done]. erewrite bind_run_ok in Hrest by by apply cancelled_Some.
  case_bool_decide as Hn; [done|]. pose proof Hrest as [Hle Hn']%IH. cbn [points] in *.
  split; [lia|]. intros _. destruct k; [|lia]. injection Hrest as <-. cbn. lia.
Qed.

(** The cancellation stops the driver: when it is visible from the
    suspension point [n], the driver is not running any more once the timer
    has delivered enough ticks to reach that point ([n + 1] ticks always
    are enough). *)
Lemma Run_not_running n ticks w :
  cancelAfter = Some n -> (0 < ticks)%nat -> (n < points w + ticks)%nat ->
  (RunTickerTestContainers containerFilter cancelAfter ticks w).1 <> Ok Running.
Proof.
  intros Hc Hk Hn Hrun. destruct (RunTicker ticks w) as [r w'] eqn:E. cbn in Hrun. subst r.
  destruct (Run_running_points n ticks w w' Hc E) as [H1 H2]. specialize (H2 Hk). lia.
Qed.

(** C39. The driver stops when it is cancelled, and only then.  With no
    cancellation it is never stopped, after any number of ticks and whatever
    the client answers: an error of a listing or of a start does not end the
    loop.  With the cancellation visible from the suspension point [n], the
    driver is not running any more once the timer has delivered enough ticks
    to reach that point ([n + 1] ticks always are enough). *)
Theorem driver_stops_iff_cancelled ticks w :
  (cancelAfter = None ->
   (RunTickerTestContainers containerFilter cancelAfter ticks w).1 <> Ok Stopped)
  /\ (forall n, cancelAfter = Some n -> (0 < ticks)%nat -> (n < points w + ticks)%nat ->
      (RunTickerTestContainers containerFilter cancelAfter ticks w).1 <> Ok Running).
Proof. split; [apply Run_not_stopped | intros n; apply Run_not_running]. Qed.

(** Once the cancellation is visible, a list of containers is given up at
    its first element. *)
Lemma startCandidates_cancelled n cs w :
  cancelAfter = Some n -> (n <= points w)%nat ->
  (startCandidatesC cs w).1 = Ok (if cs is [] then Running else Stopped)
  /\ calls (startCandidatesC cs w).2 = calls w
  /\ later w (startCandidatesC cs w).2.
Proof.
  intros Hc Hn. destruct cs as [|c rest]; [done|]. cbn [startCandidates].
  erewrite bind_run_ok by by apply cancelled_Some.
  rewrite bool_decide_eq_true_2 by done. cbn. unfold later. cbn. auto.
Qed.

Lemma started_Listed ks e : started (ks ++ [Listed e]) = started ks.
Proof. unfold started. rewrite omap_app. cbn. by rewrite app_nil_r. Qed.

Lemma tick_cancelled n w :
  cancelAfter = Some n -> (n <= points w)%nat ->
  started (calls (tickC w).2) = started (calls w) /\ later w (tickC w).2.
Proof.
  intros Hc Hn. unfold tick.
  destruct (bind_cases (onClient (ListContainers containerFilter))
              (fun r => record (Listed r.2) ;;
                        match r.2 with
                        | Some _ => ret Running
                        | None => startCandidatesC r.1
                        end) w)
    as [(p & w' & Hm & ->)|([cs e] & w' & Hm & ->)];
    pose proof (onClient_later (ListContainers containerFilter) w) as Hl;
    unfold onClient in Hm, Hl; destruct (ListContainers _ _) as [r [h cl]];
    injection Hm as -> <-; [done|].
  unfold bind, record, modify, recorded. cbn beta iota.
  destruct e as [e|]; cbn -[started startCandidates].
  - by rewrite started_Listed.
  - edestruct (startCandidates_cancelled n cs) as (_ & -> & Hl'); [done| |].
    { cbn. exact Hn. }
    cbn -[started]. rewrite started_Listed. split; [done|]. by etrans.
Qed.

(** Bounded cancellation latency: from a suspension point at which
    the cancellation is visible on, the driver starts no container, however
    many ticks the timer still delivers and however long the list of the
    current tick is. *)
Lemma driver_cancelled_starts_nothing n ticks w :
  cancelAfter = Some n -> (n <= points w)%nat ->
  started (calls (RunTickerTestContainers containerFilter cancelAfter ticks w).2) = started (calls w).
Proof.
  intros Hc Hn. destruct ticks as [|k]; [done|]. cbn [RunTickerTestContainers].
  destruct (tick_cancelled n w Hc Hn) as [Hs Hl].
  unfold bind. destruct (tickC w) as [[[]|p] w1]; [|done..].
  cbn [snd] in *. unfold later in Hl.
  rewrite (cancelled_Some n) by done. rewrite bool_decide_eq_true_2 by lia. done.
Qed.

(** The ticks can be delivered in two runs: what the loop does in [a + b]
    ticks is what it does in [a] ticks and, if it is still running, in [b]
    more. *)
Lemma RunTicker_add a b w :
  RunTicker (a + b) w =
    match RunTicker a w with
    | (Ok Running, w1) => RunTicker b w1
    | r => r
    end.
Proof.
  revert w. induction a as [|a IH]; intros w; [done|].
  cbn [Nat.add RunTickerTestContainers]. unfold bind at 1 3.
  destruct (tickC w) as [[[]|p] w1]; [|done..].
  unfold bind, cancelled. destruct (visible cancelAfter w1); [done | apply IH].
Qed.

(** A run that panicked panics whatever the number of further ticks. *)
Lemma RunTicker_panic a b w p w1 :
  RunTicker a w = (Panic p, w1) -> RunTicker (a + b) w = (Panic p, w1).
Proof. intros Hp. by rewrite RunTicker_add, Hp. Qed.

End DriverCancel.

(** ** One pass *)

Section Pass.
Context {C : Type} `{ClientKeepsObjects C}.
Context (containerFilter : Filter) (cancelAfter : option nat).
Implicit Types (w : world C) (c : Container).

Local Abbreviation startCandidatesC := (startCandidates (C:=C) cancelAfter).
Local Abbreviation tickC := (tick (C:=C) containerFilter cancelAfter).

(** The client answers every start, with an error or without. *)
Context (Hstart : forall c s, is_Ok (StartContainerFrom c s).1 = true).

Lemma started_Started ks c e : started (ks ++ [Started c e]) = started ks ++ [c].
Proof. unfold started. by rewrite omap_app. Qed.

Lemma startIfCandidate_starts c w :
  classifies (objects w) c ->
  exists w', startIfCandidate c w = (Ok tt, w')
    /\ objects w' = objects w /\ points w' = points w
    /\ started (calls w') =
         started (calls w) ++ (if launchable (objects w) c then [c] else []).
Proof.
  unfold classifies, launchable, startIfCandidate, bind.
  rewrite onObjects_read_only by auto with go.
  destruct (IsTugbot c (objects w)).1 as [[]|]; [intros _| |done].
  { exists w. by rewrite app_nil_r. }
  rewrite onObjects_read_only by auto with go.
  destruct (IsTugbotCandidate c (objects w)).1 as [[]|]; [intros _| |done].
  2: { exists w. by rewrite app_nil_r. }
  pose proof (StartContainerFrom_objects c (objects w, client w)) as Ho.
  pose proof (Hstart c (objects w, client w)) as Hok. unfold onClient.
  destruct (StartContainerFrom c _) as [[e|p] [h cl]]; [|done].
  eexists. split; [done|]. cbn -[started]. by rewrite started_Started.
Qed.

Lemma startCandidates_starts cs w :
  cancelAfter = None -> Forall (classifies (objects w)) cs ->
  exists w', startCandidatesC cs w = (Ok Running, w')
    /\ objects w' = objects w
    /\ started (calls w') =
         started (calls w) ++ filter (fun c => launchable (objects w) c = true) cs.
Proof.
  intros Hc. revert w. induction cs as [|c rest IH]; intros w Hcs.
  { exists w. by rewrite app_nil_r. }
  apply Forall_cons in Hcs as [Hc1 Hrest]. cbn [startCandidates].
  erewrite bind_run_ok by by apply cancelled_None.
  destruct (startIfCandidate_starts c
              (mkWorld (objects w) (client w) (calls w) (S (points w))) Hc1)
    as (w1 & Hrun & Ho & _ & Hs).
  erewrite bind_run_ok by exact Hrun. cbn [objects calls] in *.
  destruct (IH w1) as (w' & -> & Ho' & Hs'); [by rewrite Ho|].
  exists w'. split; [done|]. split; [congruence|].
  rewrite Hs', Hs, Ho, filter_cons, <- app_assoc.
  by destruct (launchable (objects w) c); case_decide.
Qed.

(** C38. One pass starts the candidates, all of them and in the order of
    the list: when the listing succeeds, no cancellation is visible and the
    classifier answers for every listed container, the containers passed to
    [StartContainerFrom] during the pass are exactly the listed ones that are
    not the agent itself and are candidates, in the order listed.  An error
    returned by a start does not keep the later ones from being started. *)
Theorem tick_starts_candidates cs w w1 :
  cancelAfter = None ->
  onClient (ListContainers containerFilter) w = (Ok (cs, None), w1) ->
  Forall (classifies (objects w)) cs ->
  exists w', tick containerFilter cancelAfter w = (Ok Running, w')
    /\ started (calls w') =
         started (calls w) ++ filter (fun c => launchable (objects w) c = true) cs.
Proof.
  intros Hc Hlist Hcs. unfold tick.
  pose proof (onClient_extends _ (ListContainers_objects containerFilter) w) as [Ho _].
  pose proof (onClient_later (ListContainers containerFilter) w) as Hl.
  rewrite Hlist in Ho, Hl. cbn in Ho.
  erewrite bind_run_ok by exact Hlist. unfold bind, record, modify, recorded. cbn beta iota.
  edestruct (startCandidates_starts cs) as (w' & -> & _ & Hs); [done| |].
  { cbn [objects]. by rewrite Ho. }
  exists w'. split; [done|]. revert Hs. cbn [objects calls]. rewrite started_Listed, Ho.
  unfold onClient in Hlist. destruct (ListContainers _ _) as [r [h cl]].
  by injection Hlist as _ <-.
Qed.

(** A failed listing is not fatal: the pass ends there, nothing is
    started, and the driver is still running. *)
Lemma tick_list_failure cs e w w1 :
  onClient (ListContainers containerFilter) w = (Ok (cs, Some e), w1) ->
  tick containerFilter cancelAfter w = (Ok Running, recorded (Listed (Some e)) w1).
Proof. intros Hlist. unfold tick. by erewrite bind_run_ok by exact Hlist. Qed.

End Pass.

(** ** The scripted client keeps the objects and answers every start *)

#[export] Instance scripted_keeps_objects : ClientKeepsObjects Scripted.
Proof. by split; intros arg [h m]. Qed.

Lemma scripted_starts c s : is_Ok (StartContainerFrom (C:=Scripted) c s).1 = true.
Proof. done. Qed.


(** ** The theorems at the concrete worlds *)

Lemma driver_starts_only_candidates_witness :
  let w' := (RunTickerTestContainers anyContainer None 2 ex_scripted).2 in
  objects w' = objects ex_scripted
  /\ exists new, calls w' = calls ex_scripted ++ new
       /\ Forall (fun c => (IsTugbot c (objects ex_scripted)).1 = Ok false
                           /\ (IsTugbotCandidate c (objects ex_scripted)).1 = Ok true)
            (started new).
Proof. exact (driver_starts_only_candidates anyContainer None 2 ex_scripted). Defined.

Lemma tick_starts_candidates_witness :
  exists w', tick anyContainer None ex_scripted = (Ok Running, w')
    /\ started (calls w') =
         started (calls ex_scripted)
         ++ filter (fun c => launchable (objects ex_scripted) c = true)
              [ex_container; ex_running].
Proof.
  refine (tick_starts_candidates anyContainer None scripted_starts
            [ex_container; ex_running] ex_scripted _ eq_refl eq_refl _).
  repeat constructor; by vm_compute.
Defined.


Lemma driver_stops_iff_cancelled_witness :
  (RunTickerTestContainers anyContainer None 2 ex_scripted).1 <> Ok Stopped
  /\ (RunTickerTestContainers anyContainer (Some 1) 2 ex_scripted).1 <> Ok Running.
Proof.
  split.
  - exact (proj1 (driver_stops_iff_cancelled anyContainer None 2 ex_scripted) eq_refl).
  - refine (proj2 (driver_stops_iff_cancelled anyContainer (Some 1) 2 ex_scripted)
              1 eq_refl _ _); cbn; lia.
Defined.
