(* ===== verification/TickerSteps.v ===== *)
(** * TickerSteps: the polling driver as a transition system

    The specification describes the driver as a state machine with the
    states [Running] and [Stopped] and one transition, taken when the
    cancellation is observed.  This file gives the machine in between that
    description and the loop of [Ticker]: a configuration is a [phase] of the
    loop with the [world], and [step] has one rule for each thing the loop
    does between two suspension points.  The loop of [Ticker] is proved to be
    the runs of this system from [Listing] ([driver_refines_steps]), the
    system to refine the two-state machine of the specification, action
    by action ([step_refines_machine]), once a cancellation is scheduled every run to
    end ([step_terminates]), and every start along a run to be one the
    classifier let through, whatever the client does to the objects
    ([driver_starts_classified]). *)

From stdpp Require Import strings gmap relations.
From S2P Require Import Prelude GoStrings DockerTypes Container Ticker.

Local Open Scope go_scope.

(** Where the loop is: about to list (a tick fired), in a pass with the
    containers still to look at, waiting for the next tick, stopped, or dead
    of a panic; a loop that stalls in a client call that never returns
    ([Blocked]) is in [Crashed] too, since it takes no further step. *)
Inductive phase : Type :=
| Listing
| Processing (cs : list Container)
| Waiting
| Done
| Crashed (p : panic).

Definition config (C : Type) : Type := phase * world C.

(** The state of the specification's machine that a phase belongs to; a
    crashed driver is in neither. *)
Definition state_of (ph : phase) : option state :=
  match ph with
  | Listing | Processing _ | Waiting => Some Running
  | Done => Some Stopped
  | Crashed _ => None
  end.

(** What the machine of the specification sees of a step of the driver:
    work between two suspension points (a call to the client, the end of a
    pass), or a suspension point, with whether the cancellation is visible
    there. *)
Inductive action : Type :=
| Work
| Point (cancellation : bool).

(** The machine of the specification.  [Running] goes on running through
    work and through the suspension points at which no cancellation is
    visible; its one transition to [Stopped] is taken at a suspension point
    at which the cancellation is visible, and there nothing else can be
    done; [Stopped] is terminal. *)
Inductive machine : action -> state -> state -> Prop :=
| machine_work : machine Work Running Running
| machine_pass : machine (Point false) Running Running
| machine_stop : machine (Point true) Running Stopped.

(** The phase in which a run of the loop ends, from what it returns:
    [Running] after the last tick means that the next tick would list. *)
Definition phase_of (r : result state) : phase :=
  match r with
  | Ok Running => Listing
  | Ok Stopped => Done
  | Panic p => Crashed p
  end.

(** The phases in which a run of the loop can end. *)
Definition final (ph : phase) : bool :=
  match ph with
  | Listing | Done | Crashed _ => true
  | Processing _ | Waiting => false
  end.

Section Steps.
Context {C : Type} `{Client C}.
Context (containerFilter : Filter) (cancelAfter : option nat).

Local Abbreviation visibleC := (visible (C:=C) cancelAfter).

Inductive step : config C -> config C -> Prop :=
| step_list w cs w1 :
    onClient (ListContainers containerFilter) w = (Ok (cs, None), w1) ->
    step (Listing, w) (Processing cs, recorded (Listed None) w1)
| step_list_error w cs e w1 :
    onClient (ListContainers containerFilter) w = (Ok (cs, Some e), w1) ->
    step (Listing, w) (Waiting, recorded (Listed (Some e)) w1)
| step_list_panic w p w1 :
    onClient (ListContainers containerFilter) w = (Panic p, w1) ->
    step (Listing, w) (Crashed p, w1)
| step_start c rest w w1 :
    visibleC w = false ->
    startIfCandidate c (passed w) = (Ok tt, w1) ->
    step (Processing (c :: rest), w) (Processing rest, w1)
| step_start_panic c rest w p w1 :
    visibleC w = false ->
    startIfCandidate c (passed w) = (Panic p, w1) ->
    step (Processing (c :: rest), w) (Crashed p, w1)
| step_start_cancelled c rest w :
    visibleC w = true ->
    step (Processing (c :: rest), w) (Done, passed w)
| step_pass_end w :
    step (Processing [], w) (Waiting, w)
| step_tick w :
    visibleC w = false ->
    step (Waiting, w) (Listing, passed w)
| step_wait_cancelled w :
    visibleC w = true ->
    step (Waiting, w) (Done, passed w).

(** The action a step is for the machine of the specification: a step
    that leaves the world at the suspension point where it was is work, a
    step that passes a suspension point is that point, with the cancellation
    as it is visible there. *)
Definition action_of (x y : config C) : action :=
  if bool_decide (points y.2 = points x.2) then Work else Point (visibleC x.2).

(** The step of a configuration, as a function: what the loop does up to its
    next suspension point, and nothing in a phase the loop has left. *)
Definition advance (x : config C) : option (config C) :=
  let w := x.2 in
  match x.1 with
  | Listing =>
      match onClient (ListContainers containerFilter) w with
      | (Ok (cs, None), w1) => Some (Processing cs, recorded (Listed None) w1)
      | (Ok (cs, Some e), w1) => Some (Waiting, recorded (Listed (Some e)) w1)
      | (Panic p, w1) => Some (Crashed p, w1)
      end
  | Processing [] => Some (Waiting, w)
  | Processing (c :: rest) =>
      if visibleC w then Some (Done, passed w)
      else match startIfCandidate c (passed w) with
           | (Ok tt, w1) => Some (Processing rest, w1)
           | (Panic p, w1) => Some (Crashed p, w1)
           end
  | Waiting => Some (if visibleC w then Done else Listing, passed w)
  | Done | Crashed _ => None
  end.

(** What the loop still does after a pass that returned [s], with [ticks]
    ticks to come. *)
Definition after (ticks : nat) (s : state) : prog (world C) state :=
  match s with
  | Stopped => ret Stopped
  | Running =>
      stop <- cancelled cancelAfter ;;
      if stop then ret Stopped
      else RunTickerTestContainers containerFilter cancelAfter ticks
  end.

(** The rest of the loop from a phase, with [ticks] ticks to come. *)
Definition resume (ticks : nat) (ph : phase) : prog (world C) state :=
  match ph with
  | Listing => RunTickerTestContainers containerFilter cancelAfter ticks
  | Processing cs => s <- startCandidates cancelAfter cs ;; after ticks s
  | Waiting => after ticks Running
  | Done => ret Stopped
  | Crashed p => raise p
  end.

(** The configuration a run ends in. *)
Definition outcome (r : result state * world C) : config C := (phase_of r.1, r.2).

(** What bounds the steps still to come when the cancellation is visible
    from the point [n]: the points before [n], and within a point the phases
    in the order the loop goes through them. *)
Definition measure (n : nat) (c : config C) : nat :=
  4 * (n - points c.2)
  + match c.1 with
    | Listing => 3
    | Processing _ => 2
    | Waiting => 1
    | Done | Crashed _ => 0
    end.

End Steps.

(** ** The equations of the loop *)

Section StepLaws.
Context {C : Type} `{Client C}.
Context (containerFilter : Filter) (cancelAfter : option nat).
Implicit Types (w : world C) (ph : phase) (c : Container) (x y : config C).

Local Abbreviation stepC := (step (C:=C) containerFilter cancelAfter).
Local Abbreviation resumeC := (resume (C:=C) containerFilter cancelAfter).
Local Abbreviation visibleC := (visible (C:=C) cancelAfter).
Local Abbreviation RunTicker :=
  (RunTickerTestContainers (C:=C) containerFilter cancelAfter).

Lemma resume_Listing_S n w :
  resumeC (S n) Listing w =
    match onClient (ListContainers containerFilter) w with
    | (Ok (cs, None), w1) => resumeC n (Processing cs) (recorded (Listed None) w1)
    | (Ok (cs, Some e), w1) => resumeC n Waiting (recorded (Listed (Some e)) w1)
    | (Panic p, w1) => (Panic p, w1)
    end.
Proof.
  cbn [resume RunTickerTestContainers]. unfold tick, bind at 1 2.
  destruct (onClient _ w) as [[[cs [e|]]|p] w1]; reflexivity.
Qed.

Lemma resume_Processing_nil n w : resumeC n (Processing []) w = resumeC n Waiting w.
Proof. reflexivity. Qed.

Lemma resume_Processing_cons n c rest w :
  resumeC n (Processing (c :: rest)) w =
    if visibleC w then (Ok Stopped, passed w)
    else match startIfCandidate c (passed w) with
         | (Ok tt, w1) => resumeC n (Processing rest) w1
         | (Panic p, w1) => (Panic p, w1)
         end.
Proof.
  cbn [resume startCandidates]. unfold bind at 1 2, cancelled.
  destruct (visibleC w); [reflexivity|]. unfold bind at 1.
  by destruct (startIfCandidate c (passed w)) as [[[]|p] w1].
Qed.

Lemma resume_Waiting n w :
  resumeC n Waiting w =
    if visibleC w then (Ok Stopped, passed w) else resumeC n Listing (passed w).
Proof. cbn [resume after]. unfold bind, cancelled. by destruct (visibleC w). Qed.

(** A step leaves the rest of the loop as it was; the step that lists uses
    up a tick. *)
Lemma step_resume ph w ph' w' n :
  stepC (ph, w) (ph', w') ->
  resumeC (if ph is Listing then S n else n) ph w = resumeC n ph' w'.
Proof.
  inversion 1; subst;
    (etrans;
     [first [apply resume_Listing_S | apply resume_Processing_cons
            | apply resume_Waiting | reflexivity]|]);
    repeat match goal with Heq : _ = _ |- _ => rewrite Heq end;
    first [reflexivity | symmetry; apply resume_Waiting].
Qed.

(** In a final phase the loop with no tick to come returns at once. *)
Lemma resume_final ph w : final ph = true -> outcome (resumeC 0 ph w) = (ph, w).
Proof. by destruct ph. Qed.

End StepLaws.

(** ** The loop and the transition system *)

Section StepTheorems.
Context {C : Type} `{Client C}.
Context (containerFilter : Filter) (cancelAfter : option nat).
Implicit Types (w : world C) (ph : phase) (c : Container) (x y z : config C).

Local Abbreviation stepC := (step (C:=C) containerFilter cancelAfter).
Local Abbreviation resumeC := (resume (C:=C) containerFilter cancelAfter).
Local Abbreviation visibleC := (visible (C:=C) cancelAfter).

Section FromListing.
Context (n : nat).
Context (HL : forall w, rtc stepC (Listing, w) (outcome (resumeC n Listing w))).

Lemma Waiting_steps w : rtc stepC (Waiting, w) (outcome (resumeC n Waiting w)).
Proof.
  rewrite resume_Waiting. destruct (visibleC w) eqn:E.
  - apply rtc_once. by apply step_wait_cancelled.
  - eapply rtc_l; [by apply step_tick | apply HL].
Qed.

Lemma Processing_steps cs w :
  rtc stepC (Processing cs, w) (outcome (resumeC n (Processing cs) w)).
Proof.
  revert w. induction cs as [|c rest IH]; intros w.
  - eapply rtc_l; [apply step_pass_end | apply Waiting_steps].
  - rewrite resume_Processing_cons. destruct (visibleC w) eqn:E.
    { apply rtc_once. by apply step_start_cancelled. }
    destruct (startIfCandidate c (passed w)) as [[[]|p] w1] eqn:Es.
    + eapply rtc_l; [by eapply step_start | apply IH].
    + apply rtc_once. by eapply step_start_panic.
Qed.

End FromListing.

(** Every run of the loop is a run of the transition system. *)
Lemma Listing_steps n w : rtc stepC (Listing, w) (outcome (resumeC n Listing w)).
Proof.
  revert w. induction n as [|n IH]; intros w; [done|].
  rewrite resume_Listing_S.
  destruct (onClient _ w) as [[[cs [e|]]|p] w1] eqn:E.
  - eapply rtc_l; [by eapply step_list_error | by apply Waiting_steps].
  - eapply rtc_l; [by eapply step_list | by apply Processing_steps].
  - apply rtc_once. by eapply step_list_panic.
Qed.

(** Every run of the transition system that ends in a final phase is a run
    of the loop, for some number of ticks. *)
Lemma steps_resume x y :
  rtc stepC x y -> final y.1 = true -> exists n, outcome (resumeC n x.1 x.2) = y.
Proof.
  induction 1 as [[ph w]|[ph w] [ph1 w1] z Hstep _ IH]; intros Hf.
  - exists 0. by apply resume_final.
  - destruct (IH Hf) as [n Hn]. exists (if ph is Listing then S n else n).
    cbn [fst snd] in *. by rewrite (step_resume _ _ _ _ _ _ n Hstep).
Qed.

(** C15. The loop of the driver and the transition system have the same
    runs: a configuration in a final phase (about to list, stopped, or
    crashed) is reached by steps from [Listing] exactly when the loop returns
    it for some number of ticks. *)
Theorem driver_refines_steps w y :
  final y.1 = true ->
  rtc (step containerFilter cancelAfter) (Listing, w) y <->
  exists ticks, outcome (RunTickerTestContainers containerFilter cancelAfter ticks w) = y.
Proof.
  intros Hf. split.
  - intros Hsteps. by apply (steps_resume _ _ Hsteps).
  - intros [ticks <-]. apply Listing_steps.
Qed.

(** The transition system is deterministic. *)
Lemma step_det x y z : stepC x y -> stepC x z -> y = z.
Proof. inversion 1; inversion 1; congruence. Qed.

Lemma step_Running x y : stepC x y -> state_of x.1 = Some Running.
Proof. by inversion 1. Qed.

(** While the driver runs it can take a step: only [Done] and [Crashed]
    are stuck. *)
Lemma step_progress x : state_of x.1 = Some Running -> red stepC x.
Proof.
  destruct x as [[|[|c rest]| | |p] w]; intros Hs; try done.
  - destruct (onClient (ListContainers containerFilter) w) as [[[cs [e|]]|p] w1] eqn:E;
      eexists; by econstructor.
  - eexists. apply step_pass_end.
  - destruct (visibleC w) eqn:E; [eexists; by apply step_start_cancelled|].
    destruct (startIfCandidate c (passed w)) as [[[]|p] w1] eqn:Es;
      eexists; by econstructor.
  - destruct (visibleC w) eqn:E; eexists; by econstructor.
Qed.

Lemma visible_false n w : visible (C:=C) (Some n) w = false -> (points w < n)%nat.
Proof. unfold visible. case_bool_decide; [done|lia]. Qed.

Lemma startIfCandidate_points c w r w1 :
  startIfCandidate c w = (r, w1) -> points w1 = points w.
Proof. intros E. pose proof (startIfCandidate_steady c w) as Hs. by rewrite E in Hs. Qed.

Lemma onClient_points {A} (m : prog (heap * C) A) w r w1 :
  onClient m w = (r, w1) -> points w1 = points w.
Proof. intros E. pose proof (onClient_steady m w) as Hs. by rewrite E in Hs. Qed.

Lemma action_of_Work x y :
  points y.2 = points x.2 -> action_of cancelAfter x y = Work.
Proof. unfold action_of. intros ->. by rewrite bool_decide_eq_true_2. Qed.

Lemma action_of_Point x y :
  points y.2 = S (points x.2) -> action_of cancelAfter x y = Point (visibleC x.2).
Proof. unfold action_of. intros ->. by rewrite bool_decide_eq_false_2 by lia. Qed.

(** C17. The transition system refines the machine of the specification,
    action by action.  A step is taken by a running driver; when it passes
    no suspension point (a listing, the end of a pass) the driver goes on
    running; when it passes a suspension point it stops if the cancellation
    is visible there and goes on running if not, and nothing else stops it:
    not a failed listing, not a failed start.  The only other way out of
    [Running] is a panic of a call, and no step crashes at a point where the
    cancellation is visible: there the driver makes no call. *)
Theorem step_refines_machine x y :
  step containerFilter cancelAfter x y ->
  state_of x.1 = Some Running
  /\ match state_of y.1 with
     | Some s => machine (action_of cancelAfter x y) Running s
     | None => action_of cancelAfter x y <> Point true
     end.
Proof.
  intros Hstep. split; [by eapply step_Running|].
  inversion Hstep as [w cs w1 E|w cs e w1 E|w p w1 E|c rest w w1 Hv E|c rest w p w1 Hv E
                     |c rest w Hv|w|w Hv|w Hv]; subst; cbn [fst snd state_of].
  1-3,7: (rewrite action_of_Work by (cbn; by rewrite ?(onClient_points _ _ _ _ E)));
    first [by constructor | done].
  1-2: (rewrite action_of_Point
          by (cbn; by rewrite (startIfCandidate_points _ _ _ _ E)));
    cbn [snd]; rewrite Hv; first [by constructor | done].
  all: (rewrite action_of_Point by done); cbn [snd]; rewrite Hv; constructor.
Qed.

(** Once a cancellation is scheduled every step brings the end nearer. *)
Lemma step_measure n x y :
  step containerFilter (Some n) x y -> (measure n y < measure n x)%nat.
Proof.
  inversion 1; subst; unfold measure; cbn [fst snd recorded passed points];
    repeat match goal with
      | Hv : visible _ _ = false |- _ => apply visible_false in Hv
      | Hs : startIfCandidate _ _ = _ |- _ =>
          apply startIfCandidate_points in Hs; cbn in Hs; rewrite Hs
      | Hl : onClient _ _ = _ |- _ => apply onClient_points in Hl; rewrite Hl
      end; lia.
Qed.

(** C16. Once a cancellation is scheduled the driver ends: from every
    configuration, whatever the client answers and however long its lists
    are, there is no infinite run; the driver stops or crashes after at most
    [measure] steps. *)
Theorem step_terminates n x : sn (step containerFilter (Some n)) x.
Proof.
  revert x. apply (well_founded_lt_compat _ (measure n)).
  intros x y Hstep. by apply step_measure.
Qed.

End StepTheorems.

(** ** What the driver starts, whatever the client does *)

Section StepCalls.
Context {C : Type} `{Client C}.
Context (containerFilter : Filter) (cancelAfter : option nat).
Implicit Types (w : world C) (c : Container) (x y z : config C).

Local Abbreviation stepC := (step (C:=C) containerFilter cancelAfter).

(** The calls one container adds: none, or its start, and then the
    classifier let it through on the objects as they were. *)
Lemma startIfCandidate_calls c w :
  let w1 := (startIfCandidate c w).2 in
  calls w1 = calls w
  \/ launchable (objects w) c = true /\ exists e, calls w1 = calls w ++ [Started c e].
Proof.
  unfold startIfCandidate, bind, launchable.
  rewrite onObjects_read_only by auto with go.
  destruct (IsTugbot c (objects w)).1 as [[]|]; [by left..| |by left].
  rewrite onObjects_read_only by auto with go.
  destruct (IsTugbotCandidate c (objects w)).1 as [[]|]; [|by left..].
  unfold onClient. destruct (StartContainerFrom c _) as [[e|p] [h cl]]; [|by left].
  right. split; [done|]. by exists e.
Qed.

(** What a step adds to the calls. *)
Lemma step_calls x y :
  stepC x y ->
  started (calls y.2) = started (calls x.2)
  \/ exists c, launchable (objects x.2) c = true
       /\ started (calls y.2) = started (calls x.2) ++ [c].
Proof.
  unfold started. inversion 1 as [w cs w1 E|w cs e w1 E|w p w1 E|c rest w w1 _ E
    |c rest w p w1 _ E| | | |]; subst; cbn [fst snd];
    try (by left);
    try (unfold onClient in E; destruct (ListContainers _ _) as [r [h cl]];
         injection E as _ <-; cbn [recorded calls]; rewrite ?omap_app; cbn;
         rewrite ?app_nil_r; by left).
  all: pose proof (startIfCandidate_calls c (passed w)) as Hc; rewrite E in Hc;
    cbn [snd passed calls objects] in Hc;
    destruct Hc as [->|[Hl [e ->]]]; [by left|right; exists c];
    by rewrite omap_app.
Qed.

(** C18. The driver starts only what the classifier lets through, also with
    a client that writes the metadata objects: along any run, every container
    that was passed to [StartContainerFrom] was, in the configuration the run
    was in at that moment, one for which [IsTugbot] answered false and
    [IsTugbotCandidate] true. *)
Theorem driver_starts_classified x y :
  rtc (step containerFilter cancelAfter) x y ->
  exists new, started (calls y.2) = started (calls x.2) ++ new
    /\ Forall (fun c => exists z,
         rtc (step containerFilter cancelAfter) x z
         /\ rtc (step containerFilter cancelAfter) z y
         /\ launchable (objects z.2) c = true) new.
Proof.
  revert y. apply rtc_ind_r; [exists []; by rewrite app_nil_r|].
  intros y y' Hxy Hstep (new & Hnew & Hall).
  assert (Hold : Forall (fun c => exists z, rtc stepC x z /\ rtc stepC z y'
                          /\ launchable (objects z.2) c = true) new).
  { eapply Forall_impl; [exact Hall|]. intros c (z & Hxz & Hzy & Hl).
    exists z. split_and!; [done| |done]. by eapply rtc_r. }
  destruct (step_calls _ _ Hstep) as [Hc|(c & Hl & Hc)]; rewrite Hc, Hnew.
  - by exists new.
  - exists (new ++ [c]). rewrite app_assoc. split; [done|].
    apply Forall_app. split; [done|]. apply Forall_singleton.
    exists y. split_and!; [done|by apply rtc_once|done].
Qed.

End StepCalls.

(** ** The latency of the cancellation *)

Section StepLatency.
Context {C : Type} `{Client C}.
Context (containerFilter : Filter) (n : nat).
Implicit Types (w : world C) (x y : config C).

Local Abbreviation stepC := (step (C:=C) containerFilter (Some n)).

(** A run of [k] steps uses up [k] of the measure. *)
Lemma nsteps_measure k x y :
  nsteps stepC k x y -> (k + measure n y <= measure n x)%nat.
Proof.
  induction 1 as [|k x z y Hstep _ IH]; [lia|].
  apply step_measure in Hstep. lia.
Qed.

Lemma onClient_calls {A} (m : prog (heap * C) A) w r w1 :
  onClient m w = (r, w1) -> calls w1 = calls w.
Proof. unfold onClient. destruct (m _) as [? [? ?]]. by intros [= _ <-]. Qed.

(** With the cancellation visible a step starts nothing, and the
    cancellation stays visible. *)
Lemma step_cancelled x y :
  (n <= points x.2)%nat -> stepC x y ->
  started (calls y.2) = started (calls x.2) /\ (n <= points y.2)%nat.
Proof.
  intros Hn. inversion 1 as [w cs w1 E|w cs e w1 E|w p w1 E|c rest w w1 Hv E
    |c rest w p w1 Hv E|c rest w Hv|w|w Hv|w Hv]; subst;
    cbn [fst snd recorded passed calls points] in *;
    try (apply visible_false in Hv; lia);
    try (rewrite ?started_Listed, (onClient_calls _ _ _ _ E), (onClient_points _ _ _ _ E));
    split; (done || lia).
Qed.

Lemma nsteps_cancelled k x y :
  (n <= points x.2)%nat -> nsteps stepC k x y ->
  started (calls y.2) = started (calls x.2).
Proof.
  intros Hn Hrun. induction Hrun as [|k x z y Hstep _ IH]; [done|].
  destruct (step_cancelled _ _ Hn Hstep) as [<- Hz]. by apply IH.
Qed.

(** C25. Bounded latency of the cancellation: from a configuration in which
    the cancellation is visible, wherever the driver is in its loop and
    however long the list of the tick, every run has at most three steps (a
    listing that was under way ends, the rest of its list is given up, the
    driver is done), no container is started, and a run that cannot go on
    has left the state [Running]. *)
Theorem cancel_latency k x y :
  (n <= points x.2)%nat -> nsteps (step containerFilter (Some n)) k x y ->
  (k <= 3)%nat
  /\ started (calls y.2) = started (calls x.2)
  /\ (nf (step containerFilter (Some n)) y -> state_of y.1 <> Some Running).
Proof.
  intros Hn Hrun. split_and!.
  - pose proof (nsteps_measure _ _ _ Hrun) as Hm. revert Hm. unfold measure.
    replace (n - points x.2)%nat with 0%nat by lia. destruct x.1; lia.
  - by eapply nsteps_cancelled.
  - intros Hnf Hs. apply Hnf. by apply step_progress.
Qed.

End StepLatency.

(** ** The step as a function, and steps before the cancellation *)

Section Advance.
Context {C : Type} `{Client C}.
Context (containerFilter : Filter).

Local Abbreviation stepA := (step (C:=C) containerFilter).
Local Abbreviation advanceA := (advance (C:=C) containerFilter).

(** [advance] computes the step: the relation has exactly the step the
    function returns. *)
Lemma advance_step cancelAfter x y :
  advanceA cancelAfter x = Some y <-> stepA cancelAfter x y.
Proof.
  split.
  - destruct x as [[|[|c rest]| | |p] w]; unfold advance; cbn [fst snd]; intros E;
      repeat case_match; simplify_eq; by econstructor.
  - inversion 1; subst; unfold advance; cbn [fst snd];
      repeat match goal with E : _ = _ |- _ => rewrite E end; done.
Qed.

Lemma advance_None cancelAfter x :
  advanceA cancelAfter x = None <-> state_of x.1 <> Some Running.
Proof.
  destruct x as [[|[|c rest]| | |p] w]; unfold advance; cbn [fst snd state_of];
    repeat case_match; naive_solver.
Qed.

(** No step goes back over a suspension point. *)
Lemma step_points cancelAfter x y :
  stepA cancelAfter x y -> (points x.2 <= points y.2)%nat.
Proof.
  inversion 1; subst; cbn [fst snd recorded passed points];
    repeat match goal with
      | Hs : startIfCandidate _ _ = _ |- _ =>
          apply startIfCandidate_points in Hs; cbn in Hs; rewrite Hs
      | Hl : onClient _ _ = _ |- _ => apply onClient_points in Hl; rewrite Hl
      end; lia.
Qed.

Lemma steps_points cancelAfter x y :
  rtc (stepA cancelAfter) x y -> (points x.2 <= points y.2)%nat.
Proof.
  induction 1 as [|x y z Hs _ IH]; [done|]. apply step_points in Hs. lia.
Qed.

(** A step taken while no cancellation is scheduled is a step of the driver
    whose context is cancelled at any point the step does not go beyond: the
    driver cannot tell a context that will be cancelled from one that will
    not. *)
Lemma step_None_Some n x y :
  stepA None x y -> (points y.2 <= n)%nat -> stepA (Some n) x y.
Proof.
  inversion 1; subst; cbn [fst snd passed points]; intros Hn;
    try (by econstructor); econstructor; try done;
    unfold visible; case_bool_decide; try done;
    repeat match goal with
      | Hs : startIfCandidate _ _ = _ |- _ =>
          apply startIfCandidate_points in Hs; cbn in Hs
      end; lia.
Qed.

Lemma steps_None_Some n x y :
  rtc (stepA None) x y -> (points y.2 <= n)%nat -> rtc (stepA (Some n)) x y.
Proof.
  induction 1 as [|x y z Hs Hr IH]; [done|]. intros Hn.
  eapply rtc_l; [|by apply IH].
  apply step_None_Some; [done|]. apply steps_points in Hr. lia.
Qed.

(** At the point at which the cancellation becomes visible at most three
    steps are left. *)
Lemma measure_at_cancel (x : config C) : (measure (points x.2) x <= 3)%nat.
Proof. unfold measure. destruct x as [[] w]; cbn; lia. Qed.

End Advance.

(** ** Steps against the interface *)

Section StepLaws.
Context {C : Type} `{ClientKeepsObjects C}.
Context (containerFilter : Filter) (cancelAfter : option nat).

(** With a client that leaves the metadata objects alone, a step keeps the
    objects and adds to the calls only starts of containers the classifier
    lets through. *)
Lemma step_extends x y : step (C:=C) containerFilter cancelAfter x y -> extends x.2 y.2.
Proof.
  pose proof (extends_preorder (C:=C)) as Hpre.
  assert (forall w : world C, extends w (passed w)) as Hpassed
    by (intros w; apply (cancelled_extends cancelAfter w)).
  inversion 1 as [w cs w1 E|w cs e w1 E|w p w1 E|c rest w w1 _ E|c rest w p w1 _ E| | | |];
    subst; cbn [fst snd]; try done; try apply Hpassed;
    try (pose proof (onClient_extends _ (ListContainers_objects containerFilter) w) as Hl;
         rewrite E in Hl; cbn [snd] in Hl);
    try (pose proof (startIfCandidate_extends c (passed w)) as Hs;
         rewrite E in Hs; cbn [snd] in Hs; by etrans).
  - etrans; [exact Hl|]. apply (record_Listed_extends None w1).
  - etrans; [exact Hl|]. apply (record_Listed_extends (Some e) w1).
  - done.
Qed.

Lemma steps_extends x y : rtc (step (C:=C) containerFilter cancelAfter) x y -> extends x.2 y.2.
Proof.
  pose proof (extends_preorder (C:=C)) as Hpre.
  induction 1 as [|x y z Hs _ IH]; [done|]. etrans; [by apply step_extends | done].
Qed.

End StepLaws.

(** ** The theorems at a concrete world *)

Lemma driver_refines_steps_witness :
  rtc (step anyContainer None) (Listing, ex_scripted)
    (outcome (RunTickerTestContainers anyContainer None 2 ex_scripted))
  <-> exists ticks,
        outcome (RunTickerTestContainers anyContainer None ticks ex_scripted)
        = outcome (RunTickerTestContainers anyContainer None 2 ex_scripted).
Proof.
  refine (driver_refines_steps anyContainer None ex_scripted _ _). by vm_compute.
Defined.

Lemma step_refines_machine_witness :
  (state_of Waiting = Some Running
   /\ machine (action_of (Some 0) (Waiting, ex_scripted) (Done, passed ex_scripted))
        Running Stopped)
  /\ (state_of Waiting = Some Running
      /\ machine (action_of (Some 1) (Waiting, ex_scripted) (Listing, passed ex_scripted))
           Running Running).
Proof.
  split.
  - exact (step_refines_machine anyContainer (Some 0) (Waiting, ex_scripted)
             (Done, passed ex_scripted)
             (step_wait_cancelled anyContainer (Some 0) ex_scripted eq_refl)).
  - exact (step_refines_machine anyContainer (Some 1) (Waiting, ex_scripted)
             (Listing, passed ex_scripted)
             (step_tick anyContainer (Some 1) ex_scripted eq_refl)).
Defined.

Lemma driver_starts_classified_witness :
  exists new,
    started (calls (outcome (RunTickerTestContainers anyContainer None 2 ex_scripted)).2)
    = started (calls (Listing, ex_scripted).2) ++ new
    /\ Forall (fun c => exists z,
         rtc (step anyContainer None) (Listing, ex_scripted) z
         /\ rtc (step anyContainer None) z
              (outcome (RunTickerTestContainers anyContainer None 2 ex_scripted))
         /\ launchable (objects z.2) c = true) new.
Proof.
  exact (driver_starts_classified anyContainer None (Listing, ex_scripted) _
           (Listing_steps anyContainer None 2 ex_scripted)).
Defined.

Lemma cancel_latency_witness :
  (2 <= 3)%nat
  /\ started (calls (outcome (RunTickerTestContainers anyContainer (Some 0) 1 ex_scripted)).2)
     = started (calls (Listing, ex_scripted).2)
  /\ (nf (step anyContainer (Some 0))
        (outcome (RunTickerTestContainers anyContainer (Some 0) 1 ex_scripted)) ->
      state_of (outcome (RunTickerTestContainers anyContainer (Some 0) 1 ex_scripted)).1
      <> Some Running).
Proof.
  refine (cancel_latency anyContainer 0 2 (Listing, ex_scripted)
            (outcome (RunTickerTestContainers anyContainer (Some 0) 1 ex_scripted))
            (Nat.le_0_l _) _).
  eapply nsteps_l; [by eapply step_list|].
  eapply nsteps_l; [by apply step_start_cancelled|]. apply nsteps_O.
Defined.
