(* ===== verification/TickerTests.v ===== *)
(** * TickerTests: the tests of the polling driver and their mock client

    [src/actions/ticker_test.go]: the three tests of
    [RunTickerTestContainers], with the mock client they set up.  The mock is
    testify's: a list of expected calls for each method, each with a return
    value, an optional callback and a repeatability.  The callbacks write the
    local variables of the tests, gathered in [TestVars].  A test is a run of
    the driver of [Ticker] from the world the test builds; its theorems give
    the values the assertions of the test compare, for every number of
    ticks.  The two goroutines of a test and their schedules are in
    [Goroutines]. *)

From stdpp Require Import strings gmap.
From S2P Require Import Prelude GoStrings DockerTypes Container Ticker.

Local Open Scope go_scope.

(** ** The mock client of the tests

    [mockclient.MockClient] is a testify mock: a list of expected calls for
    each method, each with a return value, an optional callback and a
    repeatability.  The callbacks of the tests write the tests' local
    variables, gathered in [TestVars]. *)

(** The local variables of a test that its callbacks write: the flags, the
    counter of the wait group [wg1], whether every [assert.Equal] so far
    held, and whether the mutex [locker] is held. *)
Record TestVars : Type := mkVars {
  touch : bool;
  touchListContainers : bool;
  touchStartContainerFrom : bool;
  wg1 : Z;
  asserted : bool;
  locker : bool;
}.

Definition set_touch (b : bool) (v : TestVars) : TestVars :=
  mkVars b (touchListContainers v) (touchStartContainerFrom v) (wg1 v) (asserted v)
    (locker v).
Definition set_touchListContainers (b : bool) (v : TestVars) : TestVars :=
  mkVars (touch v) b (touchStartContainerFrom v) (wg1 v) (asserted v) (locker v).
Definition set_touchStartContainerFrom (b : bool) (v : TestVars) : TestVars :=
  mkVars (touch v) (touchListContainers v) b (wg1 v) (asserted v) (locker v).
Definition set_wg1 (n : Z) (v : TestVars) : TestVars :=
  mkVars (touch v) (touchListContainers v) (touchStartContainerFrom v) n (asserted v)
    (locker v).
Definition set_asserted (b : bool) (v : TestVars) : TestVars :=
  mkVars (touch v) (touchListContainers v) (touchStartContainerFrom v) (wg1 v) b
    (locker v).
Definition set_locker (b : bool) (v : TestVars) : TestVars :=
  mkVars (touch v) (touchListContainers v) (touchStartContainerFrom v) (wg1 v)
    (asserted v) b.

(** The variables as every test sets them up: [wg1.Add(1)], flags false,
    the mutex free. *)
Definition vars0 : TestVars := mkVars false false false 1 true false.

(** [locker.Lock()]: the mutex is taken when it is free; on a mutex that is
    held the call waits, and since only callbacks take the mutex and a
    callback runs to its end before the next one starts, it would wait for
    ever. *)
Definition locker_Lock : prog TestVars unit :=
  v <- get ;;
  if locker v then raise Blocked else modify (set_locker true).

(** [locker.Unlock()]: the mutex is released; on a mutex that is not held
    the run-time ends the process. *)
Definition locker_Unlock : prog TestVars unit :=
  v <- get ;;
  if locker v then modify (set_locker false) else raise Explicit.

(** [wg1.Done()]: the counter goes down by one, and below zero it panics. *)
Definition wg1_Done : prog TestVars unit :=
  modify (fun v => set_wg1 (wg1 v - 1) v) ;;
  v <- get ;;
  if (wg1 v <? 0)%Z then raise Explicit else ret tt.

(** [assert.Equal(t, expected, actual)]: a failure is recorded and the test
    goes on. *)
Definition assert_Equal (expected actual : string) : prog TestVars unit :=
  modify (fun v => set_asserted (asserted v && bool_decide (expected = actual)) v).

(** An expected call of testify: [On(...).Return(r)], with [Run(f)] and
    [Once()].  [Repeatability] is [0] for any number of calls, [n > 0] for
    [n] more calls, [-1] when used up. *)
Record Call (A R : Type) : Type := mkCall {
  Repeatability : Z;
  totalCalls : nat;
  RunFn : option (A -> heap -> prog TestVars unit);
  ReturnArguments : R;
}.
Arguments mkCall {A R} _ _ _ _.
Arguments Repeatability {A R} _.
Arguments totalCalls {A R} _.
Arguments RunFn {A R} _.
Arguments ReturnArguments {A R} _.

Definition On {A R} (r : R) : Call A R := mkCall 0 0 None r.

Definition Run {A R} (f : A -> heap -> prog TestVars unit) (k : Call A R) : Call A R :=
  mkCall (Repeatability k) (totalCalls k) (Some f) (ReturnArguments k).

Definition Once {A R} (k : Call A R) : Call A R :=
  mkCall 1 (totalCalls k) (RunFn k) (ReturnArguments k).

(** The first expected call that is not used up, with its position. *)
Fixpoint findExpectedCall {A R} (ks : list (Call A R)) (i : nat)
  : option (nat * Call A R) :=
  match ks with
  | [] => None
  | k :: rest =>
      if (-1 <? Repeatability k)%Z then Some (i, k)
      else findExpectedCall rest (S i)
  end.

(** The expected call after one more call of it. *)
Definition countCall {A R} (k : Call A R) : Call A R :=
  mkCall (if (Repeatability k =? 1)%Z then -1
          else if (1 <? Repeatability k)%Z then Repeatability k - 1
          else Repeatability k)%Z
         (S (totalCalls k)) (RunFn k) (ReturnArguments k).

(** [Called]: find the expected call, count it, run its callback, return
    its value.  A call that nothing expects panics. *)
Definition Called {A R} (ks : list (Call A R)) (arg : A) (h : heap) (v : TestVars)
  : result R * list (Call A R) * TestVars :=
  match findExpectedCall ks 0 with
  | None => (Panic Explicit, ks, v)
  | Some (i, k) =>
      let ks' := <[i := countCall k]> ks in
      match RunFn k with
      | None => (Ok (ReturnArguments k), ks', v)
      | Some f =>
          let '(r, v') := f arg h v in
          (result_map (fun _ => ReturnArguments k) r, ks', v')
      end
  end.

Record MockClient : Type := mkMock {
  onListContainers : list (Call Filter (list Container * option error));
  onStartContainerFrom : list (Call Container (option error));
  vars : TestVars;
}.

#[export] Instance mock_client : Client MockClient := {
  ListContainers f := fun s =>
    let '(r, ks, v) := Called (onListContainers s.2) f s.1 (vars s.2) in
    (r, (s.1, mkMock ks (onStartContainerFrom s.2) v));
  StartContainerFrom c := fun s =>
    let '(r, ks, v) := Called (onStartContainerFrom s.2) c s.1 (vars s.2) in
    (r, (s.1, mkMock (onListContainers s.2) ks v));
}.

(** [AssertExpectations]: every expected call belongs to a method that was
    called, and none that was to be called a number of times is left
    waiting. *)
Definition expectationsMet {A R} (ks : list (Call A R)) : bool :=
  forallb (fun k => existsb (fun k' => (0 <? totalCalls k')%nat) ks
                    && (Repeatability k <=? 0)%Z) ks.

Definition AssertExpectations (m : MockClient) : bool :=
  expectationsMet (onListContainers m) && expectationsMet (onStartContainerFrom m).

(** ** The tests' clients and containers *)

(** [stateExited], a variable of the test package: a state whose
    [StateString] is ["exited"]. *)
Definition stateExited : option State.t := Some (State.mk "exited").

(** The callback that sets [touch] and releases [wg1], once, under the
    mutex. *)
Definition touchOnce : prog TestVars unit :=
  locker_Lock ;;
  v <- get ;;
  (if negb (touch v) then
     modify (set_touch true) ;;
     wg1_Done
   else ret tt) ;;
  locker_Unlock.

(** A method of [Container] called from a callback. *)
Definition method {A} (m : prog heap A) (h : heap) : prog TestVars A := lift (m h).1.

Module FailedToGetListContainers.

Definition client : MockClient :=
  mkMock [Run (fun _ _ => touchOnce) (On ([], Some "Expected :)"))] [] vars0.

End FailedToGetListContainers.

(** The tests name the labels [container.TugbotTest] and
    [container.TugbotEventTimer], which [container.go] does not define; the
    containers of the tests are given for any two keys. *)

Module OneContainer.
Section Fixture.
Context (TugbotTest TugbotEventTimer : string).

Definition cc : ContainerConfig.t :=
  ContainerConfig.set_Labels
    (<[TugbotTest := "true"]> (<[TugbotEventTimer := "10s"]> ∅))
    ContainerConfig.zero.

(** The objects of the test: [cc], at the location [1]. *)
Definition testObjects : heap := mkHeap {[ 1%positive := cc ]} ∅.

Definition c : Container :=
  NewContainer
    (Some (ContainerInfo.mk "02131b95b737" "My Test Container" (Some 1%positive)
             None stateExited))
    None.

Definition client : MockClient :=
  mkMock
    [On ([c], None)]
    [Run (fun arg h =>
            expected <- method (Name c) h ;;
            actual <- method (Name arg) h ;;
            assert_Equal expected actual ;;
            touchOnce)
         (On None)]
    vars0.

End Fixture.
End OneContainer.

Module Iteration2.
Section Fixture.
Context (TugbotTest TugbotEventTimer : string).

Definition cc : ContainerConfig.t :=
  ContainerConfig.set_Labels
    (<[TugbotTest := "true"]> (<[TugbotEventTimer := "10s"]> ∅))
    ContainerConfig.zero.

(** The objects of the test: [cc], at the location [1]; [c1] and [c2] share
    it. *)
Definition testObjects : heap := mkHeap {[ 1%positive := cc ]} ∅.

Definition c1 : Container :=
  NewContainer
    (Some (ContainerInfo.mk "c1id" "c1" (Some 1%positive) None stateExited)) None.

Definition c2 : Container :=
  NewContainer
    (Some (ContainerInfo.mk "c2id" "c2" (Some 1%positive) None stateExited)) None.

Definition client : MockClient :=
  mkMock
    [Once (On ([c1], None));
     Run (fun _ _ => modify (set_touchListContainers true)) (On ([c2], None))]
    [Once (Run (fun arg h =>
                  name <- method (Name arg) h ;;
                  expected <- method (Name c1) h ;;
                  assert_Equal expected name)
               (On None));
     Run (fun arg h =>
            name <- method (Name arg) h ;;
            modify (set_touchStartContainerFrom true) ;;
            expected <- method (Name c2) h ;;
            assert_Equal expected name ;;
            wg1_Done)
         (On None)]
    vars0.

End Fixture.
End Iteration2.

(** The goroutine of a test: the driver, from a world with the test's
    objects and client and no call made yet. *)
Definition RunTest (containerFilter : Filter) (objs : heap) (m : MockClient)
    (cancelAfter : option nat) (ticks : nat) : result state * world MockClient :=
  RunTickerTestContainers containerFilter cancelAfter ticks (mkWorld objs m [] 0).


(** ** Concrete worlds *)

(** The world of the test with two containers, before the first tick. *)
Definition ex_world : world MockClient :=
  mkWorld (Iteration2.testObjects LabelTest "tugbot.event.timer") Iteration2.client [] 0.

(** The world of the test whose listing fails. *)
Definition ex_failing : world MockClient :=
  mkWorld (mkHeap ∅ ∅) FailedToGetListContainers.client [] 0.

(** ** The mock after its first call *)

(** The variables once [touch] is set and [wg1] released, the mutex free
    again. *)
Definition touched : TestVars := mkVars true false false 0 true false.

(** The client of the first test after [k] listings. *)
Definition failing_after (k : nat) (v : TestVars) : MockClient :=
  mkMock [mkCall 0 k (Some (fun _ _ => touchOnce)) ([], Some "Expected :)")] [] v.

(** The client of the second test after [k] listings and [j] starts. *)
Definition one_after (k j : nat) (v : TestVars) : MockClient :=
  mkMock
    [mkCall 0 k None ([OneContainer.c], None)]
    [mkCall 0 j (RunFn (hd (On None) (onStartContainerFrom OneContainer.client))) None]
    v.

(** ** The mock keeps the objects *)

#[export] Instance mock_keeps_objects : ClientKeepsObjects MockClient.
Proof.
  split; intros arg [h m]; unfold keeps_objects; cbn;
    by destruct (Called _ _ _ _) as [[r ks] v].
Qed.

(** ** The tests *)

Section Tests.
(** The filter of the driver; the mock takes any. *)
Context (containerFilter : Filter).

Local Abbreviation RunTest := (RunTest containerFilter).

(** The container of the tests is a candidate exactly when the key the
    tests call [container.TugbotTest] is the label [LabelTest] that
    [IsTugbotCandidate] reads: the tests rely on a constant that
    [container.go] does not define. *)
Lemma test_container_candidate_iff TugbotTest TugbotEventTimer :
  TugbotEventTimer <> LabelTest -> TugbotEventTimer <> LabelCreatedFrom ->
  TugbotTest <> LabelCreatedFrom ->
  (IsTugbotCandidate OneContainer.c
     (OneContainer.testObjects TugbotTest TugbotEventTimer)).1 = Ok true
  <-> TugbotTest = LabelTest.
Proof.
  intros Ht Hc Hc'.
  erewrite (IsTugbotCandidate_run _ OneContainer.c) by (try done; apply lookup_insert_eq).
  cbn [fst deref ret ContainerInfo.State stateExited result_map State.StateString].
  rewrite (bool_decide_eq_true_2 (_ \/ _))
    by (left; cbn; by rewrite !lookup_insert_ne, lookup_empty).
  cbn [ContainerConfig.Labels OneContainer.cc ContainerConfig.set_Labels].
  destruct (decide (TugbotTest = LabelTest)) as [->|Hne].
  - by rewrite lookup_insert_eq.
  - rewrite !lookup_insert_ne, lookup_empty by done. by split.
Qed.

End Tests.

(** ** The tests, for every number of ticks *)

Section AllTicks.
Context (containerFilter : Filter).

Local Abbreviation RunTicker := (RunTickerTestContainers (C:=MockClient) containerFilter None).
Local Abbreviation tickM := (tick (C:=MockClient) containerFilter None).

Lemma tick_failing h k v ks p :
  v = vars0 \/ v = touched ->
  tickM (mkWorld h (failing_after k v) ks p) =
    (Ok Running,
     mkWorld h (failing_after (S k) touched) (ks ++ [Listed (Some "Expected :)")]) p).
Proof. by intros [-> | ->]. Qed.

Lemma RunTicker_failing ticks h k v ks p :
  v = vars0 \/ v = touched ->
  RunTicker ticks (mkWorld h (failing_after k v) ks p) =
    (Ok Running,
     mkWorld h (failing_after (ticks + k) (if ticks is 0 then v else touched))
       (ks ++ replicate ticks (Listed (Some "Expected :)"))) (ticks + p)).
Proof.
  revert k v ks p. induction ticks as [|n IH]; intros k v ks p Hv.
  { by rewrite app_nil_r. }
  cbn [RunTickerTestContainers]. eapply bind_step; [by apply tick_failing|].
  cbn beta iota. eapply bind_step; [reflexivity|]. cbn beta iota.
  unfold visible, passed. cbn [objects client calls points].
  rewrite IH by auto. do 2 f_equal.
  - f_equal; [lia | by destruct n].
  - by rewrite <- app_assoc.
  - lia.
Qed.

(** [TestRunTickerTestContainers_FailedToGetListContainers], for
    every number of ticks, every heap and every filter: with the client whose
    listing fails the driver is still running after each tick, has listed
    once per tick and started nothing; the callback set [touch] and released
    [wg1] once, and the expectations are met. *)
Lemma test_FailedToGetListContainers ticks h :
  let r := RunTest containerFilter h FailedToGetListContainers.client None (S ticks) in
  r.1 = Ok Running
  /\ calls r.2 = replicate (S ticks) (Listed (Some "Expected :)"))
  /\ started (calls r.2) = []
  /\ vars (client r.2) = touched
  /\ AssertExpectations (client r.2) = true.
Proof.
  unfold RunTest. change FailedToGetListContainers.client with (failing_after 0 vars0).
  rewrite RunTicker_failing by auto. cbn [fst snd calls client vars failing_after app].
  split_and!; try done. unfold started. generalize (S ticks). intros n.
  induction n as [|n IH]; [done | exact IH].
Qed.

Lemma tick_one k j v ks p :
  v = vars0 \/ v = touched ->
  tickM (mkWorld (OneContainer.testObjects LabelTest "tugbot.event.timer")
           (one_after k j v) ks p) =
    (Ok Running,
     mkWorld (OneContainer.testObjects LabelTest "tugbot.event.timer")
       (one_after (S k) (S j) touched)
       (ks ++ [Listed None; Started OneContainer.c None]) (S p)).
Proof.
  change (ks ++ [Listed None; Started OneContainer.c None])
    with (ks ++ ([Listed None] ++ [Started OneContainer.c None])).
  rewrite app_assoc. by intros [-> | ->]; vm_compute.
Qed.

Lemma RunTicker_one ticks k j v ks p :
  v = vars0 \/ v = touched ->
  RunTicker ticks
    (mkWorld (OneContainer.testObjects LabelTest "tugbot.event.timer")
       (one_after k j v) ks p) =
    (Ok Running,
     mkWorld (OneContainer.testObjects LabelTest "tugbot.event.timer")
       (one_after (ticks + k) (ticks + j) (if ticks is 0 then v else touched))
       (ks ++ concat (replicate ticks [Listed None; Started OneContainer.c None]))
       (2 * ticks + p)).
Proof.
  revert k j v ks p. induction ticks as [|n IH]; intros k j v ks p Hv.
  { by rewrite app_nil_r. }
  cbn [RunTickerTestContainers]. eapply bind_step; [by apply tick_one|].
  cbn beta iota. eapply bind_step; [reflexivity|]. cbn beta iota.
  unfold visible, passed. cbn [objects client calls points].
  rewrite IH by auto. do 2 f_equal.
  - f_equal; [lia | lia | by destruct n].
  - cbn [replicate concat]. by rewrite <- app_assoc.
  - lia.
Qed.

Lemma startedNames_one ticks :
  omap (fun c => ContainerInfo.Name <$> containerInfo c)
    (started (concat (replicate ticks [Listed None; Started OneContainer.c None])))
  = replicate ticks "My Test Container".
Proof. induction ticks as [|n IH]; [done|]. cbn. by f_equal. Qed.

(** C40. [TestRunTickerTestContainers], for every number of ticks: the
    container of the test is listed and started once at each tick, under its
    own name; the assertion of the callback holds each time, [touch] is set
    and [wg1] released once, and the expectations are met.  The label keys
    are those for which the test's container is a candidate: the key the
    test calls [container.TugbotTest] must be [LabelTest], a constant that
    [container.go] does not define under that name. *)
Theorem test_RunTickerTestContainers ticks :
  let r := RunTest containerFilter (OneContainer.testObjects LabelTest "tugbot.event.timer")
             OneContainer.client None (S ticks) in
  r.1 = Ok Running
  /\ startedNames r.2 = replicate (S ticks) "My Test Container"
  /\ vars (client r.2) = touched
  /\ AssertExpectations (client r.2) = true
  /\ (forall TugbotTest TugbotEventTimer,
       TugbotEventTimer <> LabelTest -> TugbotEventTimer <> LabelCreatedFrom ->
       TugbotTest <> LabelCreatedFrom ->
       (IsTugbotCandidate OneContainer.c
          (OneContainer.testObjects TugbotTest TugbotEventTimer)).1 = Ok true
       <-> TugbotTest = LabelTest).
Proof.
  unfold RunTest. change OneContainer.client with (one_after 0 0 vars0).
  rewrite RunTicker_one by auto. unfold startedNames.
  cbn [fst snd calls client vars one_after app]. rewrite startedNames_one.
  split_and!; [done..|]. apply test_container_candidate_iff.
Qed.

(** [..._Iteration2ContainsDifferentListContainers]: the first tick
    starts [c1] and the second [c2], in that order, the assertions on the
    names hold and both flags are set; from the third tick on the listing
    answers [c2] again, the driver starts it again and the callback calls
    [wg1.Done()] a second time, which panics on the negative counter,
    whatever the number of ticks that follow.  The test passes only when the
    cancellation is seen before the third tick starts [c2]. *)
Lemma test_Iteration2_third_tick ticks :
  let run := RunTest containerFilter (Iteration2.testObjects LabelTest "tugbot.event.timer")
               Iteration2.client in
  (run None 2).1 = Ok Running
  /\ startedNames (run None 2).2 = ["c1"; "c2"]
  /\ vars (client (run None 2).2) = mkVars false true true 0 true false
  /\ AssertExpectations (client (run None 2).2) = true
  /\ (run None (3 + ticks)).1 = Panic Explicit
  /\ wg1 (vars (client (run None (3 + ticks)).2)) = (-1)%Z
  /\ (run (Some 4) 3).1 = Ok Stopped
  /\ startedNames (run (Some 4) 3).2 = ["c1"; "c2"].
Proof.
  cbv zeta. unfold RunTest.
  erewrite (RunTicker_panic containerFilter None 3 ticks) by (by vm_compute).
  by vm_compute.
Qed.

End AllTicks.
