(* ===== verification/Launch.v ===== *)
(** * Launch: the driver with a client that re-creates containers

    [runtimeConfig] and [hostConfig] are not exported: their only callers
    are in the package of [src/container/container.go], in the client that
    re-creates a container.  That client is not among the sources; the
    specification (4.1 and 6) says what it does with a candidate: it derives
    the override configuration, rewrites the links for re-submission, and
    creates and starts a fresh container from them.  This file holds the
    least client that does so, [launch_client], as an instance of
    [Ticker.Client]: [derive] runs the two methods and reads what they
    wrote, [launch] submits it.  The theorems are on the driver composed
    with this client: what is submitted for a candidate, what a candidate
    without image metadata does to the loop, whether a launched container is
    a candidate again, what one pass does with a list of containers that
    are separate in the sense of [Frame], and what the ticks that follow
    do: the objects the first tick leaves are a fixed point of the
    derivation, so every later tick submits the same again
    ([run_launches]).  That client lists, tick after tick, the objects its
    own passes wrote; the specification has the metadata fetched anew at
    every polling cycle, and [inspect_client] is the client with that: with
    it every tick does what the first did ([run_relaunches]). *)

From stdpp Require Import strings gmap relations.
From S2P Require Import Prelude GoStrings DockerTypes Util Container Frame Ticker TickerSteps.

Import ContainerConfig.
Local Open Scope go_scope.

(** ** The client *)

(** What is submitted to the runtime for one container: the name, the
    configuration to create it with and the host configuration to start it
    with, as they are in the objects at that moment. *)
Record Created : Type := mkCreated {
  createdName : string;
  createdConfig : ContainerConfig.t;
  createdHostConfig : HostConfig.t;
}.

(** The client's state: the containers it has inspected, which it lists,
    and what it has submitted so far. *)
Record Launcher : Type := mkLauncher {
  inspected : list Container;
  submitted : list Created;
}.

(** A method of [Container], run by the client on the objects. *)
Definition onHeap {A} (m : prog heap A) : prog (heap * Launcher) A :=
  fun s => let '(r, h) := m s.1 in (r, (h, s.2)).

Definition submit (k : Created) : prog (heap * Launcher) unit :=
  modify (fun s => (s.1, mkLauncher (inspected s.2) (submitted s.2 ++ [k]))).

(** What is submitted for a container: the configuration that
    [runtimeConfig] derives, the host configuration with the links that
    [hostConfig] rewrote, and the name. *)
Definition derive (c : Container) : prog heap Created :=
  config <- runtimeConfig c ;;
  hostConfig <- hostConfig c ;;
  name <- Name c ;;
  cfg <- loadConfig config ;;
  hc <- loadHostConfig hostConfig ;;
  ret (mkCreated name cfg hc).

(** [StartContainerFrom]: derive, then create and start.  The runtime
    accepts every submission. *)
Definition launch (c : Container) : prog (heap * Launcher) (option error) :=
  k <- onHeap (derive c) ;;
  submit k ;;
  ret None.

#[export] Instance launch_client : Client Launcher := {
  ListContainers f := fun s => (Ok (List.filter f (inspected s.2), None), s);
  StartContainerFrom := launch;
}.

(** A world whose client has inspected the containers [cs]. *)
Definition launcher_world (h : heap) (cs : list Container) : world Launcher :=
  mkWorld h (mkLauncher cs []) [] 0.

(** ** The client that inspects afresh

    The specification (3) has the metadata fetched anew at every polling
    cycle.  [inspect_client] is the client of above with that: it keeps the
    objects as the runtime has them, [runtimeObjects], and every listing
    hands out a fresh copy of them, so that what the last pass wrote to its
    copy is gone.  What a launch changes in the runtime (the container it
    creates) is not modelled: the containers listed are the same at every
    tick. *)
Record Inspector : Type := mkInspector {
  runtimeObjects : heap;
  launcher : Launcher;
}.

#[export] Instance inspect_client : Client Inspector := {
  ListContainers f := fun s =>
    (Ok (List.filter f (inspected (launcher s.2)), None), (runtimeObjects s.2, s.2));
  StartContainerFrom c := fun s =>
    let '(r, (h, l)) := launch c (s.1, launcher s.2) in
    (r, (h, mkInspector (runtimeObjects s.2) l));
}.

(** The world of the inspecting client over a world of the launcher. *)
Definition inspecting (r : heap) (w : world Launcher) : world Inspector :=
  mkWorld (objects w) (mkInspector r (client w)) (calls w) (points w).

(** The objects after the two derivations of a container whose
    configuration is [cfg] at [l], with the image's configuration [img] and
    the host configuration [hc] at [lh]; and what is submitted for it. *)
Definition derived (h : heap) (l lh : loc) (cfg img : ContainerConfig.t)
    (hc : HostConfig.t) : heap :=
  upd_hostConfig lh (HostConfig.set_Links (rewriteLinks (HostConfig.Links hc)).1 hc)
    (upd_config l (runtimeConfig_spec cfg img hc) h).

Definition submission (ci : ContainerInfo.t) (cfg img : ContainerConfig.t)
    (hc : HostConfig.t) : Created :=
  mkCreated (TrimPrefix (ContainerInfo.Name ci) "/")
    (runtimeConfig_spec cfg img hc)
    (HostConfig.set_Links (rewriteLinks (HostConfig.Links hc)).1 hc).

(** What the driver is expected to submit for a listed container, from the
    objects as they are before the pass: nothing for a container that is not
    let through. *)
Definition expected (h : heap) (c : Container) : option Created :=
  if launchable h c then
    match (derive c h).1 with Ok k => Some k | Panic _ => None end
  else None.

(** A listed container that the driver can deal with: the classifier
    answers, and if it lets the container through the derivation ends
    well. *)
Definition ready (h : heap) (c : Container) : Prop :=
  classifies h c /\ (launchable h c = true -> is_Ok (derive c h).1 = true).

(** No container of the list reads what an earlier one may write. *)
Fixpoint separated (cs : list Container) : Prop :=
  match cs with
  | [] => True
  | c :: rest => Forall (separate c) rest /\ separated rest
  end.

(** No container of the list reads what another one may write. *)
Fixpoint apart (cs : list Container) : Prop :=
  match cs with
  | [] => True
  | c :: rest => Forall (fun c' => separate c c' /\ separate c' c) rest /\ apart rest
  end.

(** The objects after the driver dealt with [c]: those the derivation left,
    for a container that is let through. *)
Definition post (h : heap) (c : Container) : heap :=
  if launchable h c then (derive c h).2 else h.

(** A container the driver can deal with again and again: it is [ready], and
    its derivation changes no object any more. *)
Definition stable (h : heap) (c : Container) : Prop :=
  ready h c /\ (launchable h c = true -> (derive c h).2 = h).

(** A second container of the image of [ex_container], with a configuration
    and a host configuration of its own, and a heap that holds the objects of
    both. *)
Definition ex_twin : Container :=
  NewContainer
    (Some (ContainerInfo.mk "77aa" "/web-test-2" (Some 4%positive) (Some 5%positive)
             (Some (State.mk "exited"))))
    (Some ex_ii).

Definition ex_heap2 : heap :=
  {| configs := {[ 1%positive := ex_cfg; 2%positive := ex_img; 4%positive := ex_cfg ]};
     hostConfigs := {[ 3%positive := ex_hc; 5%positive := ex_hc ]} |}.

(** The conditions on a list of containers are decided by running the
    classifier and the derivation and by comparing pointers. *)
#[export] Instance ready_dec h c : Decision (ready h c).
Proof. unfold ready. apply _. Defined.

#[export] Instance stable_dec h c : Decision (stable h c).
Proof. unfold stable. apply _. Defined.

#[export] Instance separated_dec cs : Decision (separated cs).
Proof. induction cs; cbn [separated]; apply _. Defined.

#[export] Instance apart_dec cs : Decision (apart cs).
Proof. induction cs; cbn [apart]; apply _. Defined.

(** The inspecting client whose runtime holds the objects of [ex_heap2] and
    lists the two containers. *)
Definition ex_inspecting : world Inspector :=
  inspecting ex_heap2 (launcher_world ex_heap2 [ex_container; ex_twin]).

(** ** What is submitted *)

Lemma onHeap_run {A} (m : prog heap A) h cl r h' :
  m h = (r, h') -> onHeap m (h, cl) = (r, (h', cl)).
Proof. unfold onHeap. cbn. by intros ->. Qed.

(** The client's call, from the derivation. *)
Lemma launch_derive c h cl :
  launch c (h, cl) =
    match derive c h with
    | (Ok k, h1) => (Ok None, (h1, mkLauncher (inspected cl) (submitted cl ++ [k])))
    | (Panic p, h1) => (Panic p, (h1, cl))
    end.
Proof. unfold launch, bind, onHeap. cbn. by destruct (derive c h) as [[k|p] h1]. Qed.

Section Launch.
Context (h : heap) (c : Container) (ci : ContainerInfo.t) (ii : ImageInfo.t)
  (l li lh : loc) (cfg img : ContainerConfig.t) (hc : HostConfig.t).
Context (Hci : containerInfo c = Some ci) (Hii : imageInfo c = Some ii)
  (Hl : ContainerInfo.Config ci = Some l) (Hli : ImageInfo.Config ii = Some li)
  (Hlh : ContainerInfo.HostConfig ci = Some lh)
  (Hcfg : configs h !! l = Some cfg) (Himg : configs h !! li = Some img)
  (Hhc : hostConfigs h !! lh = Some hc).

(** The derivation, run on the heap. *)
Lemma derive_run :
  derive c h =
    match (rewriteLinks (HostConfig.Links hc)).2 with
    | None => (Ok (submission ci cfg img hc), derived h l lh cfg img hc)
    | Some e => (Panic e, derived h l lh cfg img hc)
    end.
Proof.
  unfold derive, derived, submission.
  eapply bind_step; [by eapply runtimeConfig_run|].
  pose proof (hostConfig_run c ci lh Hci Hlh
                (upd_config l (runtimeConfig_spec cfg img hc) h) hc Hhc) as Hh.
  destruct (rewriteLinks (HostConfig.Links hc)).2 as [e|].
  { by apply bind_step_panic. }
  eapply bind_step; [done|].
  eapply bind_step; [by eapply Name_run|].
  eapply bind_step; [apply loadConfig_ok, lookup_insert_eq|].
  eapply bind_step; [apply loadHostConfig_upd|]. reflexivity.
Qed.

Lemma launch_run cl :
  launch c (h, cl) =
    match (rewriteLinks (HostConfig.Links hc)).2 with
    | None =>
        (Ok None, (derived h l lh cfg img hc,
                   mkLauncher (inspected cl) (submitted cl ++ [submission ci cfg img hc])))
    | Some e => (Panic e, (derived h l lh cfg img hc, cl))
    end.
Proof. rewrite launch_derive, derive_run. by destruct (rewriteLinks _).2. Qed.

End Launch.
(** ** The driver with this client *)

(** A container that the classifier lets through is handed to the client. *)
Lemma startIfCandidate_launchable {C} `{Client C} c (w : world C) :
  launchable (objects w) c = true ->
  startIfCandidate c w =
    (err <- onClient (StartContainerFrom c) ;; record (Started c err)) w.
Proof.
  unfold launchable, startIfCandidate. intros Hl. unfold bind at 1.
  rewrite onObjects_read_only by auto with go.
  destruct (IsTugbot c (objects w)).1 as [[]|]; [done| |done]. unfold bind at 1.
  rewrite onObjects_read_only by auto with go.
  by destruct (IsTugbotCandidate c (objects w)).1 as [[]|].
Qed.

(** The classifier answers only for a container with metadata. *)
Lemma launchable_containerInfo h c :
  launchable h c = true -> exists ci, containerInfo c = Some ci.
Proof.
  unfold launchable, IsTugbot, Config_of. destruct (containerInfo c) as [ci|]; [eauto|].
  by rewrite bind_assoc, (bind_run_panic _ _ _ NilDereference h) by by apply deref_nil.
Qed.

Lemma launcher_lists f (w : world Launcher) :
  onClient (ListContainers f) w = (Ok (List.filter f (inspected (client w)), None), w).
Proof. unfold onClient. cbn. by rewrite world_eta. Qed.

(** What the classifier reads, when the container's objects are there. *)
Lemma launchable_run h c ci l cfg :
  containerInfo c = Some ci -> ContainerInfo.Config ci = Some l ->
  configs h !! l = Some cfg ->
  launchable h c = true <->
    Labels cfg !! LabelTugbot <> Some "true"
    /\ Labels cfg !! LabelTest = Some "true"
    /\ (Labels cfg !! LabelCreatedFrom = None \/ Labels cfg !! LabelCreatedFrom = Some "")
    /\ exists st, ContainerInfo.State ci = Some st /\ State.StateString st = "exited".
Proof.
  intros Hci Hl Hcfg. unfold launchable.
  erewrite IsTugbot_run, IsTugbotCandidate_run by done. cbn [fst].
  repeat case_bool_decide; cbn [andb]; try naive_solver.
  destruct (ContainerInfo.State ci) as [st|]; cbn; [|naive_solver].
  case_bool_decide; naive_solver.
Qed.

(** The labels that [runtimeConfig] leaves: those the image does not carry
    with the same value. *)
Lemma runtimeConfig_spec_label cfg img hc k v :
  Labels (runtimeConfig_spec cfg img hc) !! k = Some v
  <-> Labels cfg !! k = Some v /\ Labels img !! k <> Some v.
Proof. unfold runtimeConfig_spec. cbn. rewrite map_lookup_filter_Some. cbn. tauto. Qed.

Section Again.
Context (h : heap) (c : Container) (ci : ContainerInfo.t)
  (l lh : loc) (cfg img : ContainerConfig.t) (hc : HostConfig.t).
Context (Hci : containerInfo c = Some ci) (Hl : ContainerInfo.Config ci = Some l)
  (Hcfg : configs h !! l = Some cfg).

(** The classifier on the derived objects. *)
Lemma launchable_derived :
  launchable h c = true ->
  launchable (derived h l lh cfg img hc) c = true
  <-> Labels img !! LabelTest <> Some "true".
Proof.
  rewrite (launchable_run h c ci l cfg) by done.
  rewrite (launchable_run (derived h l lh cfg img hc) c ci l (runtimeConfig_spec cfg img hc))
    by (done || apply lookup_insert_eq).
  rewrite !runtimeConfig_spec_label. intros (Hself & Htest & Hfrom & Hst).
  destruct (Labels (runtimeConfig_spec cfg img hc) !! LabelCreatedFrom) as [v|] eqn:E;
    [apply runtimeConfig_spec_label in E|]; naive_solver.
Qed.

End Again.

(** Without image metadata the client panics before it writes anything. *)
Lemma launch_no_image c ci s :
  containerInfo c = Some ci -> imageInfo c = None ->
  launch c s = (Panic NilDereference, s).
Proof.
  intros Hci Hii. destruct s as [h cl]. rewrite launch_derive.
  unfold derive. by erewrite bind_step_panic by by eapply runtimeConfig_no_imageInfo.
Qed.

Section DriverLaunch.
Context (h : heap) (c : Container) (ci : ContainerInfo.t) (ii : ImageInfo.t)
  (l li lh : loc) (cfg img : ContainerConfig.t) (hc : HostConfig.t).
Context (Hci : containerInfo c = Some ci) (Hii : imageInfo c = Some ii)
  (Hl : ContainerInfo.Config ci = Some l) (Hli : ImageInfo.Config ii = Some li)
  (Hlh : ContainerInfo.HostConfig ci = Some lh)
  (Hcfg : configs h !! l = Some cfg) (Himg : configs h !! li = Some img)
  (Hhc : hostConfigs h !! lh = Some hc).

(** The driver at a candidate, run down to the objects. *)
Lemma startIfCandidate_launch cl ks n :
  launchable h c = true ->
  startIfCandidate c (mkWorld h cl ks n) =
    match (rewriteLinks (HostConfig.Links hc)).2 with
    | None =>
        (Ok tt, mkWorld (derived h l lh cfg img hc)
                  (mkLauncher (inspected cl) (submitted cl ++ [submission ci cfg img hc]))
                  (ks ++ [Started c None]) n)
    | Some e => (Panic e, mkWorld (derived h l lh cfg img hc) cl ks n)
    end.
Proof.
  intros Hc. rewrite startIfCandidate_launchable by done.
  unfold bind, onClient. cbn [objects client StartContainerFrom launch_client].
  erewrite launch_run by done.
  by destruct (rewriteLinks (HostConfig.Links hc)).2.
Qed.

(** C19. What the driver does with a candidate, down to the objects: the
    client derives the override configuration in place, rewrites the links
    in place, and submits the name without its slash, the subtracted
    configuration and the host configuration with the rewritten links; the
    start is noted.  When a link cannot be rewritten the panic of
    [hostConfig] goes through the client and the driver: nothing is
    submitted, and the objects stay as the two methods left them. *)
Theorem startIfCandidate_launches cl ks n :
  launchable h c = true ->
  startIfCandidate c (mkWorld h cl ks n) =
    match (rewriteLinks (HostConfig.Links hc)).2 with
    | None =>
        (Ok tt, mkWorld (derived h l lh cfg img hc)
                  (mkLauncher (inspected cl) (submitted cl ++ [submission ci cfg img hc]))
                  (ks ++ [Started c None]) n)
    | Some e => (Panic e, mkWorld (derived h l lh cfg img hc) cl ks n)
    end.
Proof. apply startIfCandidate_launch. Qed.

(** C21. Whether a container that was launched is a candidate again lies
    with its image: the subtraction of the labels is made in the object the
    classifier reads, so on the objects the driver is left with after the
    launch, the container is let through again exactly when its image does
    not declare the test label as true. *)
Theorem launched_again_iff (cl : Launcher) ks n :
  launchable h c = true ->
  launchable (objects (startIfCandidate c (mkWorld h cl ks n)).2) c = true
  <-> Labels img !! LabelTest <> Some "true".
Proof.
  intros Hc. rewrite startIfCandidate_launch by done.
  rewrite <- (launchable_derived h c ci l lh cfg img hc) by done.
  by destruct (rewriteLinks (HostConfig.Links hc)).2.
Qed.

End DriverLaunch.

(** C20. A candidate without image metadata stops the driver: when the first
    listed container is one the classifier lets through and its image was not
    inspected, [runtimeConfig] dereferences nil inside the client and the
    panic ends the loop at the first tick, for every number of ticks; no
    start is noted and the rest of the list is never looked at. *)
Theorem driver_crashes_without_image f cancelAfter ticks (w : world Launcher) c rest :
  List.filter f (inspected (client w)) = c :: rest ->
  launchable (objects w) c = true -> imageInfo c = None ->
  visible cancelAfter w = false ->
  RunTickerTestContainers f cancelAfter (S ticks) w =
    (Panic NilDereference, passed (recorded (Listed None) w)).
Proof.
  intros Hf Hc Hii Hv. destruct (launchable_containerInfo _ _ Hc) as [ci Hci].
  change (resume f cancelAfter (S ticks) Listing w = (Panic NilDereference, passed (recorded (Listed None) w))).
  rewrite resume_Listing_S, launcher_lists, Hf, resume_Processing_cons.
  change (visible cancelAfter (recorded (Listed None) w)) with (visible cancelAfter w).
  rewrite Hv, startIfCandidate_launchable by done.
  unfold bind, onClient. cbn [objects client passed recorded StartContainerFrom launch_client].
  by erewrite launch_no_image.
Qed.

(** ** The client and the law *)

(** The client does not keep the objects: the law under which the driver
    was shown to leave them alone fails for it. *)
Lemma launcher_writes_objects : ~ ClientKeepsObjects Launcher.
Proof.
  intros [_ Hstart]. specialize (Hstart ex_container (ex_heap, mkLauncher [] [])).
  unfold keeps_objects in Hstart. apply (f_equal (fun h => configs h !! 1%positive)) in Hstart.
  vm_compute in Hstart. discriminate.
Qed.

(** ** A pass over separate containers *)

(** The derivation reads and writes the container's own objects only. *)
Lemma derive_respects c : respects (agree c) (derive c).
Proof.
  unfold derive.
  eapply respects_bind_returns;
    [apply runtimeConfig_respects | apply runtimeConfig_returns |]. intros config ->.
  eapply respects_bind_returns;
    [apply hostConfig_respects | apply hostConfig_returns |]. intros hostConfig ->.
  apply respects_bind; [apply Name_respects|]. intros name. unfold agree. footprint.
Qed.

Lemma derive_writes_only c :
  preserves (writes_only (cfg_loc c) (host_loc c)) (derive c).
Proof.
  unfold derive.
  apply preserves_bind; [apply _ | apply runtimeConfig_writes_only |]. intros config.
  apply preserves_bind; [apply _ | apply hostConfig_writes_only |]. intros hostConfig.
  solve_preserves.
Qed.

(** What the driver needs of a container depends on its own objects only. *)
#[export] Instance launchable_proper c : Proper (agree c ==> eq) (fun h => launchable h c).
Proof.
  intros h h' Ha. unfold launchable.
  by rewrite (respects_fst _ _ h h' (IsTugbot_respects c) Ha),
    (respects_fst _ _ h h' (IsTugbotCandidate_respects c) Ha).
Qed.

#[export] Instance expected_proper c : Proper (agree c ==> eq) (fun h => expected h c).
Proof.
  intros h h' Ha. unfold expected.
  by rewrite (launchable_proper c h h' Ha), (respects_fst _ _ h h' (derive_respects c) Ha).
Qed.

Lemma ready_agree c h h' : agree c h h' -> ready h c -> ready h' c.
Proof.
  intros Ha. unfold ready, classifies.
  by rewrite (launchable_proper c h h' Ha), (respects_fst _ _ h h' (derive_respects c) Ha),
    (respects_fst _ _ h h' (IsTugbot_respects c) Ha),
    (respects_fst _ _ h h' (IsTugbotCandidate_respects c) Ha).
Qed.

(** A container that the classifier does not let through is skipped. *)
Lemma startIfCandidate_skips {C} `{Client C} c (w : world C) :
  classifies (objects w) c -> launchable (objects w) c = false ->
  startIfCandidate c w = (Ok tt, w).
Proof.
  unfold classifies, launchable, startIfCandidate. intros Hc Hl. unfold bind at 1.
  rewrite onObjects_read_only by auto with go.
  destruct (IsTugbot c (objects w)).1 as [[]|]; [done| |done]. unfold bind at 1.
  rewrite onObjects_read_only by auto with go.
  by destruct (IsTugbotCandidate c (objects w)).1 as [[]|].
Qed.

(** The driver at one container that is ready: the objects it leaves, what
    it notes and what the client submits. *)
Lemma startIfCandidate_post c (w : world Launcher) :
  ready (objects w) c ->
  exists w', startIfCandidate c w = (Ok tt, w')
    /\ objects w' = post (objects w) c
    /\ inspected (client w') = inspected (client w)
    /\ started (calls w') =
         started (calls w) ++ (if launchable (objects w) c then [c] else [])
    /\ submitted (client w') = submitted (client w) ++ option_list (expected (objects w) c).
Proof.
  intros [Hc Hd]. unfold expected, post.
  destruct (launchable (objects w) c) eqn:Hl.
  - rewrite startIfCandidate_launchable by done. specialize (Hd eq_refl).
    unfold bind, onClient. cbn [StartContainerFrom launch_client].
    rewrite launch_derive. destruct (derive c (objects w)) as [[k|p] h1]; [|done].
    eexists. split; [done|]. cbn -[started]. by rewrite started_Started.
  - exists w. rewrite startIfCandidate_skips, !app_nil_r by done. done.
Qed.

Lemma post_writes_only c h : writes_only (cfg_loc c) (host_loc c) h (post h c).
Proof. unfold post. destruct (launchable h c); [apply derive_writes_only | done]. Qed.

Lemma startIfCandidate_ready c (w : world Launcher) :
  ready (objects w) c ->
  exists w', startIfCandidate c w = (Ok tt, w')
    /\ started (calls w') =
         started (calls w) ++ (if launchable (objects w) c then [c] else [])
    /\ submitted (client w') = submitted (client w) ++ option_list (expected (objects w) c)
    /\ writes_only (cfg_loc c) (host_loc c) (objects w) (objects w').
Proof.
  intros Hr. destruct (startIfCandidate_post c w Hr) as (w' & Hrun & Ho & _ & Hs & Hsub).
  exists w'. split_and!; [done..|]. rewrite Ho. apply post_writes_only.
Qed.

Lemma startCandidates_separate cs (w : world Launcher) h0 :
  separated cs -> Forall (fun c => agree c h0 (objects w)) cs -> Forall (ready h0) cs ->
  exists w', startCandidates None cs w = (Ok Running, w')
    /\ started (calls w') =
         started (calls w) ++ filter (fun c => launchable h0 c = true) cs
    /\ submitted (client w') = submitted (client w) ++ omap (expected h0) cs.
Proof.
  revert w. induction cs as [|c rest IH]; intros w Hsep Hagree Hready.
  { exists w. by rewrite !app_nil_r. }
  destruct Hsep as [Hc Hsep]. apply Forall_cons in Hagree as [Ha Hagree].
  apply Forall_cons in Hready as [Hr Hready]. cbn [startCandidates].
  erewrite bind_run_ok by by apply cancelled_None.
  destruct (startIfCandidate_ready c (passed w)) as (w1 & Hrun & Hs & Hsub & Hw);
    [by apply (ready_agree c h0)|].
  erewrite bind_run_ok by exact Hrun. cbn [passed objects calls client] in *.
  destruct (IH w1) as (w' & -> & Hs' & Hsub'); [done| |done|].
  { assert (Hboth : Forall (fun c' => separate c c' /\ agree c' h0 (objects w)) rest)
      by by apply Forall_and.
    eapply Forall_impl; [exact Hboth|].
    intros c' [Hcc' Ha']. etrans; [exact Ha'|]. by eapply writes_only_agree. }
  exists w'. split; [done|].
  rewrite Hs', Hs, Hsub', Hsub, <- (launchable_proper c h0 _ Ha), <- (expected_proper c h0 _ Ha).
  rewrite filter_cons, <- !app_assoc. split.
  - by destruct (launchable h0 c); case_decide.
  - cbn. by destruct (expected h0 c).
Qed.

(** One pass of the driver with the client that re-creates containers,
    over containers that do not share what they write: the containers that
    are started are the listed ones that the classifier lets through, in the
    order listed, and what is submitted for each is what [runtimeConfig],
    [hostConfig] and [Name] give on the objects as they were before the pass.
    The writes made for one container change nothing for the others. *)
Lemma pass_launches f (w : world Launcher) :
  separated (List.filter f (inspected (client w))) ->
  Forall (ready (objects w)) (List.filter f (inspected (client w))) ->
  exists w', tick f None w = (Ok Running, w')
    /\ started (calls w') =
         started (calls w)
         ++ filter (fun c => launchable (objects w) c = true)
              (List.filter f (inspected (client w)))
    /\ submitted (client w') =
         submitted (client w)
         ++ omap (expected (objects w)) (List.filter f (inspected (client w))).
Proof.
  intros Hsep Hready. unfold tick.
  erewrite bind_run_ok by apply launcher_lists.
  unfold bind, record, modify. cbn [fst snd].
  destruct (startCandidates_separate _ (recorded (Listed None) w) (objects w) Hsep)
    as (w' & -> & Hs & Hsub); [by apply Forall_true | done |].
  exists w'. split; [done|]. revert Hs Hsub. cbn [recorded calls client].
  by rewrite started_Listed.
Qed.

(** ** The objects after a launch are a fixed point *)

(** A heap that a writer left as it was behind its pointers is the heap it
    started from. *)
Lemma writes_only_agree_eq lc li lh h h' :
  writes_only lc lh h h' -> agree_at lc li lh h h' -> h' = h.
Proof.
  intros [Wc Wh] [Ac Ah]. destruct h as [cs hs], h' as [cs' hs']. cbn in *. f_equal.
  - apply map_eq. intros l. destruct (decide (lc = Some l)); [symmetry; auto | auto].
  - apply map_eq. intros l. destruct (decide (lh = Some l)); [symmetry; auto | auto].
Qed.

(** The subtraction reads the port bindings of the host configuration, not
    its links. *)
Lemma runtimeConfig_spec_links cfg img links hc :
  runtimeConfig_spec cfg img (HostConfig.set_Links links hc) = runtimeConfig_spec cfg img hc.
Proof. done. Qed.

Section Stable.
Context (h : heap) (c : Container) (ci : ContainerInfo.t) (ii : ImageInfo.t)
  (l li lh : loc) (cfg img : ContainerConfig.t) (hc : HostConfig.t).
Context (Hci : containerInfo c = Some ci) (Hii : imageInfo c = Some ii)
  (Hl : ContainerInfo.Config ci = Some l) (Hli : ImageInfo.Config ii = Some li)
  (Hlh : ContainerInfo.HostConfig ci = Some lh)
  (Hcfg : configs h !! l = Some cfg) (Himg : configs h !! li = Some img)
  (Hhc : hostConfigs h !! lh = Some hc).

Local Abbreviation cfg' := (runtimeConfig_spec cfg img hc).
Local Abbreviation hc' := (HostConfig.set_Links (rewriteLinks (HostConfig.Links hc)).1 hc).
Local Abbreviation h' := (derived h l lh cfg img hc).

(** Deriving again, on the objects the derivation left, gives the same
    submission and changes nothing. *)
Lemma derive_derived :
  (rewriteLinks (HostConfig.Links hc)).2 = None ->
  derive c h' = (Ok (submission ci cfg img hc), h').
Proof.
  intros Hlinks.
  assert (exists img', configs h' !! li = Some img'
                       /\ runtimeConfig_spec cfg' img' hc' = cfg') as (img' & Himg' & Hspec).
  { destruct (decide (l = li)) as [<-|Hne].
    - exists cfg'. split; [apply lookup_insert_eq|]. rewrite runtimeConfig_spec_links.
      assert (img = cfg) as -> by congruence. apply runtimeConfig_spec_idemp_alias.
    - exists img. split; [by cbn; rewrite lookup_insert_ne|].
      rewrite runtimeConfig_spec_links. apply runtimeConfig_spec_idemp. }
  rewrite (derive_run h' c ci ii l li lh cfg' img' hc' Hci Hii Hl Hli Hlh)
    by (done || apply lookup_insert_eq).
  cbn [HostConfig.Links HostConfig.set_Links].
  rewrite (rewriteLinks_idemp _ Hlinks). cbn [fst snd]. unfold submission, derived.
  cbn [HostConfig.Links HostConfig.set_Links]. rewrite (rewriteLinks_idemp _ Hlinks), Hspec.
  cbn [fst]. f_equal. rewrite upd_config_hostConfig, upd_config_upd.
  by rewrite upd_hostConfig_upd.
Qed.

(** The classifier answers on the objects the derivation left. *)
Lemma classifies_derived : launchable h c = true -> classifies h' c.
Proof.
  rewrite (launchable_run h c ci l cfg) by done. intros (_ & _ & _ & st & Hst & _).
  unfold classifies.
  erewrite IsTugbot_run, IsTugbotCandidate_run by (done || apply lookup_insert_eq).
  cbn [fst]. rewrite Hst. by repeat case_match.
Qed.

Lemma stable_derived :
  launchable h c = true -> (rewriteLinks (HostConfig.Links hc)).2 = None -> stable h' c.
Proof.
  intros Hc Hlinks. pose proof (derive_derived Hlinks) as Hd.
  repeat split; [by apply classifies_derived | by rewrite Hd | by rewrite Hd].
Qed.

End Stable.

(** ** Tick after tick *)

Lemma stable_post h c : stable h c -> post h c = h.
Proof. intros [_ Hs]. unfold post. destruct (launchable h c); auto. Qed.

(** Whether a container is stable depends on its own objects only. *)
Lemma stable_agree c h h' : agree c h h' -> stable h c -> stable h' c.
Proof.
  intros Ha [Hr Hs]. split; [by apply (ready_agree c h)|].
  rewrite <- (launchable_proper c h h' Ha). intros Hl. specialize (Hs Hl).
  apply (writes_only_agree_eq (cfg_loc c) (img_loc c) (host_loc c));
    [apply derive_writes_only|].
  pose proof (proj2 (derive_respects c h h' Ha)) as Hd. rewrite Hs in Hd.
  change (agree c h' (derive c h').2). by etrans.
Qed.

(** A derivation that ends well was of a complete container: its first
    part is [runtimeConfig], which follows every pointer. *)
Lemma derive_Ok_complete c h : is_Ok (derive c h).1 = true -> complete h c.
Proof.
  intros Hok. apply runtimeConfig_Ok_iff. unfold derive, bind in Hok.
  by destruct (runtimeConfig c h) as [[r|p] h1].
Qed.

(** After the driver dealt with a container it is stable, and what is
    submitted for it from then on is what was submitted the first time. *)
Lemma post_stable h c :
  ready h c ->
  stable (post h c) c
  /\ expected (post h c) c = if launchable (post h c) c then expected h c else None.
Proof.
  intros [Hc Hd].
  unfold post, expected. destruct (launchable h c) eqn:Hlaunch;
    [|by rewrite Hlaunch; repeat split; rewrite ?Hlaunch].
  specialize (Hd eq_refl).
  destruct (derive_Ok_complete c h Hd)
    as (ci & ii & l & li & lh & Hci & Hii & Hl & Hli & Hlh & [cfg Hcfg] & [img Himg]
        & [hc Hhc]).
  rewrite (derive_run h c ci ii l li lh cfg img hc) in * by done.
  destruct (rewriteLinks (HostConfig.Links hc)).2 as [e|] eqn:Hlinks; [done|]. cbn [fst snd].
  split; [by eapply stable_derived|].
  by erewrite derive_derived by done.
Qed.

(** The containers of a tick when no container reads what another writes:
    each is left as the driver leaves it when it deals with it alone. *)
Lemma startCandidates_apart cs (w : world Launcher) h0 :
  apart cs -> Forall (fun c => agree c h0 (objects w)) cs -> Forall (ready h0) cs ->
  exists w', startCandidates None cs w = (Ok Running, w')
    /\ inspected (client w') = inspected (client w)
    /\ Forall (fun c => agree c (post h0 c) (objects w')) cs
    /\ (forall c0, Forall (fun c => separate c c0) cs -> agree c0 (objects w) (objects w')).
Proof.
  revert w. induction cs as [|c rest IH]; intros w Hap Hagree Hready.
  { exists w. by split_and!. }
  destruct Hap as [Hc Hap]. apply Forall_cons in Hagree as [Ha Hagree].
  apply Forall_cons in Hready as [Hr Hready]. cbn [startCandidates].
  erewrite bind_run_ok by by apply cancelled_None.
  destruct (startIfCandidate_post c (passed w)) as (w1 & Hrun & Ho & Hi & _ & _);
    [by apply (ready_agree c h0)|].
  erewrite bind_run_ok by exact Hrun. cbn [passed objects client] in Ho, Hi.
  pose proof (post_writes_only c (objects w)) as Hw. rewrite <- Ho in Hw.
  apply Forall_and in Hc as [Hfwd Hback].
  destruct (IH w1) as (w' & -> & Hi' & Hpost & Hframe); [done| |done|].
  { assert (Forall (fun c' => separate c c' /\ agree c' h0 (objects w)) rest) as Hboth
      by by apply Forall_and.
    eapply Forall_impl; [exact Hboth|].
    intros c' [Hcc' Ha']. etrans; [exact Ha'|]. by eapply writes_only_agree. }
  exists w'. split_and!; [done|congruence| |].
  - constructor; [|done]. rewrite <- (Hframe c Hback), Ho. unfold post.
    rewrite (launchable_proper c h0 _ Ha). destruct (launchable _ c); [|done].
    apply (derive_respects c h0 _ Ha).
  - intros c0 Hc0. apply Forall_cons in Hc0 as [Hcc0 Hrest].
    etrans; [by eapply writes_only_agree | by apply Hframe].
Qed.

Lemma apart_separated cs : apart cs -> separated cs.
Proof.
  induction cs as [|c rest IH]; [done|]. intros [Hc Hap]. split; [|by apply IH].
  eapply Forall_impl; [exact Hc|]. by intros c' [].
Qed.

(** The containers of a tick when every one is stable: the objects stay as
    they are. *)
Lemma startCandidates_stable cs (w : world Launcher) :
  Forall (stable (objects w)) cs ->
  exists w', startCandidates None cs w = (Ok Running, w')
    /\ objects w' = objects w /\ inspected (client w') = inspected (client w)
    /\ started (calls w') =
         started (calls w) ++ filter (fun c => launchable (objects w) c = true) cs
    /\ submitted (client w') = submitted (client w) ++ omap (expected (objects w)) cs.
Proof.
  revert w. induction cs as [|c rest IH]; intros w Hst.
  { exists w. by rewrite !app_nil_r. }
  apply Forall_cons in Hst as [Hc Hst]. cbn [startCandidates].
  erewrite bind_run_ok by by apply cancelled_None.
  destruct (startIfCandidate_post c (passed w)) as (w1 & Hrun & Ho & Hi & Hs & Hsub);
    [apply Hc|].
  erewrite bind_run_ok by exact Hrun. cbn [passed objects calls client] in *.
  rewrite (stable_post _ _ Hc) in Ho.
  destruct (IH w1) as (w' & -> & Ho' & Hi' & Hs' & Hsub'); [by rewrite Ho|].
  exists w'. rewrite Hs', Hs, Hsub', Hsub, Ho, filter_cons, <- !app_assoc.
  split_and!; [done|congruence|congruence| |].
  - by destruct (launchable (objects w) c); case_decide.
  - cbn. by destruct (expected (objects w) c).
Qed.

Section Ticks.
Context (f : Filter).
Implicit Types (w : world Launcher).

Local Abbreviation listed w := (List.filter f (inspected (client w))).

Lemma tick_startCandidates w :
  tick f None w = startCandidates None (listed w) (recorded (Listed None) w).
Proof.
  unfold tick. erewrite bind_run_ok by apply launcher_lists.
  by unfold bind, record, modify.
Qed.

(** Any number of ticks over stable containers: each tick starts the
    containers that are let through and submits the same for each, and the
    objects stay as they are. *)
Lemma Run_stable n w :
  Forall (stable (objects w)) (listed w) ->
  exists w', RunTickerTestContainers f None n w = (Ok Running, w')
    /\ objects w' = objects w /\ inspected (client w') = inspected (client w)
    /\ started (calls w') =
         started (calls w)
         ++ concat (replicate n (filter (fun c => launchable (objects w) c = true) (listed w)))
    /\ submitted (client w') =
         submitted (client w) ++ concat (replicate n (omap (expected (objects w)) (listed w))).
Proof.
  revert w. induction n as [|n IH]; intros w Hst.
  { exists w. by rewrite !app_nil_r. }
  cbn [RunTickerTestContainers replicate concat].
  destruct (startCandidates_stable _ (recorded (Listed None) w) Hst)
    as (w1 & Hrun & Ho & Hi & Hs & Hsub).
  rewrite <- tick_startCandidates in Hrun.
  erewrite bind_run_ok by exact Hrun. cbn beta iota.
  erewrite bind_run_ok by by apply cancelled_None. cbn beta iota.
  cbn [recorded objects client calls] in Ho, Hi, Hs, Hsub. rewrite started_Listed in Hs.
  destruct (IH (mkWorld (objects w1) (client w1) (calls w1) (S (points w1))))
    as (w' & -> & Ho' & Hi' & Hs' & Hsub'); cbn [objects client calls] in *;
    [by rewrite Ho, Hi|].
  exists w'. rewrite Hs', Hs, Hsub', Hsub, Ho, Hi, <- !app_assoc.
  split_and!; congruence.
Qed.

(** C22. The driver with the client that re-creates containers, tick after
    tick, over listed containers that the driver can deal with (the
    classifier answers, and the derivation ends well for those it lets
    through) and that do not read what another one writes (they may share an
    image).  The
    first tick starts the listed containers that the classifier lets
    through, in the order listed, and submits for each what [runtimeConfig],
    [hostConfig] and [Name] give on the objects as they were.  The objects
    it leaves are a fixed point: every later tick leaves them as they are,
    starts the containers that are still let through and submits for each
    of them what the first tick submitted.  Nothing keeps a launched
    container from being launched again at the next tick. *)
Theorem run_launches n w :
  apart (List.filter f (inspected (client w))) ->
  Forall (ready (objects w)) (List.filter f (inspected (client w))) ->
  exists w1 w',
    tick f None w = (Ok Running, w1)
    /\ RunTickerTestContainers f None (S n) w = (Ok Running, w')
    /\ objects w' = objects w1
    /\ started (calls w') =
         started (calls w)
         ++ filter (fun c => launchable (objects w) c = true) (listed w)
         ++ concat (replicate n (filter (fun c => launchable (objects w1) c = true)
                                   (listed w)))
    /\ submitted (client w') =
         submitted (client w)
         ++ omap (expected (objects w)) (listed w)
         ++ concat (replicate n (omap (expected (objects w1)) (listed w)))
    /\ Forall (fun c => expected (objects w1) c
                        = if launchable (objects w1) c then expected (objects w) c else None)
         (listed w).
Proof.
  intros Hap Hready.
  destruct (startCandidates_separate _ (recorded (Listed None) w) (objects w)
              (apart_separated _ Hap)) as (w1 & Hrun & Hs & Hsub); [by apply Forall_true|done|].
  destruct (startCandidates_apart _ (recorded (Listed None) w) (objects w) Hap)
    as (w1' & Hrun' & Hi & Hpost & _); [by apply Forall_true|done|].
  rewrite Hrun in Hrun'. injection Hrun' as <-. rewrite <- tick_startCandidates in Hrun.
  cbn [recorded objects client calls] in Hi, Hs, Hsub. rewrite started_Listed in Hs.
  assert (Forall (fun c => stable (objects w1) c
            /\ expected (objects w1) c
               = if launchable (objects w1) c then expected (objects w) c else None)
            (listed w)) as Hst.
  { rewrite Forall_forall in *. intros c Hc.
    destruct (post_stable (objects w) c (Hready c Hc)) as [Hstable Hexp].
    specialize (Hpost c Hc). split; [by apply (stable_agree c _ _ Hpost)|].
    by rewrite <- (expected_proper c _ _ Hpost), <- (launchable_proper c _ _ Hpost). }
  apply Forall_and in Hst as [Hstable Hexp].
  destruct (Run_stable n (mkWorld (objects w1) (client w1) (calls w1) (S (points w1))))
    as (w' & Hrest & Ho' & Hi' & Hs' & Hsub'); cbn [objects client calls] in *;
    [by rewrite Hi|].
  exists w1, w'. cbn [RunTickerTestContainers].
  erewrite bind_run_ok by exact Hrun. cbn beta iota.
  erewrite bind_run_ok by by apply cancelled_None. cbn beta iota.
  rewrite Hs', Hsub', Hs, Hsub, Hi, <- !app_assoc. by split_and!.
Qed.

End Ticks.

(** ** The client that inspects afresh *)

Ltac world_fields :=
  cbn [objects client calls points passed recorded fst snd launcher runtimeObjects
       StartContainerFrom inspect_client launch_client].

(** Between two listings the inspecting client is the launcher. *)
Lemma startIfCandidate_inspecting r c (w : world Launcher) :
  startIfCandidate c (inspecting r w)
  = ((startIfCandidate c w).1, inspecting r (startIfCandidate c w).2).
Proof.
  unfold startIfCandidate, bind, onObjects, onClient, record, modify, inspecting.
  world_fields. destruct (IsTugbot c (objects w)) as [[[]|p] h]; world_fields; try done.
  destruct (IsTugbotCandidate c h) as [[[]|p] h']; world_fields; try done.
  by destruct (launch c (h', client w)) as [[e|p] [h'' l]].
Qed.

Lemma startCandidates_inspecting ca r cs (w : world Launcher) :
  startCandidates ca cs (inspecting r w)
  = ((startCandidates ca cs w).1, inspecting r (startCandidates ca cs w).2).
Proof.
  revert w. induction cs as [|c rest IH]; intros w; [done|].
  cbn [startCandidates]. unfold bind at 1 3 5. unfold cancelled.
  change (visible ca (inspecting r w)) with (visible ca w).
  destruct (visible ca w); [done|].
  change (passed (inspecting r w)) with (inspecting r (passed w)).
  unfold bind. rewrite startIfCandidate_inspecting.
  destruct (startIfCandidate c (passed w)) as [[[]|p] w1]; [apply IH | done].
Qed.

(** The launcher keeps the list of the containers it has inspected. *)
Lemma startCandidates_inspected ca cs (w : world Launcher) :
  inspected (client (startCandidates ca cs w).2) = inspected (client w).
Proof.
  revert w. induction cs as [|c rest IH]; intros w; [done|].
  cbn [startCandidates]. unfold bind, cancelled. destruct (visible ca w); [done|].
  assert (inspected (client (startIfCandidate c (passed w)).2) = inspected (client w)) as Hc.
  { unfold startIfCandidate, bind, onObjects, onClient, record, modify.
    world_fields. destruct (IsTugbot c (objects w)) as [[[]|p] h]; world_fields; try done.
    destruct (IsTugbotCandidate c h) as [[[]|p] h']; world_fields; try done.
    rewrite launch_derive. by destruct (derive c h') as [[k|p] h'']. }
  destruct (startIfCandidate c (passed w)) as [[[]|p] w1]; [|done].
  by rewrite IH.
Qed.

Section Fresh.
Context (f : Filter).
Implicit Types (x : world Inspector).

Local Abbreviation fresh x := (runtimeObjects (client x)).
Local Abbreviation relisted x := (List.filter f (inspected (launcher (client x)))).

(** One tick of the inspecting client: the pass runs on a fresh copy of
    the runtime's objects. *)
Lemma tick_inspecting x :
  tick f None x =
    startCandidates None (relisted x)
      (inspecting (fresh x)
         (mkWorld (fresh x) (launcher (client x)) (calls x ++ [Listed None]) (points x))).
Proof.
  unfold tick, bind, onClient, record, modify.
  cbn [ListContainers inspect_client fst snd]. by destruct x as [h [r l] ks n].
Qed.

(** C23. The driver with a client that inspects afresh at every tick, as
    the specification has it, over listed containers that the driver can
    deal with on the runtime's objects and of which none reads what an
    earlier one writes.  Every tick starts the listed containers that the
    classifier lets through, in the order listed, and submits for each what
    [runtimeConfig], [hostConfig] and [Name] give on the runtime's objects:
    the writes of a pass are made to a copy that the next listing replaces,
    so a candidate is launched again at every tick, with the same override
    configuration, for as long as the runtime lists it. *)
Theorem run_relaunches n x :
  separated (relisted x) -> Forall (ready (fresh x)) (relisted x) ->
  exists x',
    RunTickerTestContainers f None n x = (Ok Running, x')
    /\ fresh x' = fresh x /\ relisted x' = relisted x
    /\ started (calls x') =
         started (calls x)
         ++ concat (replicate n (filter (fun c => launchable (fresh x) c = true)
                                   (relisted x)))
    /\ submitted (launcher (client x')) =
         submitted (launcher (client x))
         ++ concat (replicate n (omap (expected (fresh x)) (relisted x))).
Proof.
  revert x. induction n as [|n IH]; intros x Hsep Hready.
  { exists x. by rewrite !app_nil_r. }
  cbn [RunTickerTestContainers replicate concat]. unfold bind at 1.
  rewrite tick_inspecting, startCandidates_inspecting.
  set (w0 := mkWorld (fresh x) (launcher (client x)) (calls x ++ [Listed None]) (points x)).
  destruct (startCandidates_separate _ w0 (fresh x) Hsep) as (w1 & Hrun & Hs & Hsub);
    [by apply Forall_true|done|].
  pose proof (startCandidates_inspected None (relisted x) w0) as Hi.
  rewrite Hrun in *. cbn [fst snd] in *. unfold bind, cancelled. cbn [visible].
  destruct (IH (passed (inspecting (fresh x) w1))) as (x' & -> & Hf & Hl & Hs' & Hsub');
    cbn [passed inspecting client runtimeObjects launcher calls] in *;
    [by rewrite Hi..|].
  exists x'. rewrite Hf, Hl, Hs', Hs, Hsub', Hsub, Hi. subst w0.
  cbn [calls client]. by rewrite started_Listed, <- !app_assoc.
Qed.

End Fresh.

(** ** The theorems at the concrete container *)

Lemma startIfCandidate_launches_witness :
  startIfCandidate ex_container (mkWorld ex_heap (mkLauncher [ex_container] []) [] 0) =
    match (rewriteLinks (HostConfig.Links ex_hc)).2 with
    | None =>
        (Ok tt, mkWorld (derived ex_heap 1%positive 3%positive ex_cfg ex_img ex_hc)
                  (mkLauncher [ex_container] ([] ++ [submission ex_ci ex_cfg ex_img ex_hc]))
                  ([] ++ [Started ex_container None]) 0)
    | Some e =>
        (Panic e, mkWorld (derived ex_heap 1%positive 3%positive ex_cfg ex_img ex_hc)
                    (mkLauncher [ex_container] []) [] 0)
    end.
Proof.
  exact (startIfCandidate_launches ex_heap ex_container ex_ci ex_ii 1%positive 2%positive
           3%positive ex_cfg ex_img ex_hc eq_refl eq_refl eq_refl eq_refl eq_refl
           eq_refl eq_refl eq_refl (mkLauncher [ex_container] []) [] 0 eq_refl).
Defined.

Lemma launched_again_iff_witness :
  launchable
    (objects (startIfCandidate ex_container
                (mkWorld ex_heap (mkLauncher [ex_container] []) [] 0)).2) ex_container = true
  <-> Labels ex_img !! LabelTest <> Some "true".
Proof.
  exact (launched_again_iff ex_heap ex_container ex_ci ex_ii 1%positive 2%positive
           3%positive ex_cfg ex_img ex_hc eq_refl eq_refl eq_refl eq_refl eq_refl
           eq_refl eq_refl eq_refl (mkLauncher [ex_container] []) [] 0 eq_refl).
Defined.

Lemma driver_crashes_without_image_witness :
  RunTickerTestContainers anyContainer None 3
    (launcher_world ex_heap [ex_no_image; ex_container]) =
    (Panic NilDereference,
     passed (recorded (Listed None) (launcher_world ex_heap [ex_no_image; ex_container]))).
Proof.
  exact (driver_crashes_without_image anyContainer None 2
           (launcher_world ex_heap [ex_no_image; ex_container]) ex_no_image [ex_container]
           eq_refl eq_refl eq_refl eq_refl).
Defined.

(** The conditions on the fixtures, by running their decision
    procedures. *)
Lemma ex_ready : Forall (ready ex_heap) [ex_container; ex_other].
Proof. compute_done. Qed.

Lemma ex_separated : separated [ex_container; ex_other].
Proof. compute_done. Qed.

Lemma ex_apart : apart [ex_container; ex_twin].
Proof. compute_done. Qed.

Lemma ex_ready2 : Forall (ready ex_heap2) [ex_container; ex_twin].
Proof. compute_done. Qed.

(** The two containers are complete and stay so; [ex_other], which has no
    host configuration, is not, and is not launched: it is not a
    candidate. *)
Lemma ex_complete :
  Forall (complete ex_heap2) [ex_container; ex_twin]
  /\ ~ complete ex_heap ex_other /\ launchable ex_heap ex_other = false.
Proof. split_and!; compute_done. Qed.

Lemma run_launches_witness :
  exists w1 w',
    tick anyContainer None (launcher_world ex_heap2 [ex_container; ex_twin])
    = (Ok Running, w1)
    /\ RunTickerTestContainers anyContainer None 3
         (launcher_world ex_heap2 [ex_container; ex_twin]) = (Ok Running, w')
    /\ objects w' = objects w1
    /\ started (calls w') =
         started (calls (launcher_world ex_heap2 [ex_container; ex_twin]))
         ++ filter (fun c => launchable ex_heap2 c = true)
              (List.filter anyContainer [ex_container; ex_twin])
         ++ concat (replicate 2 (filter (fun c => launchable (objects w1) c = true)
                                   (List.filter anyContainer [ex_container; ex_twin])))
    /\ submitted (client w') =
         submitted (client (launcher_world ex_heap2 [ex_container; ex_twin]))
         ++ omap (expected ex_heap2) (List.filter anyContainer [ex_container; ex_twin])
         ++ concat (replicate 2 (omap (expected (objects w1))
                                   (List.filter anyContainer [ex_container; ex_twin])))
    /\ Forall (fun c => expected (objects w1) c
                        = if launchable (objects w1) c then expected ex_heap2 c else None)
         (List.filter anyContainer [ex_container; ex_twin]).
Proof.
  exact (run_launches anyContainer 2 (launcher_world ex_heap2 [ex_container; ex_twin])
           ex_apart ex_ready2).
Defined.

(** Three ticks over the two containers: both are launched at every tick. *)
Lemma ex_run_names :
  createdName <$> submitted (client (RunTickerTestContainers anyContainer None 3
                                       (launcher_world ex_heap2 [ex_container; ex_twin])).2)
  = ["web-test"; "web-test-2"; "web-test"; "web-test-2"; "web-test"; "web-test-2"].
Proof. by vm_compute. Qed.

Lemma run_relaunches_witness :
  exists x',
    RunTickerTestContainers anyContainer None 3 ex_inspecting = (Ok Running, x')
    /\ runtimeObjects (client x') = ex_heap2
    /\ List.filter anyContainer (inspected (launcher (client x'))) = [ex_container; ex_twin]
    /\ started (calls x') =
         started (calls ex_inspecting)
         ++ concat (replicate 3 (filter (fun c => launchable ex_heap2 c = true)
                                   [ex_container; ex_twin]))
    /\ submitted (launcher (client x')) =
         submitted (launcher (client ex_inspecting))
         ++ concat (replicate 3 (omap (expected ex_heap2) [ex_container; ex_twin])).
Proof.
  exact (run_relaunches anyContainer 3 ex_inspecting (apart_separated _ ex_apart) ex_ready2).
Defined.

(** A container whose image declares the test label, over three ticks: the
    launcher, which lists the objects its first pass wrote, launches it once;
    the client that inspects afresh launches it at every tick. *)
Lemma ex_launched_once_or_always :
  length (submitted (client (RunTickerTestContainers anyContainer None 3
                               (launcher_world ex_test_heap [ex_container])).2)) = 1
  /\ length (submitted (launcher (client
               (RunTickerTestContainers anyContainer None 3
                  (inspecting ex_test_heap
                     (launcher_world ex_test_heap [ex_container]))).2))) = 3.
Proof. by vm_compute. Qed.
