(* ===== verification/Goroutines.v ===== *)
(** * Goroutines: the tests of the driver as two goroutines

    Each test of [ticker_test.go] starts the driver in a goroutine of its own
    and goes on in the goroutine of the test: it waits on [wg1], which a
    callback of the mock client releases, cancels the context, waits on
    [wg2], which the driver's goroutine releases when the driver has
    returned, and then asserts.  [sys_step] is the interleaving of the two
    goroutines: the test's goroutine moves from one statement to the next,
    the driver's takes a step of [TickerSteps.step] under the context as it
    is at that moment, and a panic of the driver ends the process.  [fire]
    is the same as a function and [exec] runs a schedule.

    The theorems: a run of the two goroutines is a run of the driver under
    the cancellation point that [cancel()] fixed ([goroutines_refine_driver]),
    which is what the parameter [cancelAfter] of [Ticker] stands for; the
    first two tests pass on every schedule and end on every fair one
    ([tests_pass_on_every_schedule], [tests_end_on_fair_schedules]), by an
    invariant and a rank; the third test, whose callback releases [wg1] at
    every start, passes or panics according to the schedule
    ([Iteration2_race]), by exploring its finitely many runs.  A call of
    the driver that never returns keeps the test waiting on every schedule
    ([blocked_hangs]). *)

From stdpp Require Import strings gmap relations.
From S2P Require Import Prelude GoStrings DockerTypes Container Ticker TickerSteps TickerTests.

Local Open Scope go_scope.

(** The two goroutines. *)
Inductive role : Type := Main | Driver.

#[export] Instance role_eq_dec : EqDecision role.
Proof. solve_decision. Defined.

(** Where the goroutine of the test is: before [wg1.Wait()], before
    [cancel()], before [wg2.Wait()], before the assertions, or done with the
    verdict of the assertions. *)
Inductive pc : Type := AtWait1 | AtCancel | AtWait2 | AtAsserts | Passed | Failed.

#[export] Instance pc_eq_dec : EqDecision pc.
Proof. solve_decision. Defined.

(** What distinguishes the tests: the objects and the client they set up,
    and what they assert at the end. *)
Record Test : Type := mkTest {
  objs : heap;
  mock : MockClient;
  asserts : MockClient -> bool;
}.

Definition TestRunTickerTestContainers_FailedToGetListContainers : Test :=
  mkTest (mkHeap ∅ ∅) FailedToGetListContainers.client
    (fun m => touch (vars m) && AssertExpectations m).

Definition TestRunTickerTestContainers : Test :=
  mkTest (OneContainer.testObjects LabelTest "tugbot.event.timer") OneContainer.client
    (fun m => touch (vars m) && AssertExpectations m).

Definition TestRunTickerTestContainers_Iteration2ContainsDifferentListContainers : Test :=
  mkTest (Iteration2.testObjects LabelTest "tugbot.event.timer") Iteration2.client
    (fun m => touchListContainers (vars m) && touchStartContainerFrom (vars m)
              && AssertExpectations m).

(** The state of a running test: the statement the test's goroutine is at,
    the context ([None] until [cancel()], then the suspension point of the
    driver from which the cancellation is visible), the driver, whether the
    driver's goroutine is over, and the counter of [wg2]. *)
Record sys : Type := mkSys {
  main : pc;
  ctx : option nat;
  driver : config MockClient;
  returned : bool;
  wg2 : Z;
}.

(** A driver that panicked takes the process with it; a driver that waits
    in a call for ever does not. *)
Definition alive (d : config MockClient) : bool :=
  match d.1 with
  | Crashed Blocked => true
  | Crashed _ => false
  | _ => true
  end.

(** The driver is where no step leads on: it panicked, or waits in a call
    for ever. *)
Definition crashed (d : config MockClient) : bool :=
  match d.1 with Crashed _ => true | _ => false end.

(** [wg1.Wait()] returns when the counter is zero. *)
Definition released (d : config MockClient) : bool :=
  bool_decide (wg1 (vars (client d.2)) = 0%Z).

(** [cancel()]: the cancellation is visible from the suspension point the
    driver passes next; cancelling again changes nothing. *)
Definition cancel (c : option nat) (d : config MockClient) : option nat :=
  match c with
  | Some n => Some n
  | None => Some (points d.2)
  end.

(** The assertions at the end of a test, with those the callbacks made. *)
Definition verdict (T : Test) (m : MockClient) : pc :=
  if asserted (vars m) && asserts T m then Passed else Failed.

(** The world of the driver when its goroutine starts. *)
Definition world0 (T : Test) : world MockClient := mkWorld (objs T) (mock T) [] 0.

(** A test after its [go] statement: [wg2.Add(1)] was called, the context
    is not cancelled, neither goroutine has done anything. *)
Definition start (T : Test) : sys := mkSys AtWait1 None (Listing, world0 T) false 1.

Section Goroutines.
Context (containerFilter : Filter) (T : Test).

(** One step of one goroutine. *)
Inductive sys_step : role -> sys -> sys -> Prop :=
| main_wait1 c d r n :
    alive d = true -> released d = true ->
    sys_step Main (mkSys AtWait1 c d r n) (mkSys AtCancel c d r n)
| main_cancel c d r n :
    alive d = true ->
    sys_step Main (mkSys AtCancel c d r n) (mkSys AtWait2 (cancel c d) d r n)
| main_wait2 c d r :
    alive d = true ->
    sys_step Main (mkSys AtWait2 c d r 0) (mkSys AtAsserts c d r 0)
| main_asserts c d r n :
    alive d = true ->
    sys_step Main (mkSys AtAsserts c d r n) (mkSys (verdict T (client d.2)) c d r n)
| driver_step m c d d' n :
    step containerFilter c d d' ->
    sys_step Driver (mkSys m c d false n) (mkSys m c d' false n)
| driver_return m c w n :
    sys_step Driver (mkSys m c (Done, w) false n) (mkSys m c (Done, w) true (n - 1)).

(** A step of either goroutine. *)
Definition interleave (s s' : sys) : Prop := exists r, sys_step r s s'.

(** The step of a goroutine as a function: [None] when the goroutine is
    blocked or over. *)
Definition fire (r : role) (s : sys) : option sys :=
  let '(mkSys m c d ret n) := s in
  match r with
  | Main =>
      if alive d then
        match m with
        | AtWait1 => if released d then Some (mkSys AtCancel c d ret n) else None
        | AtCancel => Some (mkSys AtWait2 (cancel c d) d ret n)
        | AtWait2 => if bool_decide (n = 0%Z) then Some (mkSys AtAsserts c d ret n) else None
        | AtAsserts => Some (mkSys (verdict T (client d.2)) c d ret n)
        | Passed | Failed => None
        end
      else None
  | Driver =>
      if ret then None
      else match d.1 with
           | Done => Some (mkSys m c d true (n - 1))
           | _ => d' ← advance containerFilter c d; Some (mkSys m c d' false n)
           end
  end.

(** A schedule names the goroutine to run next; a goroutine that cannot
    move when its turn comes is passed over. *)
Fixpoint exec (sched : list role) (s : sys) : sys :=
  match sched with
  | [] => s
  | r :: rest => exec rest (default s (fire r s))
  end.

(** The first [n] turns of an unending schedule, from its turn [i]. *)
Definition run (sched : nat -> role) (i n : nat) (s : sys) : sys :=
  exec (sched <$> seq i n) s.

(** The states one step away, and those exactly [n] steps away. *)
Definition successors (s : sys) : list sys := omap (fun r => fire r s) [Main; Driver].

Fixpoint frontier (n : nat) (ss : list sys) : list sys :=
  match n with
  | 0 => ss
  | S n => frontier n (ss ≫= successors)
  end.

(** The states at most [n] steps away. *)
Definition within (n : nat) (s : sys) : list sys :=
  seq 0 (S n) ≫= (fun k => frontier k [s]).

(** What every run of a test keeps true, whatever the test. *)
Record coherent (s : sys) : Prop := mkCoherent {
  coherent_ctx : ctx s = None <-> main s = AtWait1 \/ main s = AtCancel;
  coherent_points : forall n, ctx s = Some n -> (n <= points (driver s).2)%nat;
  coherent_wg2 : wg2 s = if returned s then 0%Z else 1%Z;
  coherent_returned : returned s = true -> (driver s).1 = Done;
  coherent_main : main s = AtAsserts \/ main s = Passed \/ main s = Failed ->
                  returned s = true;
  coherent_run : rtc (step containerFilter (ctx s)) (Listing, world0 T) (driver s);
}.

End Goroutines.

(** Every goroutine gets its turn again and again. *)
Definition fair (sched : nat -> role) : Prop :=
  forall r i, exists j, (i <= j)%nat /\ sched j = r.

(** The schedule that takes turns. *)
Definition alternate (i : nat) : role := if Nat.even i then Main else Driver.

(** A test whose callbacks release [wg1] for good: the configurations of its
    driver keep [good], in none of them has a call panicked or blocked, the
    counter of [wg1] stays at zero once it is there, which takes at most
    [todo] steps, and from then on the assertions of the test hold. *)
Class Releasing (containerFilter : Filter) (T : Test) : Type := {
  good : config MockClient -> Prop;
  todo : config MockClient -> nat;
  good_start : good (Listing, world0 T);
  good_step c x y : good x -> step containerFilter c x y -> good y;
  good_running x : good x -> crashed x = false;
  good_released c x y :
    good x -> released x = true -> step containerFilter c x y -> released y = true;
  good_verdict x : good x -> released x = true -> verdict T (client x.2) = Passed;
  good_todo x y :
    good x -> released x = false -> step containerFilter None x y ->
    (todo y < todo x)%nat;
}.

Section Rank.
Context {containerFilter : Filter} {T : Test} `{!Releasing containerFilter T}.

(** The goroutine whose step brings the end of the test nearer. *)
Definition owed (s : sys) : role :=
  match main s with
  | AtWait1 => if released (driver s) then Main else Driver
  | AtWait2 => if returned s then Main else Driver
  | _ => Main
  end.

(** What is left to do: the steps of the driver until [wg1] is released,
    the two statements of the test up to [cancel()], the steps of the
    driver until it has seen the cancellation and returned, and the last
    two statements of the test. *)
Definition rank (s : sys) : nat :=
  match main s with
  | AtWait1 => if released (driver s) then 11 else 12 + todo (driver s)
  | AtCancel => 10
  | AtWait2 =>
      if returned s then 2
      else 3 + from_option (fun n => measure n (driver s)) 0 (ctx s)
  | AtAsserts => 1
  | Passed | Failed => 0
  end.

(** What every run of a releasing test keeps true. *)
Record safe (s : sys) : Prop := mkSafe {
  safe_coherent : coherent containerFilter T s;
  safe_good : good (driver s);
  safe_released : main s <> AtWait1 -> released (driver s) = true;
  safe_verdict : main s <> Failed;
}.

End Rank.

(** ** The drivers of the first two tests *)

(** The driver of the first test when it has listed [k] times: it has
    started nothing and is not in a pass; the first listing released [wg1]. *)
Definition failing_at (k : nat) (x : config MockClient) : Prop :=
  client x.2 = failing_after k (if k is 0 then vars0 else touched)
  /\ calls x.2 = replicate k (Listed (Some "Expected :)"))
  /\ (x.1 = Listing \/ (k <> 0 /\ (x.1 = Waiting \/ x.1 = Done))).

Definition failing_good (x : config MockClient) : Prop := exists k, failing_at k x.

Definition failing_todo (x : config MockClient) : nat :=
  if released x then 0 else 1.

(** The driver of the second test when it has listed [k] times and started
    the container of the test [j] times: it has called nothing else, and in
    a pass the container is still to start, or was started; the first start
    released [wg1].  A driver cancelled in a pass has stopped before the
    start. *)
Definition one_at (k j : nat) (x : config MockClient) : Prop :=
  objects x.2 = OneContainer.testObjects LabelTest "tugbot.event.timer"
  /\ client x.2 = one_after k j (if j is 0 then vars0 else touched)
  /\ Forall (fun a => a = Listed None \/ a = Started OneContainer.c None) (calls x.2)
  /\ ((k = j /\ (x.1 = Listing \/ (j <> 0 /\ (x.1 = Processing [] \/ x.1 = Waiting))))
      \/ (k = S j /\ x.1 = Processing [OneContainer.c])
      \/ ((k = j \/ k = S j) /\ x.1 = Done)).

Definition one_good (x : config MockClient) : Prop := exists k j, one_at k j x.

Definition one_todo (x : config MockClient) : nat :=
  if released x then 0 else if x.1 is Listing then 2 else 1.

(** ** Schedules of the third test *)

(** The driver runs through its third tick before the test's goroutine gets
    its turn. *)
Definition late : list role := replicate 10 Driver.

(** The test's goroutine cancels as soon as [wg1] is released. *)
Definition timely : list role :=
  replicate 6 Driver ++ [Main; Main] ++ replicate 3 Driver ++ [Main; Main].

(** The first test at its [go] statement, had the mutex of its callback
    been left locked: what [locker.Unlock()] is there to prevent. *)
Definition held : sys :=
  mkSys AtWait1 None
    (Listing, mkWorld (mkHeap ∅ ∅) (failing_after 0 (set_locker true vars0)) [] 0) false 1.

(** What is true of the third test wherever a schedule takes it: the
    assertions never fail; a driver that panicked did so in [wg1.Done()], on
    a counter below zero; and when the test has passed, [c1] and [c2] were
    started once each, in that order. *)
Definition passes_or_panics (s : sys) : bool :=
  bool_decide (main s <> Failed)
  && match (driver s).1 with
     | Crashed p =>
         bool_decide (p = Explicit)
         && bool_decide (wg1 (vars (client (driver s).2)) = (-1)%Z)
     | _ => true
     end
  && (if main s is Passed
      then bool_decide (startedNames (driver s).2 = ["c1"; "c2"]) else true).

(** No goroutine can move. *)
Definition stuck (containerFilter : Filter) (T : Test) (s : sys) : bool :=
  match successors containerFilter T s with [] => true | _ => false end.

(** What holds of a state of the third test: [passes_or_panics], and when
    no goroutine can move the test has passed or the driver has panicked. *)
Definition settled (containerFilter : Filter) (s : sys) : bool :=
  passes_or_panics s
  && (negb (stuck containerFilter
            TestRunTickerTestContainers_Iteration2ContainsDifferentListContainers s)
      || bool_decide (main s = Passed) || negb (alive (driver s))).

(** ** The function and the relation; schedules and runs *)

Section Generic.
Context (containerFilter : Filter) (T : Test).
Implicit Types (s : sys) (r : role) (d : config MockClient).

Local Abbreviation stepS := (sys_step containerFilter T).
Local Abbreviation fireS := (fire containerFilter T).
Local Abbreviation execS := (exec containerFilter T).
Local Abbreviation stepD := (step (C:=MockClient) containerFilter).

Lemma step_alive c d d' : stepD c d d' -> alive d = true.
Proof. by inversion 1. Qed.

Lemma running_alive d : crashed d = false -> alive d = true.
Proof. unfold crashed, alive. by destruct d.1. Qed.

(** [fire] computes the step of a goroutine. *)
Lemma fire_step r s s' : fireS r s = Some s' <-> stepS r s s'.
Proof.
  split.
  - destruct s as [m c [ph w] ret n], r; cbn [fire fst snd].
    + destruct (alive (ph, w)) eqn:Ea; [|done].
      destruct m; repeat case_match; intros; simplify_eq; try by constructor.
      case_bool_decide; simplify_eq. by constructor.
    + destruct ret; [done|]. intros E.
      destruct ph; cbn beta iota in E;
        try (destruct (advance containerFilter c _) as [d'|] eqn:Ed; cbn in E;
             simplify_eq; constructor; by apply advance_step).
      simplify_eq. constructor.
  - inversion 1 as [? ? ? ? Ha Hr|? ? ? ? Ha|? ? ? Ha|? ? ? ? Ha|? ? d d' ? Hs|];
      subst; cbn [fire fst snd]; rewrite ?Ha, ?Hr; try done.
    apply advance_step in Hs. destruct d as [[] w]; cbn [fst]; by rewrite ?Hs.
Qed.

Lemma exec_app l1 l2 s : execS (l1 ++ l2) s = execS l2 (execS l1 s).
Proof. revert s. induction l1 as [|r l1 IH]; intros s; [done|]. apply IH. Qed.

(** Every schedule gives a run of the two goroutines, and every run is that
    of a schedule. *)
Lemma exec_interleave sched s : rtc (interleave containerFilter T) s (execS sched s).
Proof.
  revert s. induction sched as [|r rest IH]; intros s; [done|]. cbn [exec].
  destruct (fireS r s) as [s'|] eqn:E; [|apply IH].
  eapply rtc_l; [|apply IH]. exists r. by apply fire_step.
Qed.

Lemma interleave_exec s s' :
  rtc (interleave containerFilter T) s s' -> exists sched, execS sched s = s'.
Proof.
  induction 1 as [s|s s1 s2 [r Hs] _ [sched IH]]; [by exists []|].
  exists (r :: sched). apply fire_step in Hs. cbn [exec]. by rewrite Hs.
Qed.

Lemma run_S sched i n s :
  run containerFilter T sched i (S n) s
  = run containerFilter T sched (S i) n (default s (fireS (sched i) s)).
Proof. done. Qed.

(** The driver's goroutine leaves the test where it is, and the test's
    goroutine cannot move before [wg1] is released: a schedule that gives
    all the turns to one goroutine never ends the test. *)
Lemma Driver_keeps_main sched s :
  Forall (fun r => r = Driver) sched -> main (execS sched s) = main s.
Proof.
  intros Hd. revert s. induction Hd as [|r rest -> _ IH]; intros s; [done|].
  cbn [exec]. rewrite IH. destruct (fireS Driver s) as [s'|] eqn:E; [|done].
  apply fire_step in E. by inversion E.
Qed.

Lemma Main_waits sched s :
  Forall (fun r => r = Main) sched -> main s = AtWait1 -> released (driver s) = false ->
  execS sched s = s.
Proof.
  intros Hm Hs Hr. induction Hm as [|r rest -> _ IH]; [done|].
  destruct s as [m c d ret n]; cbn in Hs, Hr; subst m.
  cbn [exec fire]. rewrite Hr. by destruct (alive d).
Qed.

Lemma unfair_hangs r n :
  released (Listing, world0 T) = false ->
  main (execS (replicate n r) (start T)) = AtWait1.
Proof.
  intros Hr. destruct r.
  - rewrite Main_waits; [done| |done..]. by apply Forall_replicate.
  - rewrite Driver_keeps_main; [done|]. by apply Forall_replicate.
Qed.

(** A driver that waits in a call for ever takes no step and does not
    return: the test goes as far as [wg2.Wait()] and stays there, on every
    schedule. *)
Lemma blocked_hangs sched s :
  (driver s).1 = Crashed Blocked -> returned s = false -> wg2 s = 1%Z ->
  main s = AtWait1 \/ main s = AtCancel \/ main s = AtWait2 ->
  driver (execS sched s) = driver s /\ returned (execS sched s) = false
  /\ (main (execS sched s) = AtWait1 \/ main (execS sched s) = AtCancel
      \/ main (execS sched s) = AtWait2).
Proof.
  revert s. induction sched as [|r sched IH]; intros s Hd Hr Hw Hm; [done|].
  cbn [exec]. destruct (fireS r s) as [s1|] eqn:E; [|by apply IH].
  change (default s (Some s1)) with s1.
  assert (driver s1 = driver s /\ returned s1 = false /\ wg2 s1 = 1%Z
          /\ (main s1 = AtWait1 \/ main s1 = AtCancel \/ main s1 = AtWait2))
    as (Hd1 & Hr1 & Hw1 & Hm1).
  { destruct s as [m c [ph w] ret n]. cbn [driver returned wg2 main fst] in *. subst.
    destruct r; cbn [fire alive fst advance option_bind mbind] in E; [|done].
    destruct Hm as [->| [->| ->]]; cbn in E; repeat case_match; simplify_eq;
      cbn; repeat split; auto. }
  destruct (IH s1) as (-> & -> & Hm'); rewrite ?Hd1; auto.
Qed.

(** When [wg1] is not released either, the test stays at [wg1.Wait()]. *)
Lemma blocked_waits sched s :
  (driver s).1 = Crashed Blocked -> returned s = false ->
  main s = AtWait1 -> released (driver s) = false ->
  execS sched s = s.
Proof.
  intros Hd Hr Hm Hrel. induction sched as [|r sched IH]; [done|].
  destruct s as [m c [ph w] ret n]. cbn [driver returned main fst] in *. subst.
  cbn [exec]. by destruct r; cbn [fire alive fst advance]; rewrite ?Hrel.
Qed.

(** ** What every run keeps true *)

Lemma coherent_start : coherent containerFilter T (start T).
Proof. split; cbn; try done; naive_solver. Qed.

Lemma coherent_step r s s' :
  coherent containerFilter T s -> stepS r s s' -> coherent containerFilter T s'.
Proof.
  intros [Hc Hp Hw Hr Hm Hrun]. inversion 1 as [| |? ? ? ?| |? c d d' ? Hs|]; subst;
    cbn [main ctx driver returned wg2 fst snd] in *.
  - split; cbn [main ctx driver returned wg2]; try done; naive_solver.
  - rewrite (proj2 Hc) in * by auto.
    split; cbn [main ctx driver returned wg2 cancel].
    + split; [done | by intros [|]].
    + by intros k [= <-].
    + done.
    + done.
    + intros [|[|]]; done.
    + by apply steps_None_Some.
  - destruct r0; [|done]. split; cbn [main ctx driver returned wg2]; try done; naive_solver.
  - split; cbn [main ctx driver returned wg2]; try done; [|naive_solver].
    split; [intros Hn | intros [E|E]]; [apply Hc in Hn; naive_solver|..];
      exfalso; unfold verdict in E; by case_match.
  - split; cbn [main ctx driver returned wg2]; [done| |done|done|done|by eapply rtc_r].
    intros k Hk. apply step_points in Hs. specialize (Hp k Hk). lia.
  - split; cbn [main ctx driver returned wg2]; [done|done| |done|done|done].
    rewrite Hw. lia.
Qed.

Lemma coherent_exec sched : coherent containerFilter T (execS sched (start T)).
Proof.
  assert (forall s s', rtc (interleave containerFilter T) s s' ->
                       coherent containerFilter T s -> coherent containerFilter T s') as Hrtc.
  { induction 1 as [|s s1 s2 [r Hs] _ IH]; [done|]. intros Hc.
    apply IH. by eapply coherent_step. }
  eapply Hrtc; [apply exec_interleave | apply coherent_start].
Qed.

(** The driver does not return before the cancellation. *)
Lemma Done_cancelled c w w' : rtc (stepD c) (Listing, w) (Done, w') -> c <> None.
Proof.
  intros Hrun ->. destruct (steps_resume containerFilter None _ _ Hrun eq_refl) as [n Hn].
  cbn [fst snd resume] in Hn. unfold outcome in Hn.
  pose proof (Run_not_stopped containerFilter None n w eq_refl) as Hns.
  destruct (RunTickerTestContainers _ _ _ _) as [[[]|] ?]; by simplify_eq/=.
Qed.

(** Before [cancel()] the driver has not returned. *)
Lemma running_before_cancel s :
  coherent containerFilter T s -> ctx s = None ->
  returned s = false /\ forall w, driver s <> (Done, w).
Proof.
  intros [_ _ _ Hr _ Hrun] Hc. rewrite Hc in Hrun.
  assert (forall w, driver s <> (Done, w)) as Hd.
  { intros w E. rewrite E in Hrun. by apply Done_cancelled in Hrun. }
  split; [|done]. destruct (returned s); [|done]. specialize (Hr eq_refl).
  destruct (driver s) as [ph w]; cbn in Hr; subst. by destruct (Hd w).
Qed.

(** The turn of a driver that lives and has not returned: it returns, or
    takes a step. *)
Lemma fire_Driver s :
  returned s = false -> crashed (driver s) = false ->
  (exists w, driver s = (Done, w)
     /\ fireS Driver s = Some (mkSys (main s) (ctx s) (driver s) true (wg2 s - 1)))
  \/ (exists d', step containerFilter (ctx s) (driver s) d'
        /\ fireS Driver s = Some (mkSys (main s) (ctx s) d' false (wg2 s))).
Proof.
  destruct s as [m c [ph w] ret n]; cbn [returned driver main ctx wg2]. intros -> Ha.
  destruct (decide (state_of ph = Some Running)) as [Hrun|Hrun].
  - right. destruct (step_progress containerFilter c (ph, w) Hrun) as [d' Hs].
    exists d'. split; [done|]. apply advance_step in Hs.
    destruct ph; cbn [fire fst]; by rewrite ?Hs.
  - left. destruct ph; try done. by exists w.
Qed.

(** C26. A run of the two goroutines is a run of the driver under one
    cancellation point: on every schedule the driver has taken steps of
    [TickerSteps.step] from [Listing] under the context as it is now, the
    point that [cancel()] fixed being one the driver had not passed; and a
    driver that has returned or panicked is in the state in which the loop
    of [Ticker], run with that point as [cancelAfter], ends for some number
    of ticks.  So what is proved of the driver holds in the tests: the
    objects are those the test set up, and every container started is one
    the classifier lets through.  The driver returns only after [cancel()],
    and the test reads the variables for its assertions only after the
    driver's goroutine is over: the callbacks and the assertions do not
    race. *)
Theorem goroutines_refine_driver sched :
  let s := exec containerFilter T sched (start T) in
  rtc (step containerFilter (ctx s)) (Listing, world0 T) (driver s)
  /\ (returned s = true \/ alive (driver s) = false ->
      exists ticks,
        outcome (RunTest containerFilter (objs T) (mock T) (ctx s) ticks) = driver s)
  /\ extends (world0 T) (driver s).2
  /\ (returned s = true -> ctx s <> None)
  /\ (main s = AtAsserts \/ main s = Passed \/ main s = Failed -> returned s = true).
Proof.
  intros s. destruct (coherent_exec sched) as [_ _ _ Hr Hm Hrun]. fold s in Hr, Hm, Hrun.
  split_and!; [done| | | |done].
  - intros Hf. apply (steps_resume containerFilter (ctx s) _ _ Hrun).
    destruct Hf as [Hf|Hf]; [by rewrite (Hr Hf)|].
    unfold alive in Hf. by destruct (driver s).1 as [| | | |[]].
  - apply (steps_extends containerFilter (ctx s) _ _ Hrun).
  - intros Hret. specialize (Hr Hret). destruct (driver s) as [ph w']; cbn in Hr; subst.
    by eapply Done_cancelled.
Qed.

End Generic.

(** ** Tests that release [wg1] for good: safety *)

Section Safety.
Context {containerFilter : Filter} {T : Test} `{!Releasing containerFilter T}.
Implicit Types (s : sys) (r : role) (d : config MockClient).

Local Abbreviation stepS := (sys_step containerFilter T).
Local Abbreviation fireS := (fire containerFilter T).
Local Abbreviation execS := (exec containerFilter T).

Lemma safe_start : safe (start T).
Proof. split; [apply coherent_start | apply good_start | done | done]. Qed.

Lemma safe_step r s s' : safe s -> stepS r s s' -> safe s'.
Proof.
  intros [Hc Hg Hr Hv] Hs. split; [by eapply coherent_step|..];
    inversion Hs as [| | |? d ? ?|? c d d' ? Hd|]; subst;
    cbn [main driver] in *; eauto using good_step; try done.
  - intros Hm. eapply good_released; eauto.
  - rewrite good_verdict; auto.
Qed.

Lemma safe_interleave s s' : rtc (interleave containerFilter T) s s' -> safe s -> safe s'.
Proof.
  induction 1 as [|s s1 s2 [r Hs] _ IH]; [done|]. intros Hsafe.
  apply IH. by eapply safe_step.
Qed.

Lemma safe_exec sched s : safe s -> safe (execS sched s).
Proof. apply safe_interleave, exec_interleave. Qed.

Lemma safe_fire r s s' : safe s -> fireS r s = Some s' -> safe s'.
Proof. intros Hs Hf. apply fire_step in Hf. by eapply safe_step. Qed.

End Safety.

(** ** Tests that release [wg1] for good: fair schedules end *)

Section Liveness.
Context {containerFilter : Filter} {T : Test} `{!Releasing containerFilter T}.
Implicit Types (s : sys) (r : role) (d : config MockClient).

Local Abbreviation stepS := (sys_step containerFilter T).
Local Abbreviation fireS := (fire containerFilter T).
Local Abbreviation runS := (run containerFilter T).

(** The turn of the driver while the test waits on [wg1]. *)
Lemma owed_Driver_wait1 s :
  safe s -> main s = AtWait1 -> released (driver s) = false ->
  exists s', fireS Driver s = Some s' /\ (rank s' < rank s)%nat.
Proof.
  intros [Hc Hg _ _] Hm Hr.
  pose proof (proj2 (coherent_ctx _ _ _ Hc) (or_introl Hm)) as Hctx.
  destruct (running_before_cancel containerFilter T s Hc Hctx) as [Hret Hd].
  destruct (fire_Driver containerFilter T s Hret (good_running _ Hg)) as [(w & E & _)|(d' & Hs & ->)];
    [by destruct (Hd w)|].
  eexists; split; [done|]. unfold rank. cbn [main driver]. rewrite Hm, Hr.
  rewrite Hctx in Hs. pose proof (good_todo _ _ Hg Hr Hs). case_match; lia.
Qed.

(** The turn of the driver while the test waits on [wg2]. *)
Lemma owed_Driver_wait2 s :
  safe s -> main s = AtWait2 -> returned s = false ->
  exists s', fireS Driver s = Some s' /\ (rank s' < rank s)%nat.
Proof.
  intros [Hc Hg _ _] Hm Hret.
  destruct (ctx s) as [n|] eqn:Hctx;
    [|apply (coherent_ctx _ _ _ Hc) in Hctx as [|]; congruence].
  destruct (fire_Driver containerFilter T s Hret (good_running _ Hg)) as [(w & E & ->)|(d' & Hs & ->)];
    (eexists; split; [done|]); unfold rank; cbn [main driver returned ctx];
    rewrite Hm, Hret, Hctx; cbn [from_option]; [lia|].
  rewrite Hctx in Hs. apply (step_measure _ n) in Hs. lia.
Qed.

(** The turn of the test's goroutine when nothing holds it. *)
Lemma owed_Main s :
  safe s -> owed s = Main -> main s <> Passed ->
  exists s', fireS Main s = Some s' /\ (rank s' < rank s)%nat.
Proof.
  intros [Hc Hg _ Hv] Ho Hm. pose proof (running_alive _ (good_running _ Hg)) as Ha.
  pose proof (coherent_wg2 _ _ _ Hc) as Hw. unfold owed in Ho.
  destruct s as [m c d ret n]; cbn [main driver returned wg2 ctx] in *.
  destruct m; try done; cbn [fire]; rewrite Ha.
  - destruct (released d) eqn:Hr; [|done]. eexists; split; [done|].
    unfold rank; cbn [main driver]. rewrite Hr. lia.
  - eexists; split; [done|]. unfold rank; cbn [main driver returned ctx].
    pose proof (proj2 (coherent_ctx _ _ _ Hc) (or_intror eq_refl)) as Hctx.
    cbn in Hctx. subst c. cbn [cancel from_option].
    pose proof (measure_at_cancel d). case_match; lia.
  - destruct ret; [|done]. subst n. rewrite bool_decide_eq_true_2 by done.
    eexists; split; [done|]. unfold rank; cbn [main returned]. lia.
  - eexists; split; [done|]. unfold rank, verdict; cbn [main]. destruct (_ && _); lia.
Qed.

(** The goroutine that is owed a turn can take it, and its step brings the
    end nearer. *)
Lemma owed_decreases s :
  safe s -> main s <> Passed ->
  exists s', fireS (owed s) s = Some s' /\ (rank s' < rank s)%nat.
Proof.
  intros Hs Hm. destruct (owed s) eqn:Ho; [by apply owed_Main|].
  unfold owed in Ho. destruct (main s) eqn:Em; try done.
  - apply owed_Driver_wait1; [done..|]. by destruct (released (driver s)).
  - apply owed_Driver_wait2; [done..|]. by destruct (returned s).
Qed.

(** A step of the other goroutine does not take the end further away, and
    leaves the turn owed. *)
Lemma other_step r s s' :
  safe s -> stepS r s s' -> r <> owed s ->
  (rank s' <= rank s)%nat /\ owed s' = owed s.
Proof.
  intros [Hc Hg Hrel Hv] Hs. pose proof (coherent_wg2 _ _ _ Hc) as Hw.
  pose proof (coherent_main _ _ _ Hc) as Hmain.
  inversion Hs as [? ? ? ? ? Hr| |? ? ret ?| |m c d d' ? Hd|m ? ? ?]; subst;
    unfold owed, rank; cbn [main driver returned wg2 ctx] in *;
    rewrite ?Hr; try done.
  - by destruct ret.
  - destruct m; try done; try (by intros; discriminate Hmain; auto).
    destruct (released d) eqn:Hr; [|done]. by rewrite (good_released _ _ _ Hg Hr Hd).
  - destruct m; try done; by intros; discriminate Hmain; auto.
Qed.

(** The turn of the goroutine that is owed one: the test ends if it ends
    from every state of smaller rank. *)
Lemma owed_turn sched s i :
  (forall s' i', safe s' -> (rank s' < rank s)%nat ->
                 exists n, main (runS sched i' n s') = Passed) ->
  safe s -> main s <> Passed -> sched i = owed s ->
  exists n, main (runS sched i n s) = Passed.
Proof.
  intros IH Hs Hm Ho. destruct (owed_decreases s Hs Hm) as (s' & Hf & Hlt).
  destruct (IH s' (S i)) as [n Hn]; [by eapply safe_fire | done |].
  exists (S n). by rewrite run_S, Ho, Hf.
Qed.

(** The turn of the other goroutine: the test ends if it ends from the next
    turn on, in every state of the same rank at most that owes the same
    goroutine a turn. *)
Lemma other_turn sched s i :
  (forall s', safe s' -> (rank s' <= rank s)%nat -> owed s' = owed s ->
              exists n, main (runS sched (S i) n s') = Passed) ->
  safe s -> sched i <> owed s ->
  exists n, main (runS sched i n s) = Passed.
Proof.
  intros IH Hs Ho. destruct (fireS (sched i) s) as [s'|] eqn:Hf.
  - apply fire_step in Hf as Hst. destruct (other_step _ _ _ Hs Hst Ho) as [Hle Ho'].
    destruct (IH s') as [n Hn]; [by eapply safe_fire | done..|].
    exists (S n). by rewrite run_S, Hf.
  - destruct (IH s) as [n Hn]; [done..|]. exists (S n). by rewrite run_S, Hf.
Qed.

(** From a state of rank at most [k] a fair schedule ends the test, from
    whatever turn it is taken up: by induction on the rank, and on the
    turns until the goroutine that is owed one gets it. *)
Lemma fair_run_ends sched :
  fair sched ->
  forall k s i, safe s -> (rank s <= k)%nat ->
  exists n, main (runS sched i n s) = Passed.
Proof.
  intros Hfair k. induction k as [k IHk] using lt_wf_ind. intros s i Hs Hk.
  destruct (decide (main s = Passed)) as [|Hm]; [by exists 0|].
  destruct (Hfair (owed s) i) as (j & Hij & Hj).
  remember (j - i) as gap eqn:Hgap. revert s i Hs Hk Hm Hij Hj Hgap.
  induction gap as [|gap IHgap]; intros s i Hs Hk Hm Hij Hj Hgap;
    (destruct (decide (sched i = owed s)) as [Ho|Ho];
     [apply owed_turn; [|done..]; intros s' i' Hs' Hlt;
      apply (IHk (rank s')); [lia|done..] |]).
  - assert (j = i) by lia. by subst.
  - apply other_turn; [|done..]. intros s' Hs' Hle Ho'.
    destruct (decide (main s' = Passed)) as [|Hm']; [by exists 0|].
    apply IHgap; try done; try lia. by rewrite Ho'.
Qed.

End Liveness.

(** The schedule that takes turns is fair. *)
Lemma alternate_fair : fair alternate.
Proof.
  intros r i. destruct r; [exists (2 * i) | exists (S (2 * i))];
    (split; [lia|]); unfold alternate.
  - by rewrite Nat.even_mul.
  - by rewrite Nat.even_succ, Nat.odd_mul.
Qed.

(** ** The first two tests release [wg1] for good *)

Section Tests.
Context (containerFilter : Filter).
Implicit Types (x y : config MockClient).

Local Abbreviation stepD := (step (C:=MockClient) containerFilter).
Local Abbreviation objs1 := (OneContainer.testObjects LabelTest "tugbot.event.timer").

Lemma list_failing h k v ks p :
  v = vars0 \/ v = touched ->
  onClient (ListContainers containerFilter) (mkWorld h (failing_after k v) ks p)
  = (Ok ([], Some "Expected :)"), mkWorld h (failing_after (S k) touched) ks p).
Proof. by intros [-> | ->]. Qed.

Lemma vars_of_count k : (if k is 0 then vars0 else touched) = vars0
                        \/ (if k is 0 then vars0 else touched) = touched.
Proof. destruct k; auto. Qed.

Lemma failing_released k x : failing_at k x -> released x = bool_decide (k <> 0).
Proof. intros (E & _). unfold released. rewrite E. by destruct k. Qed.

(** A step of the first test's driver lists once more, or not at all. *)
Lemma failing_step c k x y :
  failing_at k x -> stepD c x y ->
  failing_at k y \/ (failing_at (S k) y /\ x.1 = Listing).
Proof.
  intros (Hcl & Hcalls & Hph). destruct x as [ph [h m ks p]]; cbn in Hcl, Hcalls, Hph; subst m.
  inversion 1 as [? ? ? E|? ? ? ? E|? ? ? E| | | | | |]; subst;
    try (rewrite list_failing in E by apply vars_of_count; simplify_eq);
    try (left; split_and!; cbn; naive_solver); try naive_solver.
  right. split; [|done]. split_and!; cbn; [done| |auto].
  by rewrite replicate_cons_app.
Qed.

Lemma failing_good_step c x y : failing_good x -> stepD c x y -> failing_good y.
Proof.
  intros [k Hk] Hs. destruct (failing_step c k x y Hk Hs) as [|[]]; by eexists.
Qed.

Lemma failing_good_released c x y :
  failing_good x -> released x = true -> stepD c x y -> released y = true.
Proof.
  intros [k Hk] Hr Hs. rewrite (failing_released k) in Hr by done.
  destruct (failing_step c k x y Hk Hs) as [Hy|[Hy _]];
    rewrite (failing_released _ _ Hy); [done|by apply bool_decide_eq_true].
Qed.

Lemma failing_good_running x : failing_good x -> crashed x = false.
Proof. intros (k & _ & _ & Hph). unfold crashed. by destruct Hph as [->|(_ & [->| ->])]. Qed.

Lemma failing_good_verdict x :
  failing_good x -> released x = true ->
  verdict TestRunTickerTestContainers_FailedToGetListContainers (client x.2) = Passed.
Proof.
  intros [k Hk] Hr. rewrite (failing_released k) in Hr by done.
  destruct Hk as (-> & _). apply bool_decide_eq_true in Hr. by destruct k.
Qed.

Lemma failing_good_todo x y :
  failing_good x -> released x = false -> stepD None x y ->
  (failing_todo y < failing_todo x)%nat.
Proof.
  intros [k Hk] Hr Hs. unfold failing_todo. rewrite Hr.
  rewrite (failing_released k) in Hr by done. apply bool_decide_eq_false in Hr.
  assert (k = 0) as -> by (destruct k; [done | by destruct Hr]).
  destruct (failing_step None 0 x y Hk Hs) as [Hy|[Hy _]].
  - destruct Hk as (_ & _ & Hx), Hy as (_ & _ & Hy). inversion Hs; naive_solver.
  - rewrite (failing_released _ _ Hy), bool_decide_eq_true_2 by done. lia.
Qed.

Lemma failing_good_start :
  failing_good (Listing, world0 TestRunTickerTestContainers_FailedToGetListContainers).
Proof. exists 0. split_and!; auto. Qed.

#[export] Instance failing_releasing :
  Releasing containerFilter TestRunTickerTestContainers_FailedToGetListContainers := {|
  good := failing_good;
  todo := failing_todo;
  good_start := failing_good_start;
  good_step := failing_good_step;
  good_running := failing_good_running;
  good_released := failing_good_released;
  good_verdict := failing_good_verdict;
  good_todo := failing_good_todo;
|}.

(** *** The second test *)

Lemma list_one k j v ks p :
  onClient (ListContainers containerFilter) (mkWorld objs1 (one_after k j v) ks p)
  = (Ok ([OneContainer.c], None), mkWorld objs1 (one_after (S k) j v) ks p).
Proof. done. Qed.

Lemma start_one k j v ks p :
  v = vars0 \/ v = touched ->
  startIfCandidate OneContainer.c (mkWorld objs1 (one_after k j v) ks p)
  = (Ok tt, mkWorld objs1 (one_after k (S j) touched)
              (ks ++ [Started OneContainer.c None]) p).
Proof. by intros [-> | ->]; vm_compute. Qed.

Lemma one_released k j x : one_at k j x -> released x = bool_decide (j <> 0).
Proof. intros (_ & E & _). unfold released. rewrite E. by destruct j. Qed.

(** A step of the second test's driver lists once more, starts the
    container once more, or calls nothing; the start is the step that
    releases [wg1]. *)
Lemma one_step c k j x y :
  one_at k j x -> stepD c x y ->
  one_at k j y
  \/ (one_at (S k) j y /\ x.1 = Listing)
  \/ (one_at k (S j) y /\ x.1 = Processing [OneContainer.c]).
Proof.
  intros (Ho & Hcl & Hcalls & Hph).
  destruct x as [ph [h m ks p]]; cbn in Ho, Hcl, Hcalls, Hph; subst h m.
  inversion 1 as [? ? ? E|? ? ? ? E|? ? ? E|? ? ? ? Hv E|? ? ? ? ? Hv E| | | |]; subst;
    try (rewrite list_one in E; simplify_eq);
    try (assert (c0 = OneContainer.c /\ rest = [] /\ k = S j) as (-> & -> & ->)
           by naive_solver;
         unfold passed in E; cbn [objects client calls points] in E;
         rewrite start_one in E by apply vars_of_count; simplify_eq).
  all: unfold one_at; cbn [fst snd objects client calls recorded passed].
  all: try (left; split_and!; try done; naive_solver).
  - right; left. split; [|done]. split_and!; try done; [|naive_solver].
    apply Forall_app; split; [done|]. apply Forall_singleton. by left.
  - right; right. split; [|done]. split_and!; try done; [|naive_solver].
    apply Forall_app; split; [done|]. apply Forall_singleton. by right.
Qed.

Lemma one_good_step c x y : one_good x -> stepD c x y -> one_good y.
Proof.
  intros (k & j & Hk) Hs.
  destruct (one_step c k j x y Hk Hs) as [|[[]|[]]]; by do 2 eexists.
Qed.

Lemma one_good_released c x y :
  one_good x -> released x = true -> stepD c x y -> released y = true.
Proof.
  intros (k & j & Hk) Hr Hs. rewrite (one_released k j) in Hr by done.
  destruct (one_step c k j x y Hk Hs) as [Hy|[[Hy _]|[Hy _]]];
    rewrite (one_released _ _ _ Hy); [done..|by apply bool_decide_eq_true].
Qed.

Lemma one_good_running x : one_good x -> crashed x = false.
Proof.
  intros (k & j & _ & _ & _ & Hph). unfold crashed.
  by destruct Hph as [(_ & [->|(_ & [->| ->])])|[(_ & ->)|(_ & ->)]].
Qed.

Lemma one_good_verdict x :
  one_good x -> released x = true ->
  verdict TestRunTickerTestContainers (client x.2) = Passed.
Proof.
  intros (k & j & Hk) Hr. rewrite (one_released k j) in Hr by done.
  destruct Hk as (_ & -> & _ & Hph). apply bool_decide_eq_true in Hr.
  destruct j; [done|]. by assert (exists k', k = S k') as [k' ->] by (destruct k; naive_solver).
Qed.

Lemma one_good_todo x y :
  one_good x -> released x = false -> stepD None x y ->
  (one_todo y < one_todo x)%nat.
Proof.
  intros (k & j & Hk) Hr Hs. unfold one_todo. rewrite Hr.
  rewrite (one_released k j) in Hr by done. apply bool_decide_eq_false in Hr.
  assert (j = 0) as -> by (destruct j; [done | by destruct Hr]).
  destruct (one_step None k 0 x y Hk Hs) as [Hy|[[Hy ->]|[Hy ->]]].
  - destruct Hk as (_ & _ & _ & Hx), Hy as (_ & _ & _ & Hy). inversion Hs; naive_solver.
  - rewrite (one_released _ _ _ Hy). destruct Hy as (_ & _ & _ & Hy).
    destruct y as [[] w]; naive_solver.
  - rewrite (one_released _ _ _ Hy), bool_decide_eq_true_2 by done. lia.
Qed.

Lemma one_good_start : one_good (Listing, world0 TestRunTickerTestContainers).
Proof. exists 0, 0. split_and!; auto. Qed.

#[export] Instance one_releasing :
  Releasing containerFilter TestRunTickerTestContainers := {|
  good := one_good;
  todo := one_todo;
  good_start := one_good_start;
  good_step := one_good_step;
  good_running := one_good_running;
  good_released := one_good_released;
  good_verdict := one_good_verdict;
  good_todo := one_good_todo;
|}.

End Tests.

(** ** The first two tests on every schedule *)

Section Passing.
Context {containerFilter : Filter} {T : Test} `{!Releasing containerFilter T}.

Local Abbreviation fireS := (fire containerFilter T).
Local Abbreviation execS := (exec containerFilter T).
Local Abbreviation runS := (run containerFilter T).

(** A goroutine that cannot move is passed over, whatever the schedule. *)
Lemma stuck_exec sched s : (forall r, fireS r s = None) -> execS sched s = s.
Proof. intros Hs. induction sched as [|r rest IH]; [done|]. cbn. by rewrite Hs. Qed.

(** A test that passed is over, for both goroutines. *)
Lemma passed_stuck s r : safe s -> main s = Passed -> fireS r s = None.
Proof.
  intros [Hc _ _ _] Hm. pose proof (coherent_main _ _ _ Hc) as Hret.
  destruct s as [m c d ret n]; cbn in Hm, Hret; subst m.
  rewrite Hret by auto. destruct r; cbn [fire]; [by destruct (alive d) | done].
Qed.

(** On every schedule the driver has neither panicked nor blocked, keeps
    its invariant and no assertion fails; when the test has passed the driver has returned. *)
Lemma releasing_safe sched :
  let s := execS sched (start T) in
  crashed (driver s) = false /\ main s <> Failed /\ good (driver s)
  /\ (main s = Passed ->
      released (driver s) = true /\ returned s = true /\ (driver s).1 = Done).
Proof.
  intros s. destruct (safe_exec sched _ safe_start) as [Hc Hg Hr Hv]. fold s in Hc, Hg, Hr, Hv.
  split_and!; [by apply good_running|done..|]. intros Hm.
  assert (returned s = true) as Hret by (apply (coherent_main _ _ _ Hc); auto).
  split_and!; [apply Hr; congruence | done | by apply (coherent_returned _ _ _ Hc)].
Qed.

(** On a fair schedule the test passes after some number of turns, and has
    passed from then on. *)
Lemma releasing_fair sched :
  fair sched -> exists n, forall m, (n <= m)%nat -> main (runS sched 0 m (start T)) = Passed.
Proof.
  intros Hfair.
  destruct (fair_run_ends sched Hfair _ (start T) 0 safe_start (le_n _)) as [n Hn].
  exists n. intros m Hm. unfold run in *.
  replace m with (n + (m - n)) by lia. rewrite seq_app, fmap_app, exec_app.
  rewrite stuck_exec; [done|]. intros r. apply passed_stuck; [|done].
  apply safe_exec, safe_start.
Qed.

End Passing.

Lemma started_Listed_only k e : started (replicate k (Listed e)) = [].
Proof. induction k as [|k IH]; [done | exact IH]. Qed.

Lemma started_one ks :
  Forall (fun a => a = Listed None \/ a = Started OneContainer.c None) ks ->
  Forall (fun c => c = OneContainer.c) (started ks).
Proof.
  induction 1 as [|a ks [-> | ->] _ IH]; [constructor | exact IH | by constructor].
Qed.

Section Claims.
Context (containerFilter : Filter).

Local Abbreviation exec1 :=
  (exec containerFilter TestRunTickerTestContainers_FailedToGetListContainers).
Local Abbreviation exec2 := (exec containerFilter TestRunTickerTestContainers).

(** C27. The first two tests pass on every schedule of their two
    goroutines.  Wherever a schedule has taken
    [TestRunTickerTestContainers_FailedToGetListContainers], no call of the
    driver has panicked or waits for the mutex, which is free between the
    callbacks, no assertion has failed and [StartContainerFrom] was never
    called; and once the test has passed the driver has returned, [touch] is
    set and [wg1] is at zero.  Wherever a schedule has taken
    [TestRunTickerTestContainers], the same holds, every start was of the
    test's container, and the expectations of the mock are met at the end. *)
Theorem tests_pass_on_every_schedule sched :
  let s1 := exec1 sched (start TestRunTickerTestContainers_FailedToGetListContainers) in
  let s2 := exec2 sched (start TestRunTickerTestContainers) in
  (crashed (driver s1) = false /\ main s1 <> Failed
   /\ locker (vars (client (driver s1).2)) = false
   /\ started (calls (driver s1).2) = []
   /\ (main s1 = Passed ->
       returned s1 = true /\ (driver s1).1 = Done
       /\ vars (client (driver s1).2) = touched))
  /\ (crashed (driver s2) = false /\ main s2 <> Failed
      /\ locker (vars (client (driver s2).2)) = false
      /\ Forall (fun c => c = OneContainer.c) (started (calls (driver s2).2))
      /\ (main s2 = Passed ->
          returned s2 = true /\ (driver s2).1 = Done
          /\ vars (client (driver s2).2) = touched
          /\ AssertExpectations (client (driver s2).2) = true)).
Proof.
  intros s1 s2. split.
  - destruct (releasing_safe (T:=TestRunTickerTestContainers_FailedToGetListContainers)
                (containerFilter:=containerFilter) sched)
      as (Ha & Hv & [k Hk] & Hp). fold s1 in Ha, Hv, Hk, Hp.
    split_and!; [done..| | |].
    + destruct Hk as (-> & _). by destruct k.
    + destruct Hk as (_ & -> & _). apply started_Listed_only.
    + intros Hm. destruct (Hp Hm) as (Hr & Hret & Hd). split_and!; [done..|].
      rewrite (failing_released k) in Hr by done. apply bool_decide_eq_true in Hr.
      destruct Hk as (-> & _). by destruct k.
  - destruct (releasing_safe (T:=TestRunTickerTestContainers)
                (containerFilter:=containerFilter) sched)
      as (Ha & Hv & (k & j & Hk) & Hp). fold s2 in Ha, Hv, Hk, Hp.
    split_and!; [done..| | |].
    + destruct Hk as (_ & -> & _). by destruct j.
    + destruct Hk as (_ & _ & Hcalls & _). by apply started_one.
    + intros Hm. destruct (Hp Hm) as (Hr & Hret & Hd).
      pose proof (one_good_verdict (driver s2) (ex_intro _ k (ex_intro _ j Hk)) Hr) as Hvd.
      rewrite (one_released k j) in Hr by done. apply bool_decide_eq_true in Hr.
      destruct Hk as (_ & Hcl & _). rewrite Hcl in Hvd |- *.
      destruct j; [done|]. split_and!; [done..|].
      unfold verdict in Hvd. cbn -[AssertExpectations] in Hvd.
      by destruct (AssertExpectations _).
Qed.

(** C28. The first two tests end on every fair schedule: when each of
    the two goroutines gets its turn again and again, the test reaches its
    last statement with every assertion true after some number of turns,
    and nothing moves from then on.  The driver needs its turns to release
    [wg1] and to see the cancellation, the test's goroutine needs its own to
    cancel; on an unfair schedule the driver polls for ever. *)
Theorem tests_end_on_fair_schedules sched :
  fair sched ->
  (exists n, forall m, (n <= m)%nat ->
     main (run containerFilter TestRunTickerTestContainers_FailedToGetListContainers
             sched 0 m (start TestRunTickerTestContainers_FailedToGetListContainers))
     = Passed)
  /\ (exists n, forall m, (n <= m)%nat ->
        main (run containerFilter TestRunTickerTestContainers
                sched 0 m (start TestRunTickerTestContainers))
        = Passed).
Proof. intros Hfair. split; by apply releasing_fair. Qed.

End Claims.

(** ** Runs of bounded length, by exploration *)

Section Explore.
Context (containerFilter : Filter) (T : Test).
Implicit Types (s : sys) (ss : list sys).

Local Abbreviation interleaveS := (interleave containerFilter T).
Local Abbreviation successorsS := (successors containerFilter T).
Local Abbreviation frontierS := (frontier containerFilter T).

Lemma successors_spec s s' : s' ∈ successorsS s <-> interleaveS s s'.
Proof.
  unfold successors, interleave. rewrite list_elem_of_omap. split.
  - intros (r & _ & Hf). exists r. by apply fire_step.
  - intros [r Hs]. exists r. split; [destruct r; set_solver | by apply fire_step].
Qed.

(** [frontier n ss] holds the ends of the runs of [n] steps from [ss]. *)
Lemma frontier_spec n ss s' :
  s' ∈ frontierS n ss <-> exists s, s ∈ ss /\ nsteps interleaveS n s s'.
Proof.
  revert ss. induction n as [|n IH]; intros ss; cbn [frontier].
  - split; [intros; eexists; split; [done|constructor] | intros (s & ? & Hn)].
    by inversion Hn; subst.
  - rewrite IH. setoid_rewrite list_elem_of_bind. split.
    + intros (s1 & (s & Hs1 & Hs) & Hn). exists s. split; [done|].
      eapply nsteps_l; [by apply successors_spec | done].
    + intros (s & Hs & Hn). inversion Hn as [|? ? s1 ? H1 Hn']; subst.
      exists s1. split; [|done]. exists s. split; [by apply successors_spec | done].
Qed.

Lemma within_spec n s s' :
  s' ∈ within containerFilter T n s
  <-> exists k, (k <= n)%nat /\ nsteps interleaveS k s s'.
Proof.
  unfold within. rewrite list_elem_of_bind. setoid_rewrite frontier_spec.
  setoid_rewrite elem_of_seq. setoid_rewrite list_elem_of_singleton. split.
  - intros (k & (s0 & -> & Hn) & Hk). exists k. split; [lia | done].
  - intros (k & Hk & Hn). exists k. split; [by exists s | lia].
Qed.

(** When no run has more than [n] steps, what holds of the states within
    [n] steps holds wherever a schedule leads. *)
Lemma exhaust (P : sys -> bool) n s :
  frontierS (S n) [s] = [] ->
  forallb P (within containerFilter T n s) = true ->
  forall sched, P (exec containerFilter T sched s) = true.
Proof.
  intros Hend HP sched.
  destruct (proj1 (rtc_nsteps _ _) (exec_interleave containerFilter T sched s)) as [k Hk].
  rewrite forallb_forall in HP. apply HP, list_elem_of_In, within_spec.
  exists k. split; [|done]. destruct (decide (k <= n)%nat) as [|Hgt]; [done|].
  replace k with (S n + (k - S n)) in Hk by lia.
  apply nsteps_add_inv in Hk as (s1 & H1 & _).
  assert (s1 ∈ frontierS (S n) [s]) as Hin by (apply frontier_spec; set_solver).
  rewrite Hend in Hin. by apply elem_of_nil in Hin.
Qed.

End Explore.
(** ** The third test: the schedule decides *)

Section Race.
Context (containerFilter : Filter).

Local Abbreviation T3 := TestRunTickerTestContainers_Iteration2ContainsDifferentListContainers.

(** What [settled] says. *)
Lemma settled_spec s :
  settled containerFilter s = true ->
  main s <> Failed
  /\ (forall p, (driver s).1 = Crashed p ->
        p = Explicit /\ wg1 (vars (client (driver s).2)) = (-1)%Z)
  /\ (main s = Passed -> startedNames (driver s).2 = ["c1"; "c2"])
  /\ (stuck containerFilter T3 s = true -> main s = Passed \/ alive (driver s) = false).
Proof.
  unfold settled, passes_or_panics, alive.
  rewrite !andb_true_iff, !orb_true_iff, !negb_true_iff, !bool_decide_eq_true.
  intros [[[Hv Hp] Hn] Hs]. split_and!; [done| | |].
  - intros p E. rewrite E in Hp. apply andb_true_iff in Hp.
    by rewrite !bool_decide_eq_true in Hp.
  - intros E. rewrite E in Hn. by apply bool_decide_eq_true in Hn.
  - intros E. rewrite E in Hs. naive_solver.
Qed.

(** C29. The third test passes or panics, and the schedule decides which.
    Its callback calls [wg1.Done()] at every start of [c2], and the mock
    answers [c2] at every listing after the first: on whatever schedule, no
    assertion fails and a panic of the driver is that of [wg1.Done()] on a
    counter below zero; when the test has passed, [c1] and [c2] were started
    once each, in tick order; no run has more than fifteen steps, and when
    no goroutine can move the test has passed or the driver has panicked.
    Both happen: the test passes when its goroutine cancels before the
    driver's third tick ([timely]), and the process dies when the driver
    gets there first ([late]), which an interval of one nanosecond
    invites. *)
Theorem Iteration2_race :
  (forall sched,
     let s := exec containerFilter T3 sched (start T3) in
     main s <> Failed
     /\ (forall p, (driver s).1 = Crashed p ->
           p = Explicit /\ wg1 (vars (client (driver s).2)) = (-1)%Z)
     /\ (main s = Passed -> startedNames (driver s).2 = ["c1"; "c2"])
     /\ (stuck containerFilter T3 s = true -> main s = Passed \/ alive (driver s) = false))
  /\ frontier containerFilter T3 16 [start T3] = []
  /\ main (exec containerFilter T3 timely (start T3)) = Passed
  /\ (driver (exec containerFilter T3 late (start T3))).1 = Crashed Explicit.
Proof.
  split; [|split; [|split]]; [|by vm_compute..].
  intros sched. apply settled_spec. apply (exhaust _ _ _ 15); by vm_compute.
Qed.

End Race.

(** ** The theorems at a concrete schedule *)

Lemma tests_end_on_fair_schedules_witness :
  fair alternate
  /\ (exists n, forall m, (n <= m)%nat ->
        main (run anyContainer TestRunTickerTestContainers_FailedToGetListContainers
                alternate 0 m (start TestRunTickerTestContainers_FailedToGetListContainers))
        = Passed)
  /\ (exists n, forall m, (n <= m)%nat ->
        main (run anyContainer TestRunTickerTestContainers
                alternate 0 m (start TestRunTickerTestContainers))
        = Passed).
Proof.
  split; [apply alternate_fair|].
  exact (tests_end_on_fair_schedules anyContainer alternate alternate_fair).
Defined.

(** Taking turns, each of the first two tests has passed after thirteen
    turns. *)
Lemma alternate_passes :
  main (run anyContainer TestRunTickerTestContainers_FailedToGetListContainers
          alternate 0 13 (start TestRunTickerTestContainers_FailedToGetListContainers))
  = Passed
  /\ main (run anyContainer TestRunTickerTestContainers
             alternate 0 13 (start TestRunTickerTestContainers))
     = Passed.
Proof. by vm_compute. Qed.

(** With the mutex held, the first call of the driver waits for it for
    ever: the driver never returns, [wg1] is never released, and the test is
    at [wg1.Wait()] on every schedule. *)
Lemma held_mutex_hangs sched :
  let s := exec anyContainer TestRunTickerTestContainers_FailedToGetListContainers sched held in
  main s = AtWait1 /\ returned s = false /\ touch (vars (client (driver s).2)) = false.
Proof.
  set (T := TestRunTickerTestContainers_FailedToGetListContainers).
  set (stalled := default held (fire anyContainer T Driver held)).
  assert (forall l, exec anyContainer T l stalled = stalled) as Hstalled
    by (intros l; by apply blocked_waits).
  induction sched as [|[] sched IH]; [done|exact IH|].
  cbn [exec]. fold stalled. by rewrite Hstalled.
Qed.
